(** * slogger v2: the rolling file appender

    A shallow embedding of [v2/rolling_file_appender/rolling_file_appender.go]
    and the properties of its write path, rotation, submission and shutdown.

    The Go code talks to three things that are not part of the package: the
    operating system (files), the Go runtime (clock, call stack) and the
    parent [slogger] package (the [Log] record and [FormatLog]).  They are
    gathered in an explicit [World]; every method of the appender is a
    computation over a [World] and over its own copy of the receiver. *)

From Stdlib Require Import ZArith String Ascii List Lia DecimalString DecimalZ.
From stdpp Require Import base option list gmap strings.

Open Scope Z_scope.
Open Scope string_scope.
Open Scope list_scope.

(** ** Values of the surrounding packages *)

(** Modelled from the spec: [slogger.Level] is declared in the parent
    package, which is not part of the sources; the spec calls it an "ordered
    severity".  Only the two levels this package names are distinguished. *)
Inductive Level := INFO | WARN.

(** [time.Time], as far as [newRotatedFilename] reads it. *)
Record GoTime := {
  Year : Z; Month : Z; Day : Z; Hour : Z; Minute : Z; Second : Z
}.

(** An element of a [[]interface{}] argument list. *)
Inductive Arg := ArgInt (z : Z) | ArgString (s : string).

(** Modelled from the spec: [slogger.Log], declared in the parent package;
    the fields are the ones [simpleLog] fills in. *)
Record Log := {
  Prefix : string;
  LogLevel : Level;
  Filename : string;
  Line : Z;
  Timestamp : GoTime;
  MessageFmt : string;
  Args : list Arg
}.

(** The underlying cause carried by an error of the [os] package. *)
Inductive Cause :=
| ErrClosed            (* the handle was closed before the call *)
| ErrInvalid           (* nil or unknown handle *)
| ErrNotExist          (* no such path *)
| ErrInjected (code : nat).   (* any other failure of the system call *)

(** ** The error taxonomy (lines 252-335) *)

Inductive Error :=
| CloseError (Filename : string) (Err : Cause)
| NoFileError
| OpenError (Filename : string) (Err : Cause)
| RenameError (OldFilename NewFilename : string) (Err : Cause)
| WriteError (Filename : string) (Err : Cause).

Definition IsCloseError (e : Error) : bool :=
  match e with CloseError _ _ => true | _ => false end.
Definition IsNoFileError (e : Error) : bool :=
  match e with NoFileError => true | _ => false end.
Definition IsOpenError (e : Error) : bool :=
  match e with OpenError _ _ => true | _ => false end.
Definition IsRenameError (e : Error) : bool :=
  match e with RenameError _ _ _ => true | _ => false end.
Definition IsWriteError (e : Error) : bool :=
  match e with WriteError _ _ => true | _ => false end.

(** ** The operating system *)

(** The flags of [os.OpenFile] that matter for writing. *)
Record OpenFlags := { o_create : bool; o_append : bool; o_trunc : bool }.

(** [O_WRONLY | O_APPEND | O_CREATE], used by [New]. *)
Definition flags_append_create : OpenFlags :=
  {| o_create := true; o_append := true; o_trunc := false |}.
(** [O_RDWR], used when the rename failed. *)
Definition flags_rdwr : OpenFlags :=
  {| o_create := false; o_append := false; o_trunc := false |}.
(** [os.Create]: [O_RDWR | O_CREATE | O_TRUNC]. *)
Definition flags_create : OpenFlags :=
  {| o_create := true; o_append := false; o_trunc := true |}.

(** An [os.File] object.  Copies of a [*os.File] pointer share it: closing
    it through one copy closes it for all. *)
Record FileDesc := {
  fd_inode : nat;
  fd_open : bool;
  fd_append : bool;
  fd_pos : nat
}.

Inductive Syscall :=
| SysOpen (path : string) (fl : OpenFlags)
| SysStat (h : nat)
| SysWrite (h : nat) (msg : string)
| SysSync (h : nat)
| SysClose (h : nat)
| SysRename (oldpath newpath : string).

(** What the code cannot control: which system calls fail, what the clock
    and the call stack say, and the two library functions it calls. *)
Record Env := {
  faults : nat -> option Cause;       (* fault of the n-th system call *)
  clock : nat -> GoTime;              (* n-th reading of [time.Now] *)
  callers : nat -> Z -> option (string * Z);  (* [runtime.Caller] *)
  FormatLog : Log -> string;          (* [slogger.FormatLog] *)
  filepath_Abs : string -> string + Cause
}.

Record World := {
  dir : gmap string nat;      (* directory: path to inode *)
  inodes : gmap nat string;   (* contents, by inode *)
  next_inode : nat;           (* the inode the next new file gets *)
  fds : list FileDesc;        (* [os.File] objects, by handle *)
  trace : list (Syscall * option Cause);  (* system calls made, with their error *)
  sink : list Error;          (* calls of the error handler, oldest first *)
  ticks : nat;                (* readings of the clock so far *)
  env : Env
}.

Definition set_dir (d : gmap string nat) (w : World) : World :=
  {| dir := d; inodes := inodes w; next_inode := next_inode w; fds := fds w; trace := trace w;
     sink := sink w; ticks := ticks w; env := env w |}.
Definition set_inodes (i : gmap nat string) (w : World) : World :=
  {| dir := dir w; inodes := i; next_inode := next_inode w; fds := fds w; trace := trace w;
     sink := sink w; ticks := ticks w; env := env w |}.
Definition set_next_inode (n : nat) (w : World) : World :=
  {| dir := dir w; inodes := inodes w; next_inode := n; fds := fds w;
     trace := trace w; sink := sink w; ticks := ticks w; env := env w |}.
Definition set_fds (f : list FileDesc) (w : World) : World :=
  {| dir := dir w; inodes := inodes w; next_inode := next_inode w; fds := f; trace := trace w;
     sink := sink w; ticks := ticks w; env := env w |}.
Definition set_trace (t : list (Syscall * option Cause)) (w : World) : World :=
  {| dir := dir w; inodes := inodes w; next_inode := next_inode w; fds := fds w; trace := t;
     sink := sink w; ticks := ticks w; env := env w |}.
Definition set_sink (s : list Error) (w : World) : World :=
  {| dir := dir w; inodes := inodes w; next_inode := next_inode w; fds := fds w; trace := trace w;
     sink := s; ticks := ticks w; env := env w |}.
Definition set_ticks (n : nat) (w : World) : World :=
  {| dir := dir w; inodes := inodes w; next_inode := next_inode w; fds := fds w; trace := trace w;
     sink := sink w; ticks := n; env := env w |}.

(** The fault the environment holds for the next system call. *)
Definition fault (w : World) : option Cause :=
  faults (env w) (length (trace w)).

Definition logcall (c : Syscall) (r : option Cause) (w : World) : World :=
  set_trace (trace w ++ [(c, r)]) w.

Definition set_fd_open (b : bool) (d : FileDesc) : FileDesc :=
  {| fd_inode := fd_inode d; fd_open := b; fd_append := fd_append d;
     fd_pos := fd_pos d |}.
Definition set_fd_pos (p : nat) (d : FileDesc) : FileDesc :=
  {| fd_inode := fd_inode d; fd_open := fd_open d; fd_append := fd_append d;
     fd_pos := p |}.

Fixpoint zeros (n : nat) : string :=
  match n with O => EmptyString | S n' => String Ascii.zero (zeros n') end.

(** Overwrite [old] with [msg] at offset [pos], extending the file when the
    write ends past its end (and filling a gap before [pos] with zeros). *)
Definition write_at (pos : nat) (msg old : string) : string :=
  let len := String.length old in
  let head := String.append (substring 0 pos old) (zeros (pos - len)) in
  let e := (pos + String.length msg)%nat in
  String.append head (String.append msg (substring e (len - e) old)).

Definition os_OpenFile (path : string) (fl : OpenFlags) (w : World)
  : (nat + Cause) * World :=
  match fault w with
  | Some e => (inr e, logcall (SysOpen path fl) (Some e) w)
  | None =>
      let h := length (fds w) in
      let mk i := {| fd_inode := i; fd_open := true;
                     fd_append := o_append fl; fd_pos := 0%nat |} in
      match dir w !! path with
      | Some i =>
          let w1 := if o_trunc fl then set_inodes (<[i := ""]> (inodes w)) w
                    else w in
          (inl h, logcall (SysOpen path fl) None
                    (set_fds (fds w1 ++ [mk i]) w1))
      | None =>
          if o_create fl then
            let i := next_inode w in
            (inl h, logcall (SysOpen path fl) None
                      (set_fds (fds w ++ [mk i])
                         (set_next_inode (S i)
                            (set_inodes (<[i := ""]> (inodes w))
                               (set_dir (<[path := i]> (dir w)) w)))))
          else (inr ErrNotExist, logcall (SysOpen path fl) (Some ErrNotExist) w)
      end
  end.

(** The handle's state: [Some d] when [h] is an open file. *)
Definition open_fd (w : World) (h : nat) : FileDesc + Cause :=
  match fds w !! h with
  | Some d => if fd_open d then inl d else inr ErrClosed
  | None => inr ErrInvalid
  end.

Definition os_Stat (h : nat) (w : World) : (Z + Cause) * World :=
  match open_fd w h with
  | inr e => (inr e, logcall (SysStat h) (Some e) w)
  | inl d =>
      match fault w with
      | Some e => (inr e, logcall (SysStat h) (Some e) w)
      | None =>
          (inl (Z.of_nat (String.length (default "" (inodes w !! fd_inode d)))),
           logcall (SysStat h) None w)
      end
  end.

(** [file.WriteString]: a write that fails transfers nothing. *)
Definition os_WriteString (h : nat) (msg : string) (w : World)
  : (Z + Cause) * World :=
  match open_fd w h with
  | inr e => (inr e, logcall (SysWrite h msg) (Some e) w)
  | inl d =>
      match fault w with
      | Some e => (inr e, logcall (SysWrite h msg) (Some e) w)
      | None =>
          let old := default "" (inodes w !! fd_inode d) in
          let pos := if fd_append d then String.length old else fd_pos d in
          let d' := set_fd_pos (pos + String.length msg) d in
          (inl (Z.of_nat (String.length msg)),
           logcall (SysWrite h msg) None
             (set_fds (<[h := d']> (fds w))
                (set_inodes (<[fd_inode d := write_at pos msg old]> (inodes w)) w)))
      end
  end.

Definition os_Sync (h : nat) (w : World) : option Cause * World :=
  match open_fd w h with
  | inr e => (Some e, logcall (SysSync h) (Some e) w)
  | inl _ => (fault w, logcall (SysSync h) (fault w) w)
  end.

(** [file.Close]: the handle is closed whatever the call reports. *)
Definition os_Close (h : nat) (w : World) : option Cause * World :=
  match open_fd w h with
  | inr e => (Some e, logcall (SysClose h) (Some e) w)
  | inl d =>
      (fault w, logcall (SysClose h) (fault w)
                  (set_fds (<[h := set_fd_open false d]> (fds w)) w))
  end.

Definition os_Rename (oldpath newpath : string) (w : World)
  : option Cause * World :=
  match fault w with
  | Some e => (Some e, logcall (SysRename oldpath newpath) (Some e) w)
  | None =>
      match dir w !! oldpath with
      | None => (Some ErrNotExist,
                 logcall (SysRename oldpath newpath) (Some ErrNotExist) w)
      | Some i =>
          (None, logcall (SysRename oldpath newpath) None
                   (set_dir (<[newpath := i]> (delete oldpath (dir w))) w))
      end
  end.

(** The contents of the file at [path], if there is one. *)
Definition file_at (w : World) (path : string) : option string :=
  i ← dir w !! path; inodes w !! i.

(** ** The appender (lines 15-24) *)

(** [appendCh] and [syncCh] are channels: every copy of the struct refers to
    the same two queues, which live in the state of the running system
    ([Sys], below).  [errHandler] is the caller's callback; [New] replaces a
    nil one by a no-op, so it can always be called, and what it is called
    with is recorded in the world's [sink]. *)
Record RollingFileAppender := {
  MaxFileSize : Z;                        (* uint64 *)
  file : option nat;                      (* *os.File; nil is [None] *)
  absPath : string;
  curFileSize : Z;                        (* uint64 *)
  headerGenerator : option (unit -> string)
}.

(** Do not set this to zero or deadlocks might occur. *)
Definition APPEND_CHANNEL_SIZE : Z := 4096.

Definition wrap64 (z : Z) : Z := z mod 2 ^ 64.

Definition with_file (f : option nat) (a : RollingFileAppender) :=
  {| MaxFileSize := MaxFileSize a; file := f; absPath := absPath a;
     curFileSize := curFileSize a; headerGenerator := headerGenerator a |}.
Definition with_curFileSize (z : Z) (a : RollingFileAppender) :=
  {| MaxFileSize := MaxFileSize a; file := file a; absPath := absPath a;
     curFileSize := z; headerGenerator := headerGenerator a |}.

(** ** Method bodies as computations

    A method body runs on a frame: its receiver [self] and the world.  Every
    method of the package is declared on a value receiver
    ([func (self RollingFileAppender) ...]), so a call copies the caller's
    struct into the callee's frame and the callee's assignments to
    [self.file] and [self.curFileSize] end with its frame: [call]. *)

Record Frame := { self : RollingFileAppender; world : World }.

Definition M (A : Type) : Type := Frame -> A * Frame.

Definition ret {A} (a : A) : M A := fun fr => (a, fr).
Definition bind {A B} (k : A -> M B) (m : M A) : M B :=
  fun fr => let '(a, fr') := m fr in k a fr'.

(** [x ← m; k] and [m;; k] are stdpp's notations for [bind]. *)
#[global] Instance M_ret : MRet M := @ret.
#[global] Instance M_bind : MBind M := @bind.

(** Read the receiver. *)
Definition this : M RollingFileAppender := fun fr => (self fr, fr).
(** [self.file = f] *)
Definition assign_file (f : option nat) : M unit :=
  fun fr => (tt, {| self := with_file f (self fr); world := world fr |}).
(** [self.curFileSize = z] *)
Definition assign_curFileSize (z : Z) : M unit :=
  fun fr => (tt, {| self := with_curFileSize z (self fr); world := world fr |}).
(** An operation on the world alone. *)
Definition os {A} (op : World -> A * World) : M A :=
  fun fr => let '(a, w) := op (world fr) in (a, {| self := self fr; world := w |}).
(** [self.errHandler(e)] *)
Definition errHandler (e : Error) : M unit :=
  os (fun w => (tt, set_sink (sink w ++ [e]) w)).
(** [self.m(...)] for a method [m] with a value receiver: the body runs on a
    copy of the receiver, and the copy is dropped when it returns. *)
Definition call {A} (m : M A) : M A :=
  fun fr => let '(a, fr') := m fr in (a, {| self := self fr; world := world fr' |}).

(** Methods of a possibly nil [*os.File]. *)
Definition File_Close (f : option nat) : M (option Cause) :=
  match f with
  | Some h => os (os_Close h)
  | None => ret (Some ErrInvalid)
  end.
Definition File_Sync (f : option nat) : M (option Cause) :=
  match f with
  | Some h => os (os_Sync h)
  | None => ret (Some ErrInvalid)
  end.

(** ** Helpers (lines 96-136) *)

(** [%d] and [%02d] of [fmt.Sprintf]. *)
Definition fmt_d (z : Z) : string := NilZero.string_of_int (Z.to_int z).
Definition fmt_02d (z : Z) : string :=
  let s := fmt_d z in
  if (String.length s <? 2)%nat then String.append "0" s else s.

Definition simpleLog (prefix : string) (level : Level) (callerSkip : Z)
    (messageFmt : string) (args : list Arg) (w : World) : Log * World :=
  let n := ticks w in
  let fl := match callers (env w) n callerSkip with
            | Some fl => fl
            | None => ("UNKNOWN_FILE", -1)
            end in
  ({| Prefix := prefix; LogLevel := level; Filename := fl.1; Line := fl.2;
      Timestamp := clock (env w) n; MessageFmt := messageFmt; Args := args |},
   set_ticks (S n) w).

Definition internalWarningLog (messageFmt : string) (args : list Arg)
  : World -> Log * World :=
  simpleLog "RollingFileAppender" WARN 3 messageFmt args.

Definition fullWarningLog : World -> Log * World :=
  internalWarningLog
    "appendCh is full. You may want to increase APPEND_CHANNEL_SIZE (currently %d)."
    [ArgInt APPEND_CHANNEL_SIZE].

Definition newRotatedFilename (baseFilename : string) (w : World)
  : string * World :=
  let now := clock (env w) (ticks w) in
  (String.concat ""
     [baseFilename; "."; fmt_d (Year now); "-"; fmt_02d (Month now); "-";
      fmt_02d (Day now); "T"; fmt_02d (Hour now); "-"; fmt_02d (Minute now);
      "-"; fmt_02d (Second now)],
   set_ticks (S (ticks w)) w).

(** ** The write path and rotation (lines 161-242)

    [reallyAppend] calls [rotate], [rotate] calls [logHeader], and
    [logHeader] calls [reallyAppend] again.  The bodies are written first
    over the method they call ([_with]); the methods themselves follow, and
    [rotate_eq], [logHeader_eq] show that they satisfy the equations of the
    source. *)

Definition reallyAppend_with (rotate : M unit) (log : Log) (trackSize : bool)
  : M unit :=
  s ← this;
  match file s with
  | None => errHandler NoFileError
  | Some f =>
      msg ← os (fun w => (FormatLog (env w) log, w));
      r ← os (os_WriteString f msg);
      match r with
      | inr err => errHandler (WriteError (absPath s) err)
      | inl n =>
          if trackSize then
            s ← this;
            assign_curFileSize (wrap64 (curFileSize s + n));;
            s ← this;
            if (MaxFileSize s <? curFileSize s)%Z then call rotate else ret tt
          else ret tt
      end
  end.

Definition logHeader_with (rotate : M unit) : M unit :=
  s ← this;
  match headerGenerator s with
  | Some gen =>
      let header := gen tt in
      log ← os (simpleLog "header" INFO 3 header []);
      (* do not count header as part of size towards rotation in order to
         prevent infinite rotation when max size is smaller than header *)
      call (reallyAppend_with rotate log false)
  | None => ret tt
  end.

(** returns true on success, false otherwise *)
Definition renameLogFile (oldFilename newFilename : string) : M bool :=
  err ← os (os_Rename oldFilename newFilename);
  match err with
  | Some e =>
      errHandler (RenameError oldFilename newFilename e);;
      r ← os (os_OpenFile oldFilename flags_rdwr);
      match r with
      | inl f => assign_file (Some f)
      | inr e' =>
          assign_curFileSize 0;;
          assign_file None;;
          errHandler (OpenError oldFilename e')
      end;;
      ret false
  | None =>
      assign_curFileSize 0;;
      ret true
  end.

Definition rotate_with (rotate : M unit) : M unit :=
  s ← this;
  (* close current log *)
  err ← File_Close (file s);
  match err with
  | Some e => errHandler (CloseError (absPath s) e)
  | None => ret tt
  end;;
  (* rename old log *)
  newname ← os (newRotatedFilename (absPath s));
  ok ← call (renameLogFile (absPath s) newname);
  if negb ok then ret tt
  else
    (* create new log *)
    r ← os (os_OpenFile (absPath s) flags_create);
    match r with
    | inr e =>
        assign_file None;;
        errHandler (OpenError (absPath s) e)
    | inl f =>
        assign_file (Some f);;
        call (logHeader_with rotate)
    end.

(** The header is written with [trackSize = false], a path on which
    [reallyAppend] never reaches [rotate]: the inner [rotate] of the header
    write can be anything, and the recursion stops here. *)
Definition rotate : M unit := rotate_with (ret tt).
Definition logHeader : M unit := logHeader_with rotate.
Definition reallyAppend (log : Log) (trackSize : bool) : M unit :=
  reallyAppend_with rotate log trackSize.

(** ** Construction (lines 26-66)

    [New] returns the struct behind the pointer it hands out.  The goroutine
    it starts ([go appender.listenForAppends()]) receives a copy of that
    struct as its receiver; it has nothing to do before [New] returns.
    The [errHandler] argument is not a parameter here: whatever the caller
    passes (nil included, which [New] replaces by a no-op), the calls made
    to it are what the world's [sink] records. *)
Definition New (filename : string) (maxFileSize : Z)
    (headerGenerator : option (unit -> string)) (w : World)
  : (RollingFileAppender + Cause) * World :=
  match filepath_Abs (env w) filename with
  | inr e => (inr e, w)
  | inl absPath =>
      let '(r, w1) := os_OpenFile absPath flags_append_create w in
      match r with
      | inr e => (inr e, w1)
      | inl f =>
          let '(r2, w2) := os_Stat f w1 in
          match r2 with
          | inr e => (inr e, w2)
          | inl size =>
              let appender :=
                {| MaxFileSize := maxFileSize; file := Some f;
                   absPath := absPath; curFileSize := wrap64 size;
                   headerGenerator := headerGenerator |} in
              let '(_, fr) := call logHeader {| self := appender; world := w2 |} in
              (inl appender, world fr)
          end
      end
  end.

(** ** The running system

    Client goroutines call [Append] and [Close] on the pointer [New]
    returned; one goroutine runs [listenForAppends].  They share the two
    channels and the world.  A state of the system records where each
    goroutine stands; a step is one goroutine moving, or two of them meeting
    on an unbuffered channel.  The writer handles a record ([reallyAppend],
    with the rotation it may set off) in one step.  [Close] does not wait
    for a record the writer is handling: the system in which a client may
    move between two operations of the writer is [fstep], further down. *)

Inductive Call := CallAppend (log : Log) | CallClose.

(** Where a client stands inside [Append] (lines 68-78) or [Close]
    (lines 80-83, 244-250). *)
Inductive ClientPc :=
| Idle                                  (* between two calls *)
| SendWarning (warning log : Log)       (* self.appendCh <- fullWarningLog() *)
| SendLog (log : Log)                   (* self.appendCh <- log *)
| SyncSend                              (* self.syncCh <- replyCh *)
| ReplyRecv                             (* <-replyCh *)
| FileClose.                            (* return self.file.Close() *)

Record Client := {
  pc : ClientPc;
  todo : list Call;                 (* the calls it has still to make *)
  returned : list (option Cause)    (* what its calls returned, oldest first *)
}.

(** Where the writer stands inside [listenForAppends] (lines 138-159). *)
Inductive ListenerPc :=
| Loop (needsSync : bool)           (* at the top of the [for] *)
| ReplyEval (t : nat)               (* about to evaluate len(self.appendCh) <= 0 *)
| ReplySend (t : nat) (b : bool).   (* syncReplyCh <- b *)

Record Sys := {
  os_world : World;
  appendCh : list Log;              (* the buffered channel, oldest first *)
  sent : list (nat * Log);          (* every send on appendCh so far, by client *)
  appender : RollingFileAppender;   (* the struct behind the pointer of [New] *)
  listener : RollingFileAppender;   (* the receiver of [listenForAppends] *)
  listener_pc : ListenerPc;
  clients : list Client
}.

Definition has_room (q : list Log) : bool :=
  (Z.of_nat (length q) <? APPEND_CHANNEL_SIZE)%Z.

(** One move of a goroutine inside [Append log]: the queue, the world and
    the place it reaches, or [None] when it has to wait. *)
Inductive AppendPc :=
| AtSelect
| AtSendWarning (warning : Log)
| AtSendLog
| AppendReturned (err : option Cause).

Definition Append_step (log : Log) (at_ : AppendPc) (q : list Log) (w : World)
  : option (AppendPc * list Log * World) :=
  match at_ with
  | AtSelect =>
      if has_room q then Some (AppendReturned None, q ++ [log], w)
      else
        (* channel is full. log a warning *)
        let '(warning, w') := fullWarningLog w in
        Some (AtSendWarning warning, q, w')
  | AtSendWarning warning =>
      if has_room q then Some (AtSendLog, q ++ [warning], w) else None
  | AtSendLog =>
      if has_room q then Some (AppendReturned None, q ++ [log], w) else None
  | AppendReturned _ => None
  end.

(** [Close], after [waitUntilEmpty] has returned. *)
Definition Close_file : M (option Cause) :=
  s ← this; File_Close (file s).

Inductive Label :=
| Move (t : nat)     (* client [t] moves on its own *)
| Recv               (* the writer receives a record from appendCh *)
| Default            (* the writer's select takes its default branch *)
| Sync (t : nat)     (* client [t] and the writer meet on syncCh *)
| EvalLen            (* the writer evaluates len(self.appendCh) <= 0 *)
| Reply.             (* the writer and the waiting client meet on replyCh *)

Definition with_clients (cs : list Client) (s : Sys) : Sys :=
  {| os_world := os_world s; appendCh := appendCh s; sent := sent s;
     appender := appender s; listener := listener s;
     listener_pc := listener_pc s; clients := cs |}.
Definition with_listener_pc (p : ListenerPc) (s : Sys) : Sys :=
  {| os_world := os_world s; appendCh := appendCh s; sent := sent s;
     appender := appender s; listener := listener s;
     listener_pc := p; clients := clients s |}.

Definition set_pc (p : ClientPc) (c : Client) : Client :=
  {| pc := p; todo := todo c; returned := returned c |}.
Definition ret_to (r : option Cause) (c : Client) : Client :=
  {| pc := Idle; todo := todo c; returned := returned c ++ [r] |}.

(** The client's side of a move inside [Append]. *)
Definition append_move (t : nat) (c : Client) (log : Log) (at_ : AppendPc)
    (s : Sys) : option Sys :=
  match Append_step log at_ (appendCh s) (os_world s) with
  | None => None
  | Some (at', q', w') =>
      let c' := match at' with
                | AtSelect => c
                | AtSendWarning warning => set_pc (SendWarning warning log) c
                | AtSendLog => set_pc (SendLog log) c
                | AppendReturned r => ret_to r c
                end in
      Some {| os_world := w'; appendCh := q';
              sent := sent s ++ map (pair t) (drop (length (appendCh s)) q');
              appender := appender s; listener := listener s;
              listener_pc := listener_pc s;
              clients := <[t := c']> (clients s) |}
  end.

Definition pop_call (c : Client) : Client :=
  {| pc := pc c; todo := tail (todo c); returned := returned c |}.

Definition client_move (t : nat) (s : Sys) : option Sys :=
  c ← clients s !! t;
  match pc c with
  | Idle =>
      match todo c with
      | [] => None
      | CallAppend log :: _ => append_move t (pop_call c) log AtSelect s
      | CallClose :: _ =>
          (* waitUntilEmpty: replyCh := make(chan bool) *)
          Some (with_clients (<[t := set_pc SyncSend (pop_call c)]> (clients s)) s)
      end
  | SendWarning warning log => append_move t c log (AtSendWarning warning) s
  | SendLog log => append_move t c log AtSendLog s
  | SyncSend | ReplyRecv => None
  | FileClose =>
      let '(r, fr) := call Close_file {| self := appender s; world := os_world s |} in
      Some {| os_world := world fr; appendCh := appendCh s; sent := sent s;
              appender := self fr; listener := listener s;
              listener_pc := listener_pc s;
              clients := <[t := ret_to r c]> (clients s) |}
  end.

(** The writer runs a method body in the frame of [listenForAppends]. *)
Definition listener_runs {A} (m : M A) (p : ListenerPc) (q : list Log) (s : Sys)
  : Sys :=
  let '(_, fr) := m {| self := listener s; world := os_world s |} in
  {| os_world := world fr; appendCh := q; sent := sent s;
     appender := appender s; listener := self fr;
     listener_pc := p; clients := clients s |}.

Definition step (l : Label) (s : Sys) : option Sys :=
  match l, listener_pc s with
  | Move t, _ => client_move t s
  | Recv, Loop _ =>
      match appendCh s with
      | log :: q => Some (listener_runs (call (reallyAppend log true)) (Loop true) q s)
      | [] => None
      end
  | Default, Loop true =>
      match appendCh s with
      | [] => Some (listener_runs (f ← this; File_Sync (file f)) (Loop false) [] s)
      | _ :: _ => None
      end
  | Sync t, Loop false =>
      c ← clients s !! t;
      match pc c with
      | SyncSend =>
          Some (with_listener_pc (ReplyEval t)
                  (with_clients (<[t := set_pc ReplyRecv c]> (clients s)) s))
      | _ => None
      end
  | EvalLen, ReplyEval t =>
      Some (with_listener_pc
              (ReplySend t (Z.of_nat (length (appendCh s)) <=? 0)%Z) s)
  | Reply, ReplySend t b =>
      c ← clients s !! t;
      match pc c with
      | ReplyRecv =>
          Some (with_listener_pc (Loop false)
                  (with_clients
                     (<[t := set_pc (if b then FileClose else SyncSend) c]>
                        (clients s)) s))
      | _ => None
      end
  | _, _ => None
  end.

Fixpoint run (ls : list Label) (s : Sys) : option Sys :=
  match ls with
  | [] => Some s
  | l :: ls' => s' ← step l s; run ls' s'
  end.

(** The system right after [New] has returned to the goroutine that will
    hand the pointer to the clients. *)
Definition start (filename : string) (maxFileSize : Z)
    (headerGenerator : option (unit -> string)) (programs : list (list Call))
    (w : World) : option Sys :=
  match New filename maxFileSize headerGenerator w with
  | (inl a, w') =>
      Some {| os_world := w'; appendCh := []; sent := [];
              appender := a; listener := a; listener_pc := Loop false;
              clients := map (fun p => {| pc := Idle; todo := p; returned := [] |})
                           programs |}
  | (inr _, _) => None
  end.

(** ** Vocabulary of the statements *)

Definition res_err {A} (r : A + Cause) : option Cause :=
  match r with inl _ => None | inr e => Some e end.

(** A handle that is closed in [w] is the same closed handle in [w']. *)
Definition keeps_closed (w w' : World) : Prop :=
  forall (h : nat) (d : FileDesc),
    fds w !! h = Some d -> fd_open d = false -> fds w' !! h = Some d.

(** The call [c] ended with error [e]: it is recorded as such, and the
    error handler, the clock and the environment were left alone. *)
Record effect (c : Syscall) (e : option Cause) (w w' : World) : Prop := {
  eff_trace : trace w' = trace w ++ [(c, e)];
  eff_sink : sink w' = sink w;
  eff_ticks : ticks w' = ticks w;
  eff_env : env w' = env w;
  eff_closed : keeps_closed w w'
}.

(** The error the writer reports for a system call that failed, if it
    reports one: the errors of [Stat] and [Sync] are not reported.  [path]
    is the appender's path, which a write or close error carries. *)
Definition error_of_call (path : string) (c : Syscall * option Cause)
  : option Error :=
  match c with
  | (SysWrite _ _, Some e) => Some (WriteError path e)
  | (SysClose _, Some e) => Some (CloseError path e)
  | (SysRename o n, Some e) => Some (RenameError o n e)
  | (SysOpen p _, Some e) => Some (OpenError p e)
  | _ => None
  end.

(** The listener's file handle is closed. *)
Definition dead (s : Sys) (h : nat) (d : FileDesc) : Prop :=
  file (listener s) = Some h /\ fds (os_world s) !! h = Some d /\ fd_open d = false.

(** Between [w] and [w'] every failed system call that the writer reports
    was reported, in order, and nothing else was: the new entries of the
    sink are the errors of the new entries of the trace. *)
Definition reports (path : string) (w w' : World) : Prop :=
  exists calls, trace w' = trace w ++ calls
    /\ sink w' = sink w ++ omap (error_of_call path) calls.

#[global] Instance Label_eq_dec : EqDecision Label.
Proof. solve_decision. Defined.

(** A client that waits inside [Append] for room in the queue. *)
Definition in_append (c : Client) : Prop :=
  match pc c with SendWarning _ _ | SendLog _ => True | _ => False end.

(** The header record [logHeader] builds in world [w], and its text. *)
Definition header_of (gen : unit -> string) (w : World) : Log :=
  (simpleLog "header" INFO 3 (gen tt) [] w).1.
Definition header_text (gen : unit -> string) (w : World) : string :=
  FormatLog (env w) (header_of gen w).

(** The system calls made between [w] and [w']. *)
Definition new_calls (w w' : World) : list (Syscall * option Cause) :=
  drop (length (trace w)) (trace w').

(** ** Concrete worlds, used to run the code *)

(** No system call fails, the clock stands at 2013-04-05 06:07:08, the
    call stack is unknown, a record is rendered as its message, and every
    path is already absolute. *)
Definition quiet_env : Env :=
  {| faults := fun _ => None;
     clock := fun _ => {| Year := 2013; Month := 4; Day := 5;
                          Hour := 6; Minute := 7; Second := 8 |};
     callers := fun _ _ => None;
     FormatLog := MessageFmt;
     filepath_Abs := inl |}.

(** As [quiet_env], but the system call number [n] fails. *)
Definition failing_env (n : nat) (e : Cause) : Env :=
  {| faults := fun k => if (k =? n)%nat then Some e else None;
     clock := clock quiet_env; callers := callers quiet_env;
     FormatLog := FormatLog quiet_env; filepath_Abs := filepath_Abs quiet_env |}.

(** An empty file system. *)
Definition empty_world (e : Env) : World :=
  {| dir := ∅; inodes := ∅; next_inode := 0; fds := []; trace := [];
     sink := []; ticks := 0; env := e |}.

(** A file system that holds one file. *)
Definition world_with_file (e : Env) (path contents : string) : World :=
  {| dir := {[ path := 0%nat ]}; inodes := {[ 0%nat := contents ]};
     next_inode := 1; fds := []; trace := []; sink := []; ticks := 0;
     env := e |}.

Definition record (msg : string) : Log :=
  {| Prefix := "test"; LogLevel := INFO; Filename := "main.go"; Line := 1;
     Timestamp := clock quiet_env 0; MessageFmt := msg; Args := [] |}.

(** A struct with a nil file, as the zero value has. *)
Definition no_file_appender : RollingFileAppender :=
  {| MaxFileSize := 10; file := None; absPath := "/log"; curFileSize := 7;
     headerGenerator := None |}.

(** A system with no client, as a default where one is needed. *)
Definition no_clients (a : RollingFileAppender) (w : World) : Sys :=
  {| os_world := w; appendCh := []; sent := []; appender := a; listener := a;
     listener_pc := Loop false; clients := [] |}.

(** [New] on [filename] in world [w], then the clients' programs; the
    system with no client and no file when [New] fails. *)
Definition booted (filename : string) (maxFileSize : Z)
    (headerGenerator : option (unit -> string)) (programs : list (list Call))
    (w : World) : Sys :=
  default (no_clients no_file_appender w)
    (start filename maxFileSize headerGenerator programs w).

Definition after (ls : list Label) (s : Sys) : Sys := default s (run ls s).

(** One client appends two records and closes; the first record alone
    exceeds the maximal size of 3 bytes. *)
Definition two_records : Sys :=
  booted "/log" 3 None
    [[CallAppend (record "hello;"); CallAppend (record "second;"); CallClose]]
    (empty_world quiet_env).

Definition two_records_schedule : list Label :=
  [Move 0; Move 0; Move 0; Recv; Recv; Default; Sync 0; EvalLen; Reply; Move 0]%nat.

(** Three records of six bytes each, under a maximal size of 10. *)
Definition three_records : Sys :=
  booted "/log" 10 None
    [[CallAppend (record "first;"); CallAppend (record "secnd;");
      CallAppend (record "third;"); CallClose]]
    (empty_world quiet_env).

Definition three_records_schedule : list Label :=
  [Move 0; Move 0; Move 0; Move 0; Recv; Recv; Recv; Default;
   Sync 0; EvalLen; Reply; Move 0]%nat.

(** The file exists and holds four bytes; the maximal size is 5. *)
Definition grown_file : Sys :=
  booted "/log" 5 None [[CallAppend (record "hello;")]]
    (world_with_file quiet_env "/log" "abcd").

(** The frame of the writer loop in [grown_file]. *)
Definition grown_frame : Frame :=
  {| self := listener grown_file; world := os_world grown_file |}.

(** As [two_records], but the rename of the rotation (system call 4) fails. *)
Definition rename_fails : Sys :=
  booted "/log" 3 None
    [[CallAppend (record "hello;"); CallAppend (record "second;"); CallClose]]
    (empty_world (failing_env 4 (ErrInjected 1))).

(** A client closes the appender and appends afterwards. *)
Definition close_then_append : Sys :=
  booted "/log" 100 None [[CallClose; CallAppend (record "late;")]]
    (empty_world quiet_env).

Definition close_then_append_schedule : list Label :=
  [Move 0; Sync 0; EvalLen; Reply; Move 0; Move 0; Recv]%nat.

(** Client 1 has filled the queue; client 0 is about to append. *)
Definition full_queue : Sys :=
  let s := booted "/log" 1000000 None [[CallAppend (record "overflow;")]; []]
             (empty_world quiet_env) in
  {| os_world := os_world s;
     appendCh := replicate 4096 (record "x;");
     sent := replicate 4096 (1%nat, record "x;");
     appender := appender s; listener := listener s;
     listener_pc := listener_pc s; clients := clients s |}.

Definition full_queue_schedule : list Label :=
  [Move 0; Recv; Move 0; Recv; Move 0]%nat.

(** A header of seven bytes under a maximal size of 3. *)
Definition header_frame : Frame :=
  {| self := {| MaxFileSize := 3; file := Some 0%nat; absPath := "/log";
                curFileSize := 0; headerGenerator := Some (fun _ => "HEADER;") |};
     world := os_world (booted "/log" 3 None [] (empty_world quiet_env)) |}.

Definition with_header : Sys :=
  booted "/log" 3 (Some (fun _ => "HEADER;")) [[CallAppend (record "hello;")]]
    (empty_world quiet_env).

(** * Further definitions *)

(** ** The texts of the errors (lines 257-330)

    The [Error()] methods.  [cause e] stands for [self.Err.Error()], the
    text of the underlying error, which the [os] package produces. *)
Definition Error_string (cause : Cause -> string) (e : Error) : string :=
  match e with
  | CloseError f err =>
      "rolling_file_appender: Failed to close " +:+ f +:+ ": " +:+ cause err
  | NoFileError => "rolling_file_appender: No log file to write to"
  | OpenError f err =>
      "rolling_file_appender: Failed to open " +:+ f +:+ ": " +:+ cause err
  | RenameError o n err =>
      "rolling_file_appender: Failed to rename " +:+ o +:+ " to " +:+ n +:+ ": "
        +:+ cause err
  | WriteError f err =>
      "rolling_file_appender: Failed to write to " +:+ f +:+ ": " +:+ cause err
  end.

(** ** Calendar time

    What [time.Time] guarantees about the fields that [newRotatedFilename]
    prints with [%02d]. *)
Definition valid_time (t : GoTime) : Prop :=
  1 <= Month t <= 12 /\ 1 <= Day t <= 31 /\ 0 <= Hour t <= 23
  /\ 0 <= Minute t <= 59 /\ 0 <= Second t <= 59.

(** ** What [New] adds to the file

    The header, when there is a generator and the write succeeds.  [New]
    makes three system calls at most: the open, the stat and this write. *)
Definition header_written (gen : option (unit -> string)) (w : World) : string :=
  match gen, faults (env w) (length (trace w) + 2) with
  | Some g, None => header_text g w
  | _, _ => ""
  end.

(** ** Vocabulary of the further statements *)

(** What the writer puts into the file for a list of records. *)
Fixpoint rendered (e : Env) (logs : list Log) : string :=
  match logs with
  | [] => ""
  | log :: logs' => FormatLog e log +:+ rendered e logs'
  end.

(** The records the writer has taken from the queue: all that were sent,
    but for the ones that are still queued. *)
Definition received (s : Sys) : list Log :=
  take (length (sent s) - length (appendCh s)) (map snd (sent s)).

(** The writer's handle [h] is in append mode on file [i]; as long as it is
    open, the file holds [c0] followed by the records received so far, in
    the order they were sent, and the error handler has not been called
    beyond [errs]. *)
Definition in_order (e : Env) (h i : nat) (c0 : string) (errs : list Error)
    (s : Sys) : Prop :=
  env (os_world s) = e
  /\ exists done d,
       map snd (sent s) = done ++ appendCh s
       /\ fds (os_world s) !! h = Some d /\ fd_inode d = i /\ fd_append d = true
       /\ (fd_open d = true ->
           inodes (os_world s) !! i = Some (c0 +:+ rendered e done)
           /\ sink (os_world s) = errs).

(** The sends that are still in the queue, with the clients that made
    them. *)
Definition queued (s : Sys) : list (nat * Log) :=
  drop (length (sent s) - length (appendCh s)) (sent s).

(** What [waitUntilEmpty] relies on: the queue [qd] holds nothing of a
    client that has been told it is empty, or that is about to be told so,
    and the writer answers a client that waits for the answer. *)
Definition drained (qd : list (nat * Log)) (s : Sys) : Prop :=
  (forall t, listener_pc s = ReplySend t true -> forall x, (t, x) ∉ qd)
  /\ (forall t c, clients s !! t = Some c -> pc c = FileClose ->
        forall x, (t, x) ∉ qd)
  /\ (forall t, listener_pc s = ReplyEval t \/ (exists b, listener_pc s = ReplySend t b) ->
        exists c, clients s !! t = Some c /\ pc c = ReplyRecv).

(** The writer's way to the answer that lets client [t] leave
    [waitUntilEmpty]: it takes what is queued, syncs unless it has nothing
    to sync, meets the client on [syncCh], finds the queue empty and
    replies. *)
Definition drain_schedule (t : nat) (s : Sys) : list Label :=
  replicate (length (appendCh s)) Recv
  ++ match listener_pc s, appendCh s with
     | Loop false, [] => []
     | _, _ => [Default]
     end
  ++ [Sync t; EvalLen; Reply].

(** Between [w] and [w'] no handle but [h] was closed: a handle that is
    closed in [w'] is [h], or it was closed in [w] already. *)
Definition closes_only (h : nat) (w w' : World) : Prop :=
  forall (h' : nat) (d' : FileDesc),
    fds w' !! h' = Some d' -> fd_open d' = false ->
    h' = h \/ exists d, fds w !! h' = Some d /\ fd_open d = false.

(** The number of calls of [os.Rename] among [calls]: each rotation makes
    one. *)
Definition is_rename (c : Syscall * option Cause) : bool :=
  match c.1 with SysRename _ _ => true | _ => false end.
Definition renames (calls : list (Syscall * option Cause)) : nat :=
  length (List.filter is_rename calls).

(** ** Further concrete worlds *)

(** [New] with a header on a file that holds four bytes already. *)
Definition kept_file : Sys :=
  booted "/log" 5 (Some (fun _ => "HEADER;")) []
    (world_with_file quiet_env "/log" "abcd").

(** [New] on an empty file system where the stat (system call 1) fails. *)
Definition stat_fails : (RollingFileAppender + Cause) * World :=
  New "/log" 5 None (empty_world (failing_env 1 (ErrInjected 7))).

(** A file of four bytes and a maximal size of 100: two records of six
    bytes and a [Close]. *)
Definition roomy : Sys :=
  booted "/log" 100 None
    [[CallAppend (record "first;"); CallAppend (record "secnd;"); CallClose]]
    (world_with_file quiet_env "/log" "abcd").

Definition in_order_schedule : list Label :=
  [Move 0; Move 0; Recv; Move 0; Recv; Default; Sync 0; EvalLen; Reply]%nat.

(** Two clients: the first appends a record and closes, the second appends
    while the first waits for the answer of the writer. *)
Definition two_clients : Sys :=
  booted "/log" 18446744073709551615 None
    [[CallAppend (record "first;"); CallClose]; [CallAppend (record "other;")]]
    (empty_world quiet_env).

Definition two_clients_schedule : list Label :=
  [Move 0; Recv; Default; Move 0; Sync 0; EvalLen; Move 1; Reply]%nat.

(** A client that calls [Close] twice. *)
Definition closes_twice : Sys :=
  booted "/log" 100 None [[CallClose; CallClose]] (empty_world quiet_env).

Definition until_FileClose : list Label :=
  [Move 0; Sync 0; EvalLen; Reply]%nat.

(** The writer's frame on a file of four bytes, where the rename of the
    rotation (system call 3) fails. *)
Definition rename_fails_frame : Frame :=
  let s := booted "/log" 5 None []
             (world_with_file (failing_env 3 (ErrInjected 1)) "/log" "abcd") in
  {| self := listener s; world := os_world s |}.

(** Both clients have sent their record and the first has called [Close]:
    it waits to meet the writer on [syncCh]. *)
Definition waiting_to_close : Sys :=
  after [Move 0; Move 1; Move 0]%nat two_clients.

(** The writer's frame on a file of four bytes, where the create of the
    rotation (system call 4) fails. *)
Definition create_fails_frame : Frame :=
  let s := booted "/log" 5 None []
             (world_with_file (failing_env 4 (ErrInjected 2)) "/log" "abcd") in
  {| self := listener s; world := os_world s |}.

(** Three records of six bytes under a maximal size of 3: each of them
    alone exceeds it. *)
Definition three_rotations : Sys :=
  booted "/log" 3 None
    [[CallAppend (record "first;"); CallAppend (record "secnd;");
      CallAppend (record "third;")]]
    (empty_world quiet_env).

Definition three_rotations_schedule : list Label :=
  [Move 0; Move 0; Move 0; Recv; Recv; Recv]%nat.


(** ** Writes and syncs among the system calls *)

Definition is_write (c : Syscall * option Cause) : bool :=
  match c.1 with SysWrite _ _ => true | _ => false end.
Definition is_io (c : Syscall * option Cause) : bool :=
  match c.1 with SysWrite _ _ | SysSync _ => true | _ => false end.

(** The last call of [WriteString] or [Sync] among [calls], if there is
    one. *)
Definition last_io (calls : list (Syscall * option Cause))
  : option (Syscall * option Cause) :=
  last (List.filter is_io calls).

(** Every write among [calls] was made on handle [h]. *)
Definition writes_on (h : nat) (calls : list (Syscall * option Cause)) : Prop :=
  Forall (fun c => is_write c = true -> exists m r, c = (SysWrite h m, r)) calls.

(** A record of six bytes under a maximal size of 5 and a header: the
    record rotates the file, and the header is written to the new one. *)
Definition rotates_with_header : Sys :=
  booted "/log" 5 (Some (fun _ => "HEADER;"))
    [[CallAppend (record "first;"); CallClose]] (empty_world quiet_env).

(** ** The writer, one operation at a time

    Between two operations of the writer a client may move: [Close]
    (line 82) closes the file without waiting for a record the writer is
    handling.  The method bodies of the write path are given once more, as
    programs whose operations are run one by one; [exec] runs such a
    program in one go, and gives the method body back
    ([exec_reallyAppend], below). *)

(** What a method body does in one operation: it reads or assigns its copy
    of the receiver, calls the error handler, or calls into the operating
    system, the clock or the parent package. *)
Inductive Op : Type -> Type :=
| OThis : Op RollingFileAppender
| OAssignFile (f : option nat) : Op unit
| OAssignCurFileSize (z : Z) : Op unit
| OReturn (caller : RollingFileAppender) : Op unit
| OErrHandler (e : Error) : Op unit
| OFormatLog (log : Log) : Op string
| OWriteString (h : nat) (msg : string) : Op (Z + Cause)
| OClose (f : option nat) : Op (option Cause)
| ORename (oldpath newpath : string) : Op (option Cause)
| OOpenFile (path : string) (fl : OpenFlags) : Op (nat + Cause)
| ONewRotatedFilename (baseFilename : string) : Op string
| OSimpleLog (prefix : string) (level : Level) (callerSkip : Z)
    (messageFmt : string) (args : list Arg) : Op Log.

Definition run_op {X : Type} (o : Op X) : M X :=
  match o in Op X return M X with
  | OThis => this
  | OAssignFile f => assign_file f
  | OAssignCurFileSize z => assign_curFileSize z
  | OReturn caller => fun fr => (tt, {| self := caller; world := world fr |})
  | OErrHandler e => errHandler e
  | OFormatLog log => os (fun w => (FormatLog (env w) log, w))
  | OWriteString h msg => os (os_WriteString h msg)
  | OClose f => File_Close f
  | ORename oldpath newpath => os (os_Rename oldpath newpath)
  | OOpenFile path fl => os (os_OpenFile path fl)
  | ONewRotatedFilename baseFilename => os (newRotatedFilename baseFilename)
  | OSimpleLog prefix level callerSkip messageFmt args =>
      os (simpleLog prefix level callerSkip messageFmt args)
  end.

Inductive Prog (A : Type) : Type :=
| Done (a : A)
| Act {X : Type} (o : Op X) (k : X -> Prog A).
Arguments Done {A} a.
Arguments Act {A X} o k.

Fixpoint bindP {A B : Type} (k : A -> Prog B) (p : Prog A) : Prog B :=
  match p with
  | Done a => k a
  | Act o k' => Act o (fun x => bindP k (k' x))
  end.

#[global] Instance Prog_ret : MRet Prog := @Done.
#[global] Instance Prog_bind : MBind Prog := @bindP.

Definition act {X : Type} (o : Op X) : Prog X := Act o Done.

(** [self.m(...)]: the caller's copy of the receiver is back when the
    method returns. *)
Definition callP {A : Type} (p : Prog A) : Prog A :=
  caller ← act OThis; a ← p; act (OReturn caller);; mret a.

Fixpoint exec {A : Type} (p : Prog A) : M A :=
  match p with
  | Done a => ret a
  | Act o k => fun fr => let '(x, fr') := run_op o fr in exec (k x) fr'
  end.

Definition reallyAppendP_with (rotate : Prog unit) (log : Log) (trackSize : bool)
  : Prog unit :=
  s ← act OThis;
  match file s with
  | None => act (OErrHandler NoFileError)
  | Some f =>
      msg ← act (OFormatLog log);
      r ← act (OWriteString f msg);
      match r with
      | inr err => act (OErrHandler (WriteError (absPath s) err))
      | inl n =>
          if trackSize then
            s ← act OThis;
            act (OAssignCurFileSize (wrap64 (curFileSize s + n)));;
            s ← act OThis;
            if (MaxFileSize s <? curFileSize s)%Z then callP rotate else mret tt
          else mret tt
      end
  end.

Definition logHeaderP_with (rotate : Prog unit) : Prog unit :=
  s ← act OThis;
  match headerGenerator s with
  | Some gen =>
      let header := gen tt in
      log ← act (OSimpleLog "header" INFO 3 header []);
      callP (reallyAppendP_with rotate log false)
  | None => mret tt
  end.

Definition renameLogFileP (oldFilename newFilename : string) : Prog bool :=
  err ← act (ORename oldFilename newFilename);
  match err with
  | Some e =>
      act (OErrHandler (RenameError oldFilename newFilename e));;
      r ← act (OOpenFile oldFilename flags_rdwr);
      match r with
      | inl f => act (OAssignFile (Some f))
      | inr e' =>
          act (OAssignCurFileSize 0);;
          act (OAssignFile None);;
          act (OErrHandler (OpenError oldFilename e'))
      end;;
      mret false
  | None =>
      act (OAssignCurFileSize 0);;
      mret true
  end.

Definition rotateP_with (rotate : Prog unit) : Prog unit :=
  s ← act OThis;
  err ← act (OClose (file s));
  match err with
  | Some e => act (OErrHandler (CloseError (absPath s) e))
  | None => mret tt
  end;;
  newname ← act (ONewRotatedFilename (absPath s));
  ok ← callP (renameLogFileP (absPath s) newname);
  if negb ok then mret tt
  else
    r ← act (OOpenFile (absPath s) flags_create);
    match r with
    | inr e =>
        act (OAssignFile None);;
        act (OErrHandler (OpenError (absPath s) e))
    | inl f =>
        act (OAssignFile (Some f));;
        callP (logHeaderP_with rotate)
    end.

Definition rotateP : Prog unit := rotateP_with (mret tt).
Definition logHeaderP : Prog unit := logHeaderP_with rotateP.
Definition reallyAppendP (log : Log) (trackSize : bool) : Prog unit :=
  reallyAppendP_with rotateP log trackSize.

(** The running system with the writer inside [reallyAppend]: [busy] holds
    what is left of the call and the callee's copy of the receiver. *)
Record FSys := {
  coarse : Sys;
  busy : option (Prog unit * RollingFileAppender)
}.

Definition idle (s : Sys) : FSys := {| coarse := s; busy := None |}.

Definition with_os_world (w : World) (s : Sys) : Sys :=
  {| os_world := w; appendCh := appendCh s; sent := sent s;
     appender := appender s; listener := listener s;
     listener_pc := listener_pc s; clients := clients s |}.
Definition with_appendCh (q : list Log) (s : Sys) : Sys :=
  {| os_world := os_world s; appendCh := q; sent := sent s;
     appender := appender s; listener := listener s;
     listener_pc := listener_pc s; clients := clients s |}.

Inductive FLabel :=
| Coarse (l : Label)   (* a move of a client, or of the writer outside [reallyAppend] *)
| Tick.                (* the writer's next operation inside [reallyAppend] *)

(** A client moves whatever the writer does.  The writer receives a record
    and enters [reallyAppend] on a copy of its receiver; it is back in its
    loop, the copy dropped and [needsSync] set, when the call has returned.
    Its other moves are those of [step]. *)
Definition fstep (l : FLabel) (s : FSys) : option FSys :=
  match l, busy s with
  | Coarse (Move t), b =>
      s' ← client_move t (coarse s); Some {| coarse := s'; busy := b |}
  | Coarse Recv, None =>
      match listener_pc (coarse s), appendCh (coarse s) with
      | Loop _, log :: q =>
          Some {| coarse := with_appendCh q (coarse s);
                  busy := Some (reallyAppendP log true, listener (coarse s)) |}
      | _, _ => None
      end
  | Coarse l', None => s' ← step l' (coarse s); Some (idle s')
  | Coarse _, Some _ => None
  | Tick, Some (Act o k, a) =>
      let '(x, fr) := run_op o {| self := a; world := os_world (coarse s) |} in
      Some {| coarse := with_os_world (world fr) (coarse s);
              busy := Some (k x, self fr) |}
  | Tick, Some (Done _, _) =>
      Some (idle (with_listener_pc (Loop true) (coarse s)))
  | Tick, None => None
  end.

Fixpoint frun (ls : list FLabel) (s : FSys) : option FSys :=
  match ls with
  | [] => Some s
  | l :: ls' => s' ← fstep l s; frun ls' s'
  end.

(** What handling a record makes of a handle [h] that is closed, in a world
    whose environment is [e]: the writes that are refused and the errors
    that are reported, in order.  [refusal] follows the operations of a
    program that touch no file ([this], [FormatLog], a write on [h], the
    error handler); it is [None] for a program that does anything else. *)
Fixpoint refusal (h : nat) (e : Env) (a : RollingFileAppender) (p : Prog unit)
  : option (list (Syscall * option Cause) * list Error) :=
  match p with
  | Done _ => Some ([], [])
  | Act o k =>
      match o in Op X
            return (X -> Prog unit) -> option (list (Syscall * option Cause) * list Error)
      with
      | OThis => fun k => refusal h e a (k a)
      | OFormatLog log => fun k => refusal h e a (k (FormatLog e log))
      | OWriteString h' msg => fun k =>
          if (h' =? h)%nat then
            match refusal h e a (k (inr ErrClosed)) with
            | Some (ws, es) => Some ((SysWrite h msg, Some ErrClosed) :: ws, es)
            | None => None
            end
          else None
      | OErrHandler err => fun k =>
          match refusal h e a (k tt) with
          | Some (ws, es) => Some (ws, err :: es)
          | None => None
          end
      | _ => fun _ => None
      end k
  end.

(** Since the world [w0] the writer has made the writes and reports that
    [refusal] leaves out of [ws] and [es], and no file has changed. *)
Definition refusing (h : nat) (w0 : World) (ws : list (Syscall * option Cause))
    (es : list Error) (s : FSys) : Prop :=
  inodes (os_world (coarse s)) = inodes w0
  /\ dir (os_world (coarse s)) = dir w0
  /\ exists calls ws2 es1 es2,
       trace (os_world (coarse s)) = trace w0 ++ calls
       /\ ws = List.filter is_write calls ++ ws2
       /\ sink (os_world (coarse s)) = sink w0 ++ es1
       /\ es = es1 ++ es2
       /\ match busy s with
          | Some (p, a) => refusal h (env w0) a p = Some (ws2, es2)
          | None => ws2 = [] /\ es2 = []
          end.

(** ** A [Close] that overtakes the writer *)

Definition fafter (ls : list FLabel) (s : FSys) : FSys := default s (frun ls s).

(** Whether the moves [ls] can be made from [s], one after the other. *)
Definition runs (ls : list FLabel) (s : FSys) : bool :=
  match frun ls s with Some _ => true | None => false end.

(** Client 0 closes; client 1 appends a record of six bytes, which exceeds
    the maximal size of 5, and another one. *)
Definition close_overtakes : FSys :=
  idle (booted "/log" 5 (Some (fun _ => "HEADER;"))
          [[CallClose]; [CallAppend (record "first;"); CallAppend (record "late;")]]
          (empty_world quiet_env)).

(** Client 0 leaves [waitUntilEmpty] on an empty queue; client 1 appends
    and the writer writes the record. *)
Definition until_Close : list FLabel :=
  [Coarse (Move 0); Coarse (Sync 0); Coarse EvalLen; Coarse Reply;
   Coarse (Move 1); Coarse Recv; Tick; Tick; Tick]%nat.

(** Then client 0 closes the file, and the writer goes on to rotate. *)
Definition close_overtakes_schedule : list FLabel :=
  until_Close ++ [Coarse (Move 0)]%nat ++ replicate 25 Tick.
(** * Properties *)

(** ** Calls and frames *)

Lemma call_self {A} (m : M A) (fr : Frame) : self (call m fr).2 = self fr.
Proof. unfold call. destruct (m fr). reflexivity. Qed.

Lemma call_world {A} (m : M A) (fr : Frame) :
  world (call m fr).2 = world (m fr).2.
Proof. unfold call. destruct (m fr). reflexivity. Qed.

(** ** What a system call does to the world *)

Lemma keeps_closed_refl (w : World) : keeps_closed w w.
Proof. intros h d H _. exact H. Qed.

Lemma keeps_closed_trans (w1 w2 w3 : World) :
  keeps_closed w1 w2 -> keeps_closed w2 w3 -> keeps_closed w1 w3.
Proof. intros H12 H23 h d H Hc. apply H23; [apply H12|]; assumption. Qed.

Lemma open_fd_inl (w : World) (h : nat) (d : FileDesc) :
  open_fd w h = inl d -> fds w !! h = Some d /\ fd_open d = true.
Proof.
  unfold open_fd. destruct (fds w !! h) as [d'|]; [|discriminate].
  destruct (fd_open d') eqn:E; [|discriminate].
  intros [= <-]. split; [reflexivity|assumption].
Qed.

Lemma open_fd_closed (w : World) (h : nat) (d : FileDesc) :
  fds w !! h = Some d -> fd_open d = false -> open_fd w h = inr ErrClosed.
Proof. intros H1 H2. unfold open_fd. rewrite H1, H2. reflexivity. Qed.

Lemma keeps_closed_insert (w w' : World) (h : nat) (d d' : FileDesc) :
  fds w !! h = Some d -> fd_open d = true ->
  fds w' = <[h := d']> (fds w) ->
  keeps_closed w w'.
Proof.
  intros H1 H2 Hw h0 d0 H3 H4. rewrite Hw.
  destruct (decide (h = h0)) as [->|Hne].
  - rewrite H1 in H3. injection H3 as <-. congruence.
  - rewrite list_lookup_insert_ne; assumption.
Qed.

(** The handle table of the second world is, by computation, the one of the
    first. *)
Ltac same_fds := let H := fresh in intros ? ? H _; exact H.

Lemma os_OpenFile_effect path fl w r w' :
  os_OpenFile path fl w = (r, w') -> effect (SysOpen path fl) (res_err r) w w'.
Proof.
  unfold os_OpenFile. intros H.
  destruct (fault w); [injection H as <- <-; split; (reflexivity || same_fds)|].
  destruct (dir w !! path).
  - injection H as <- <-. destruct (o_trunc fl); split; try reflexivity;
      intros h d H1 _; cbn; apply lookup_app_l_Some; assumption.
  - destruct (o_create fl); injection H as <- <-; split; try reflexivity.
    + intros h d H1 _; cbn; apply lookup_app_l_Some; assumption.
    + same_fds.
Qed.

Lemma os_Stat_effect h w r w' :
  os_Stat h w = (r, w') -> effect (SysStat h) (res_err r) w w'.
Proof.
  unfold os_Stat. intros H.
  destruct (open_fd w h); [destruct (fault w)|]; injection H as <- <-;
    split; (reflexivity || same_fds).
Qed.

Lemma os_WriteString_effect h msg w r w' :
  os_WriteString h msg w = (r, w') -> effect (SysWrite h msg) (res_err r) w w'.
Proof.
  unfold os_WriteString. intros H.
  destruct (open_fd w h) as [d|] eqn:E; [destruct (fault w)|]; injection H as <- <-;
    split; try (reflexivity || same_fds).
  apply open_fd_inl in E as [E1 E2].
  eapply keeps_closed_insert; [exact E1|exact E2|reflexivity].
Qed.

Lemma os_Sync_effect h w e w' :
  os_Sync h w = (e, w') -> effect (SysSync h) e w w'.
Proof.
  unfold os_Sync. intros H.
  destruct (open_fd w h); injection H as <- <-;
    split; (reflexivity || same_fds).
Qed.

Lemma os_Close_effect h w e w' :
  os_Close h w = (e, w') -> effect (SysClose h) e w w'.
Proof.
  unfold os_Close. intros H.
  destruct (open_fd w h) as [d|] eqn:E; injection H as <- <-;
    split; try (reflexivity || same_fds).
  apply open_fd_inl in E as [E1 E2].
  eapply keeps_closed_insert; [exact E1|exact E2|reflexivity].
Qed.

Lemma os_Rename_effect o n w e w' :
  os_Rename o n w = (e, w') -> effect (SysRename o n) e w w'.
Proof.
  unfold os_Rename. intros H.
  destruct (fault w); [|destruct (dir w !! o)]; injection H as <- <-;
    split; (reflexivity || same_fds).
Qed.

(** ** The methods satisfy the equations of the source *)

Ltac unfold_m :=
  unfold Close_file, File_Close, File_Sync, errHandler in *;
  unfold mbind, M_bind, bind, mret, M_ret, ret, this, os, call,
    assign_file, assign_curFileSize in *.

(** With [trackSize = false] the write path does not depend on [rotate]. *)
Lemma reallyAppend_untracked (r1 r2 : M unit) (log : Log) (fr : Frame) :
  reallyAppend_with r1 log false fr = reallyAppend_with r2 log false fr.
Proof. reflexivity. Qed.

Lemma logHeader_with_any (r1 r2 : M unit) (fr : Frame) :
  logHeader_with r1 fr = logHeader_with r2 fr.
Proof. reflexivity. Qed.

Lemma reallyAppend_eq (log : Log) (trackSize : bool) (fr : Frame) :
  reallyAppend log trackSize fr = reallyAppend_with rotate log trackSize fr.
Proof. reflexivity. Qed.

Lemma logHeader_eq (fr : Frame) : logHeader fr = logHeader_with rotate fr.
Proof. reflexivity. Qed.

Lemma rotate_eq (fr : Frame) : rotate fr = rotate_with rotate fr.
Proof. reflexivity. Qed.

(** ** The null handle *)

Lemma reallyAppend_no_file (log : Log) (trackSize : bool) (fr : Frame) :
  file (self fr) = None ->
  reallyAppend log trackSize fr =
    (tt, {| self := self fr;
            world := set_sink (sink (world fr) ++ [NoFileError]) (world fr) |}).
Proof.
  intros H. unfold reallyAppend, reallyAppend_with. unfold_m.
  rewrite H. reflexivity.
Qed.

(** C8.  A write with a nil file handle makes no system call, reports
    [NoFileError] once, and changes nothing else: the world is the old one
    with that one report added, and the receiver is as it was.  In the
    writer loop the record leaves the queue and the loop goes on. *)
Theorem C8_null_handle_fast_fail (log : Log) (trackSize : bool) (fr : Frame) :
  file (self fr) = None ->
  reallyAppend log trackSize fr =
    (tt, {| self := self fr;
            world := set_sink (sink (world fr) ++ [NoFileError]) (world fr) |})
  /\ forall (s : Sys) (b : bool) (q : list Log),
       listener s = self fr -> os_world s = world fr ->
       listener_pc s = Loop b -> appendCh s = log :: q ->
       step Recv s =
         Some {| os_world := set_sink (sink (os_world s) ++ [NoFileError]) (os_world s);
                 appendCh := q; sent := sent s; appender := appender s;
                 listener := listener s; listener_pc := Loop true;
                 clients := clients s |}.
Proof.
  intros H. split; [apply reallyAppend_no_file; assumption|].
  intros s b q Hl Hw Hpc Hq. unfold step. rewrite Hpc, Hq.
  unfold listener_runs, call.
  rewrite reallyAppend_no_file by (cbn; rewrite Hl; assumption).
  reflexivity.
Qed.

Lemma C8_null_handle_fast_fail_witness :
  file no_file_appender = None /\
  reallyAppend (record "lost") true
    {| self := no_file_appender; world := empty_world quiet_env |} =
    (tt, {| self := no_file_appender;
            world := set_sink [NoFileError] (empty_world quiet_env) |}).
Proof.
  split; [reflexivity|].
  apply (C8_null_handle_fast_fail (record "lost") true
           {| self := no_file_appender; world := empty_world quiet_env |}).
  reflexivity.
Defined.

(** ** Value receivers *)

Lemma append_move_structs t c log a s s' :
  append_move t c log a s = Some s' ->
  listener s' = listener s /\ appender s' = appender s.
Proof.
  unfold append_move. destruct (Append_step _ _ _ _) as [[[a' q'] w']|]; [|discriminate].
  intros [= <-]. split; reflexivity.
Qed.

Lemma step_structs (l : Label) (s s' : Sys) :
  step l s = Some s' ->
  listener s' = listener s /\ appender s' = appender s.
Proof.
  destruct l as [t| | |t| |]; unfold step.
  - unfold client_move. destruct (clients s !! t) as [c|]; [|discriminate]. cbn.
    destruct (pc c).
    + destruct (todo c) as [|[log|] ?]; [discriminate| |].
      * apply append_move_structs.
      * intros [= <-]. split; reflexivity.
    + apply append_move_structs.
    + apply append_move_structs.
    + discriminate.
    + discriminate.
    + pose proof (call_self Close_file {| self := appender s; world := os_world s |}) as Hs.
      destruct (call Close_file _) as [r fr]. intros [= <-]. split; [reflexivity|exact Hs].
  - destruct (listener_pc s); try discriminate.
    destruct (appendCh s) as [|log q]; [discriminate|].
    intros [= <-]. unfold listener_runs.
    pose proof (call_self (reallyAppend log true)
                  {| self := listener s; world := os_world s |}) as Hs.
    destruct (call _ _) as [r fr]. split; [exact Hs|reflexivity].
  - destruct (listener_pc s) as [[|]| |]; try discriminate.
    destruct (appendCh s); [|discriminate].
    intros [= <-]. unfold listener_runs. unfold_m. cbn.
    destruct (file (listener s)) as [h|]; [unfold os; cbn; destruct (os_Sync _ _)|];
      split; reflexivity.
  - destruct (listener_pc s) as [[|]| |]; try discriminate.
    destruct (clients s !! t) as [c|]; [|discriminate]. cbn.
    destruct (pc c); try discriminate. intros [= <-]. split; reflexivity.
  - destruct (listener_pc s); try discriminate. intros [= <-]. split; reflexivity.
  - destruct (listener_pc s) as [| |t b]; try discriminate.
    destruct (clients s !! t) as [c|]; [|discriminate]. cbn.
    destruct (pc c); try discriminate. intros [= <-]. split; reflexivity.
Qed.

Lemma run_cons (l : Label) (ls : list Label) (s s' : Sys) :
  run (l :: ls) s = Some s' ->
  exists s1, step l s = Some s1 /\ run ls s1 = Some s'.
Proof.
  cbn. destruct (step l s) as [s1|]; [|discriminate]. cbn. eauto.
Qed.

Lemma run_structs (ls : list Label) (s s' : Sys) :
  run ls s = Some s' ->
  listener s' = listener s /\ appender s' = appender s.
Proof.
  revert s. induction ls as [|l ls IH]; intros s; cbn.
  - intros [= <-]. split; reflexivity.
  - destruct (step l s) as [s1|] eqn:E; [|discriminate]. cbn. intros H.
    apply IH in H as [H1 H2]. apply step_structs in E as [E1 E2].
    split; congruence.
Qed.

Lemma os_OpenFile_handle path fl w f w' :
  os_OpenFile path fl w = (inl f, w') -> f = length (fds w).
Proof.
  unfold os_OpenFile. destruct (fault w); [discriminate|].
  destruct (dir w !! path); [|destruct (o_create fl)]; intros [= <- <-];
    reflexivity.
Qed.

Lemma os_Rename_handles o n w e w' :
  os_Rename o n w = (e, w') -> fds w' = fds w.
Proof.
  unfold os_Rename. destruct (fault w); [|destruct (dir w !! o)];
    intros [= <- <-]; reflexivity.
Qed.

(** What [renameLogFile] assigns, in its own frame. *)
Lemma renameLogFile_assigns (o n : string) (fr : Frame) :
  if (renameLogFile o n fr).1
  then curFileSize (self (renameLogFile o n fr).2) = 0
       /\ file (self (renameLogFile o n fr).2) = file (self fr)
  else file (self (renameLogFile o n fr).2) = Some (length (fds (world fr)))
       \/ (file (self (renameLogFile o n fr).2) = None
           /\ curFileSize (self (renameLogFile o n fr).2) = 0).
Proof.
  unfold renameLogFile. unfold_m. cbn.
  destruct (os_Rename o n (world fr)) as [[e|] w1] eqn:E1; cbn.
  - apply os_Rename_handles in E1.
    match goal with |- context [os_OpenFile ?p ?fl ?w] =>
      destruct (os_OpenFile p fl w) as [[f|e'] w2] eqn:E2 end; cbn.
    + left. apply os_OpenFile_handle in E2. cbn in E2. congruence.
    + right. split; reflexivity.
  - split; reflexivity.
Qed.

(** C10.  Every method has a value receiver: whatever a write or a rotation
    assigns to [self.file] or [self.curFileSize] is assigned in the frame of
    that call ([renameLogFile] ends with the counter 0, or with the reopened
    handle, or with a nil handle, in its own frame), and the caller's struct
    is as it was when the call returns.  Over any run of the system, the
    struct the writer loop holds and the struct behind the pointer of [New]
    never change. *)
Theorem C10_value_receivers (ls : list Label) (s s' : Sys) :
  run ls s = Some s' ->
  (listener s' = listener s /\ appender s' = appender s)
  /\ (forall log trackSize fr, self (call (reallyAppend log trackSize) fr).2 = self fr)
  /\ (forall fr, self (call rotate fr).2 = self fr)
  /\ (forall o n fr,
        self (call (renameLogFile o n) fr).2 = self fr
        /\ if (renameLogFile o n fr).1
           then curFileSize (self (renameLogFile o n fr).2) = 0
                /\ file (self (renameLogFile o n fr).2) = file (self fr)
           else file (self (renameLogFile o n fr).2) = Some (length (fds (world fr)))
                \/ (file (self (renameLogFile o n fr).2) = None
                    /\ curFileSize (self (renameLogFile o n fr).2) = 0)).
Proof.
  intros H. split; [exact (run_structs ls s s' H)|].
  split; [intros; apply call_self|]. split; [intros; apply call_self|].
  intros o n fr. split; [apply call_self|apply renameLogFile_assigns].
Qed.

Lemma C10_value_receivers_witness :
  run two_records_schedule two_records = Some (after two_records_schedule two_records)
  /\ listener (after two_records_schedule two_records) = listener two_records
  /\ appender (after two_records_schedule two_records) = appender two_records.
Proof.
  split; [vm_compute; reflexivity|].
  apply (C10_value_receivers two_records_schedule two_records).
  vm_compute; reflexivity.
Defined.

(** ** The code on concrete inputs *)

(** C1.  One client appends two records and closes, with a maximal size
    that the first record exceeds.  The first write triggers a rotation,
    which closes the handle the writer loop goes on using: when [Close] has
    returned, the queue is empty, the second record is in neither file, and
    the error handler was told of a failed write. *)
Theorem C1_second_record_lost :
  start "/log" 3 None
    [[CallAppend (record "hello;"); CallAppend (record "second;"); CallClose]]
    (empty_world quiet_env) = Some two_records
  /\ run two_records_schedule two_records = Some (after two_records_schedule two_records)
  /\ clients (after two_records_schedule two_records) =
       [{| pc := Idle; todo := []; returned := [None; None; Some ErrClosed] |}]
  /\ appendCh (after two_records_schedule two_records) = []
  /\ map_to_list (dir (os_world (after two_records_schedule two_records))) =
       [("/log.2013-04-05T06-07-08", 0%nat); ("/log", 1%nat)]
  /\ map_to_list (inodes (os_world (after two_records_schedule two_records))) =
       [(1%nat, ""); (0%nat, "hello;")]
  /\ sink (os_world (after two_records_schedule two_records)) =
       [WriteError "/log" ErrClosed]
  /\ drop 2 (trace (os_world (after two_records_schedule two_records))) =
       [(SysWrite 0 "hello;", None); (SysClose 0, None);
        (SysRename "/log" "/log.2013-04-05T06-07-08", None);
        (SysOpen "/log" flags_create, None);
        (SysWrite 0 "second;", Some ErrClosed);
        (SysSync 0, Some ErrClosed); (SysClose 0, Some ErrClosed)].
Proof. vm_compute. repeat split; reflexivity. Qed.

(** C2.  Three records of six bytes under a maximal size of 10: every call
    of [reallyAppend] starts from the size the file had at construction, so
    the counter of the writer loop is still 0 after 18 bytes were written,
    and no rotation took place. *)
Theorem C2_counter_does_not_accumulate :
  start "/log" 10 None
    [[CallAppend (record "first;"); CallAppend (record "secnd;");
      CallAppend (record "third;"); CallClose]]
    (empty_world quiet_env) = Some three_records
  /\ run three_records_schedule three_records =
    Some (after three_records_schedule three_records)
  /\ curFileSize (listener (after three_records_schedule three_records)) = 0
  /\ MaxFileSize (listener (after three_records_schedule three_records)) = 10
  /\ file_at (os_world (after three_records_schedule three_records)) "/log" =
       Some "first;secnd;third;"
  /\ trace (os_world (after three_records_schedule three_records)) =
       [(SysOpen "/log" flags_append_create, None); (SysStat 0, None);
        (SysWrite 0 "first;", None); (SysWrite 0 "secnd;", None);
        (SysWrite 0 "third;", None); (SysSync 0, None); (SysClose 0, None)].
Proof. vm_compute. repeat split; reflexivity. Qed.

(** C3.  A file of four bytes, a maximal size of 5 and a record of six
    bytes: the write makes the counter of its call 10, the rotation
    succeeds, and only the frame of [renameLogFile] ever holds the counter
    0; the frames of [rotate] and [reallyAppend] end with 10 and the writer
    loop still holds 4. *)
Theorem C3_counter_not_reset_by_rotation :
  start "/log" 5 None [[CallAppend (record "hello;")]]
    (world_with_file quiet_env "/log" "abcd") = Some grown_file
  /\ curFileSize (listener grown_file) = 4
  /\ curFileSize (self (reallyAppend (record "hello;") true grown_frame).2) = 10
  /\ drop 2 (trace (world (reallyAppend (record "hello;") true grown_frame).2)) =
       [(SysWrite 0 "hello;", None); (SysClose 0, None);
        (SysRename "/log" "/log.2013-04-05T06-07-08", None);
        (SysOpen "/log" flags_create, None)]
  /\ curFileSize (self (rotate {| self := with_curFileSize 10 (listener grown_file);
                                  world := os_world grown_file |}).2) = 10
  /\ (renameLogFile "/log" "/log.1"
        {| self := with_curFileSize 10 (listener grown_file);
           world := os_world grown_file |}).1 = true
  /\ curFileSize (self (renameLogFile "/log" "/log.1"
        {| self := with_curFileSize 10 (listener grown_file);
           world := os_world grown_file |}).2) = 0
  /\ run [Move 0; Recv]%nat grown_file = Some (after [Move 0; Recv]%nat grown_file)
  /\ curFileSize (listener (after [Move 0; Recv]%nat grown_file)) = 4.
Proof. vm_compute. repeat split; reflexivity. Qed.

(** C6.  As C1, but the rename fails.  The rename error is reported and the
    original path is reopened (handle 1), but in the frame of
    [renameLogFile] only: the writer loop keeps the closed handle 0, and
    the second record is not written to the original file. *)
Theorem C6_reopened_file_not_used :
  start "/log" 3 None
    [[CallAppend (record "hello;"); CallAppend (record "second;"); CallClose]]
    (empty_world (failing_env 4 (ErrInjected 1))) = Some rename_fails
  /\ run two_records_schedule rename_fails = Some (after two_records_schedule rename_fails)
  /\ sink (os_world (after two_records_schedule rename_fails)) =
       [RenameError "/log" "/log.2013-04-05T06-07-08" (ErrInjected 1);
        WriteError "/log" ErrClosed]
  /\ drop 2 (trace (os_world (after two_records_schedule rename_fails))) =
       [(SysWrite 0 "hello;", None); (SysClose 0, None);
        (SysRename "/log" "/log.2013-04-05T06-07-08", Some (ErrInjected 1));
        (SysOpen "/log" flags_rdwr, None);
        (SysWrite 0 "second;", Some ErrClosed);
        (SysSync 0, Some ErrClosed); (SysClose 0, Some ErrClosed)]
  /\ file (listener (after two_records_schedule rename_fails)) = Some 0%nat
  /\ fds (os_world (after two_records_schedule rename_fails)) =
       [{| fd_inode := 0; fd_open := false; fd_append := true; fd_pos := 6 |};
        {| fd_inode := 0; fd_open := true; fd_append := false; fd_pos := 0 |}]
  /\ file_at (os_world (after two_records_schedule rename_fails)) "/log" =
       Some "hello;".
Proof. vm_compute. repeat split; reflexivity. Qed.

(** C7, as stated, fails: a write after [Close] is attempted on the closed
    handle and reported as a write error, not as [NoFileError]. *)
Lemma C7_counterexample :
  start "/log" 100 None [[CallClose; CallAppend (record "late;")]]
    (empty_world quiet_env) = Some close_then_append
  /\ run close_then_append_schedule close_then_append =
    Some (after close_then_append_schedule close_then_append)
  /\ clients (after close_then_append_schedule close_then_append) =
       [{| pc := Idle; todo := []; returned := [None; None] |}]
  /\ sink (os_world (after close_then_append_schedule close_then_append)) =
       [WriteError "/log" ErrClosed]
  /\ existsb IsNoFileError
       (sink (os_world (after close_then_append_schedule close_then_append))) = false
  /\ drop 2 (trace (os_world (after close_then_append_schedule close_then_append))) =
       [(SysClose 0, None); (SysWrite 0 "late;", Some ErrClosed)].
Proof. vm_compute. repeat split; reflexivity. Qed.

(** ** Once the writer's handle is closed *)

Lemma reallyAppend_closed (log : Log) (trackSize : bool) (fr : Frame)
    (h : nat) (d : FileDesc) :
  file (self fr) = Some h -> fds (world fr) !! h = Some d -> fd_open d = false ->
  reallyAppend log trackSize fr =
    (tt, {| self := self fr;
            world := set_sink (sink (world fr) ++ [WriteError (absPath (self fr)) ErrClosed])
                       (logcall (SysWrite h (FormatLog (env (world fr)) log))
                          (Some ErrClosed) (world fr)) |}).
Proof.
  intros Hf Hd Hc. unfold reallyAppend, reallyAppend_with. unfold_m.
  rewrite Hf. cbn. unfold os_WriteString.
  rewrite (open_fd_closed _ _ _ Hd Hc). reflexivity.
Qed.

Lemma os_Close_files h w e w' :
  os_Close h w = (e, w') -> inodes w' = inodes w /\ dir w' = dir w.
Proof.
  unfold os_Close. destruct (open_fd w h); intros [= <- <-]; split; reflexivity.
Qed.

Lemma os_Sync_same h w e w' :
  os_Sync h w = (e, w') ->
  inodes w' = inodes w /\ dir w' = dir w /\ fds w' = fds w.
Proof.
  unfold os_Sync. destruct (open_fd w h); intros [= <- <-]; repeat split; reflexivity.
Qed.

Lemma Append_step_world log a q w a' q' w' :
  Append_step log a q w = Some (a', q', w') ->
  inodes w' = inodes w /\ dir w' = dir w /\ fds w' = fds w
  /\ sink w' = sink w /\ trace w' = trace w /\ env w' = env w.
Proof.
  unfold Append_step. destruct a; try discriminate; destruct (has_room q);
    try discriminate; intros [= <- <- <-]; repeat split; reflexivity.
Qed.

Lemma append_move_dead t c log a s s' h d :
  dead s h d -> append_move t c log a s = Some s' ->
  dead s' h d /\ inodes (os_world s') = inodes (os_world s)
  /\ dir (os_world s') = dir (os_world s).
Proof.
  intros (Hf & Hd & Hc). unfold append_move.
  destruct (Append_step _ _ _ _) as [[[a' q'] w']|] eqn:E; [|discriminate].
  apply Append_step_world in E as (E1 & E2 & E3 & _).
  intros [= <-]. cbn. unfold dead. cbn. rewrite E3. repeat split; assumption.
Qed.

Lemma step_dead (l : Label) (s s' : Sys) (h : nat) (d : FileDesc) :
  dead s h d -> step l s = Some s' ->
  dead s' h d /\ inodes (os_world s') = inodes (os_world s)
  /\ dir (os_world s') = dir (os_world s).
Proof.
  intros Hdead. pose proof Hdead as (Hf & Hd & Hc).
  destruct l as [t| | |t| |]; unfold step.
  - unfold client_move. destruct (clients s !! t) as [c|]; [|discriminate]. cbn.
    destruct (pc c).
    + destruct (todo c) as [|[log|] ?]; [discriminate| |].
      * apply append_move_dead; assumption.
      * intros [= <-]. repeat split; assumption.
    + apply append_move_dead; assumption.
    + apply append_move_dead; assumption.
    + discriminate.
    + discriminate.
    + unfold_m. cbn. destruct (file (appender s)) as [h'|]; cbn.
      * destruct (os_Close h' (os_world s)) as [e w'] eqn:E. intros [= <-].
        pose proof (os_Close_files _ _ _ _ E) as [E1 E2].
        apply os_Close_effect in E. unfold dead. cbn.
        repeat split; try assumption. apply (eff_closed _ _ _ _ E); assumption.
      * intros [= <-]. repeat split; assumption.
  - destruct (listener_pc s); try discriminate.
    destruct (appendCh s) as [|log q]; [discriminate|].
    intros [= <-]. unfold listener_runs, call.
    rewrite (reallyAppend_closed log true _ h d) by assumption.
    repeat split; assumption.
  - destruct (listener_pc s) as [[|]| |]; try discriminate.
    destruct (appendCh s); [|discriminate].
    intros [= <-]. unfold listener_runs. unfold_m. cbn. rewrite Hf. cbn.
    destruct (os_Sync h (os_world s)) as [e w'] eqn:E.
    apply os_Sync_same in E as (E1 & E2 & E3). unfold dead. cbn.
    rewrite E3. repeat split; assumption.
  - destruct (listener_pc s) as [[|]| |]; try discriminate.
    destruct (clients s !! t) as [c|]; [|discriminate]. cbn.
    destruct (pc c); try discriminate. intros [= <-]. repeat split; assumption.
  - destruct (listener_pc s); try discriminate. intros [= <-].
    repeat split; assumption.
  - destruct (listener_pc s) as [| |t b]; try discriminate.
    destruct (clients s !! t) as [c|]; [|discriminate]. cbn.
    destruct (pc c); try discriminate. intros [= <-]. repeat split; assumption.
Qed.

Lemma run_dead (ls : list Label) (s s' : Sys) (h : nat) (d : FileDesc) :
  dead s h d -> run ls s = Some s' ->
  dead s' h d /\ inodes (os_world s') = inodes (os_world s)
  /\ dir (os_world s') = dir (os_world s).
Proof.
  revert s. induction ls as [|l ls IH]; intros s Hd; cbn.
  - intros [= <-]. split; [assumption|split; reflexivity].
  - destruct (step l s) as [s1|] eqn:E; [|discriminate]. cbn. intros H.
    destruct (step_dead _ _ _ _ _ Hd E) as (H1 & H2 & H3).
    destruct (IH _ H1 H) as (H4 & H5 & H6).
    split; [assumption|split; congruence].
Qed.

(** The writer consumes a record while its handle is closed. *)
Lemma recv_dead (s : Sys) (h : nat) (d : FileDesc) (log : Log) (q : list Log)
    (b : bool) :
  dead s h d -> appendCh s = log :: q -> listener_pc s = Loop b ->
  exists s', step Recv s = Some s'
    /\ trace (os_world s') = trace (os_world s) ++
         [(SysWrite h (FormatLog (env (os_world s)) log), Some ErrClosed)]
    /\ sink (os_world s') = sink (os_world s) ++
         [WriteError (absPath (listener s)) ErrClosed]
    /\ inodes (os_world s') = inodes (os_world s)
    /\ dir (os_world s') = dir (os_world s)
    /\ appendCh s' = q /\ listener_pc s' = Loop true.
Proof.
  intros (Hf & Hd & Hc) Hq Hpc. unfold step. rewrite Hpc, Hq.
  unfold listener_runs, call.
  rewrite (reallyAppend_closed log true _ h d) by assumption.
  eexists. split; [reflexivity|]. cbn. repeat split; reflexivity.
Qed.

Lemma os_Close_closes h w e w' :
  is_Some (fds w !! h) -> os_Close h w = (e, w') ->
  exists d, fds w' !! h = Some d /\ fd_open d = false.
Proof.
  intros [d Hd]. unfold os_Close, open_fd. rewrite Hd.
  destruct (fd_open d) eqn:Ho; intros [= <- <-]; cbn.
  - exists (set_fd_open false d). split; [|reflexivity].
    apply list_lookup_insert_eq. apply (lookup_lt_Some _ _ _ Hd).
  - exists d. split; assumption.
Qed.

(** ** Every failure is reported *)

Arguments newRotatedFilename : simpl never.
Arguments simpleLog : simpl never.

(** One step of a method body: the outcome of the next system call (with
    what it did to the world), of the clock reading of a rotated file name,
    or of the construction of a record. *)
Ltac os_case :=
  match goal with
  | |- context [os_WriteString ?h ?m ?w] =>
      let E := fresh "E" in
      destruct (os_WriteString h m w) as [[?|?] ?] eqn:E;
      apply os_WriteString_effect in E; destruct E
  | |- context [os_Close ?h ?w] =>
      let E := fresh "E" in
      destruct (os_Close h w) as [[?|] ?] eqn:E;
      apply os_Close_effect in E; destruct E
  | |- context [os_Rename ?o ?n ?w] =>
      let E := fresh "E" in
      destruct (os_Rename o n w) as [[?|] ?] eqn:E;
      apply os_Rename_effect in E; destruct E
  | |- context [os_OpenFile ?p ?f ?w] =>
      let E := fresh "E" in
      destruct (os_OpenFile p f w) as [[?|?] ?] eqn:E;
      apply os_OpenFile_effect in E; destruct E
  | |- context [newRotatedFilename ?b ?w] =>
      let E := fresh "E" in
      destruct (newRotatedFilename b w) as [? ?] eqn:E;
      unfold newRotatedFilename in E; injection E as _ <-
  | |- context [simpleLog ?p ?l ?c ?m ?a ?w] =>
      let E := fresh "E" in
      destruct (simpleLog p l c m a w) as [? ?] eqn:E;
      unfold simpleLog in E; injection E as _ <-
  end.

Ltac chain :=
  repeat (cbn; match goal with
               | H : trace _ = _ |- _ => rewrite H
               | H : sink _ = _ |- _ => rewrite H
               end).

Ltac close_reports :=
  unfold reports; cbn; chain; cbn; rewrite <- ?app_assoc; eexists; (split; [reflexivity|]); cbn;
  rewrite ?omap_app; cbn; rewrite ?app_nil_r, <- ?app_assoc; cbn; reflexivity.

Lemma reports_refl path w : reports path w w.
Proof. exists []. cbn. rewrite !app_nil_r. split; reflexivity. Qed.

Lemma reports_trans path w1 w2 w3 :
  reports path w1 w2 -> reports path w2 w3 -> reports path w1 w3.
Proof.
  intros (c1 & H1 & H2) (c2 & H3 & H4). exists (c1 ++ c2).
  rewrite H3, H1, H4, H2, omap_app, !app_assoc. split; reflexivity.
Qed.

Lemma untracked_reports rot log fr f :
  file (self fr) = Some f ->
  reports (absPath (self fr)) (world fr) (world (reallyAppend_with rot log false fr).2).
Proof.
  intros Hf. unfold reallyAppend_with. unfold_m. rewrite Hf. cbn.
  os_case; cbn; close_reports.
Qed.

Lemma logHeader_reports rot fr f :
  file (self fr) = Some f ->
  reports (absPath (self fr)) (world fr) (world (logHeader_with rot fr).2).
Proof.
  intros Hf. unfold logHeader_with. unfold_m.
  destruct (headerGenerator (self fr)); cbn.
  - os_case.
    match goal with |- context [reallyAppend_with rot ?l false ?f0] =>
      pose proof (untracked_reports rot l f0 f Hf) as H;
      destruct (reallyAppend_with rot l false f0) as [u fr'] end.
    cbn in *. destruct H as (calls & H1 & H2). exists calls. split; assumption.
  - apply reports_refl.
Qed.

Lemma renameLogFile_reports path o n fr :
  reports path (world fr) (world (renameLogFile o n fr).2).
Proof.
  unfold renameLogFile. unfold_m. cbn.
  repeat (os_case; cbn); close_reports.
Qed.

Lemma rotate_reports fr f :
  file (self fr) = Some f ->
  reports (absPath (self fr)) (world fr) (world (rotate fr).2).
Proof.
  intros Hf. unfold rotate, rotate_with. unfold_m. rewrite Hf. cbn.
  os_case; cbn; os_case; cbn.
  all: match goal with |- context [renameLogFile ?o ?n ?f] =>
      pose proof (renameLogFile_reports (absPath (self fr)) o n f) as H;
      destruct (renameLogFile o n f) as [[|] fr'] end; cbn in *.
  all: try (os_case; cbn).
  all: try match goal with |- context [logHeader_with ?r ?f0] =>
      pose proof (logHeader_reports r f0 _ eq_refl) as H';
      destruct (logHeader_with r f0) as [u fr''] end; cbn in *.
  all: repeat match goal with H : reports _ _ _ |- _ => destruct H as (? & ? & ?) end.
  all: close_reports.
Qed.


Lemma reallyAppend_reports log trackSize fr f :
  file (self fr) = Some f ->
  reports (absPath (self fr)) (world fr) (world (reallyAppend log trackSize fr).2).
Proof.
  intros Hf. destruct trackSize; [|apply (untracked_reports _ _ _ f Hf)].
  unfold reallyAppend, reallyAppend_with. unfold_m. rewrite Hf. cbn.
  os_case; cbn; [|close_reports].
  destruct (_ <? _)%Z; cbn; [|close_reports].
  match goal with |- context [rotate ?f0] =>
      pose proof (rotate_reports f0 f Hf) as H;
      destruct (rotate f0) as [u fr'] end; cbn in *.
  destruct H as (? & ? & ?). close_reports.
Qed.



(** ** Submission *)

Lemma append_move_sent t c log a s s' :
  append_move t c log a s = Some s' ->
  (sent s' = sent s /\ appendCh s' = appendCh s)
  \/ exists x, sent s' = sent s ++ [(t, x)] /\ appendCh s' = appendCh s ++ [x].
Proof.
  unfold append_move, Append_step.
  destruct a; try discriminate; destruct (has_room (appendCh s)); try discriminate;
    try destruct (fullWarningLog _); intros [= <-]; cbn;
    rewrite ?drop_app_length, ?drop_all; cbn; rewrite ?app_nil_r; eauto.
Qed.

Lemma listener_runs_proj {A} (m : M A) (p : ListenerPc) (q : list Log) (s : Sys) :
  sent (listener_runs m p q s) = sent s
  /\ appendCh (listener_runs m p q s) = q
  /\ listener_pc (listener_runs m p q s) = p
  /\ clients (listener_runs m p q s) = clients s
  /\ appender (listener_runs m p q s) = appender s
  /\ os_world (listener_runs m p q s) =
       world (m {| self := listener s; world := os_world s |}).2.
Proof. unfold listener_runs. destruct (m _). repeat split; reflexivity. Qed.

Lemma step_sent (l : Label) (s s' : Sys) :
  step l s = Some s' ->
  exists new, sent s' = sent s ++ new
    /\ forall done, map snd (sent s) = done ++ appendCh s ->
         exists done', map snd (sent s') = done' ++ appendCh s'.
Proof.
  assert (Hsame : forall s1 : Sys, sent s1 = sent s -> appendCh s1 = appendCh s ->
            exists new, sent s1 = sent s ++ new
              /\ forall done, map snd (sent s) = done ++ appendCh s ->
                   exists done', map snd (sent s1) = done' ++ appendCh s1).
  { intros s1 H1 H2. exists []. rewrite app_nil_r, H1, H2. eauto. }
  assert (Happ : forall t c log a, append_move t c log a s = Some s' ->
            exists new, sent s' = sent s ++ new
              /\ forall done, map snd (sent s) = done ++ appendCh s ->
                   exists done', map snd (sent s') = done' ++ appendCh s').
  { intros t c log a H. apply append_move_sent in H as [[H1 H2]|(x & H1 & H2)].
    - apply Hsame; assumption.
    - exists [(t, x)]. split; [assumption|]. intros done Hd. exists done.
      rewrite H1, H2, map_app, Hd, app_assoc. reflexivity. }
  destruct l as [t| | |t| |]; unfold step.
  - unfold client_move. destruct (clients s !! t) as [c|]; [|discriminate]. cbn.
    destruct (pc c); try discriminate; try apply Happ.
    + destruct (todo c) as [|[log|] ?]; [discriminate|apply Happ|].
      intros [= <-]. apply Hsame; reflexivity.
    + destruct (call Close_file _). intros [= <-]. apply Hsame; reflexivity.
  - destruct (listener_pc s); try discriminate.
    destruct (appendCh s) as [|log q] eqn:Hq; [discriminate|].
    intros [= <-].
    destruct (listener_runs_proj (call (reallyAppend log true)) (Loop true) q s)
      as (H1 & H2 & _).
    exists []. rewrite app_nil_r, H1, H2. split; [reflexivity|].
    intros done ->. exists (done ++ [log]). rewrite <- app_assoc. reflexivity.
  - destruct (listener_pc s) as [[|]| |]; try discriminate.
    destruct (appendCh s) eqn:Hq; [|discriminate].
    intros [= <-].
    match goal with |- context [listener_runs ?m ?p ?q ?s] =>
      destruct (listener_runs_proj m p q s) as (H1 & H2 & _) end.
    exists []. rewrite app_nil_r, H1, H2. split; [reflexivity|]. eauto.
  - destruct (listener_pc s) as [[|]| |]; try discriminate.
    destruct (clients s !! t) as [c|]; [|discriminate]. cbn.
    destruct (pc c); try discriminate. intros [= <-]. apply Hsame; reflexivity.
  - destruct (listener_pc s); try discriminate. intros [= <-].
    apply Hsame; reflexivity.
  - destruct (listener_pc s) as [| |t b]; try discriminate.
    destruct (clients s !! t) as [c|]; [|discriminate]. cbn.
    destruct (pc c); try discriminate. intros [= <-]. apply Hsame; reflexivity.
Qed.

Lemma run_sent (ls : list Label) (s s' : Sys) :
  run ls s = Some s' ->
  exists new, sent s' = sent s ++ new
    /\ forall done, map snd (sent s) = done ++ appendCh s ->
         exists done', map snd (sent s') = done' ++ appendCh s'.
Proof.
  revert s. induction ls as [|l ls IH]; intros s; cbn.
  - intros [= <-]. exists []. rewrite app_nil_r. split; [reflexivity|]. eauto.
  - destruct (step l s) as [s1|] eqn:E; [|discriminate]. cbn. intros H.
    apply step_sent in E as (n1 & E1 & E2). apply IH in H as (n2 & H1 & H2).
    exists (n1 ++ n2). split; [rewrite H1, E1, app_assoc; reflexivity|].
    intros done Hd. destruct (E2 _ Hd) as [d1 Hd1]. exact (H2 _ Hd1).
Qed.

(** A client that waits inside [Append] is moved by its own move only. *)
Lemma step_frame (l : Label) (t : nat) (c : Client) (s s' : Sys) :
  step l s = Some s' -> clients s !! t = Some c -> in_append c ->
  l <> Move t -> clients s' !! t = Some c.
Proof.
  intros Hstep Hc Hin Hl.
  assert (Hins : forall t' c', t' <> t -> <[t' := c']> (clients s) !! t = Some c).
  { intros t' c' Hne. rewrite list_lookup_insert_ne; assumption. }
  assert (Ham : forall t' c0 log a, t' <> t -> append_move t' c0 log a s = Some s' ->
            clients s' !! t = Some c).
  { intros t' c0 log a Hne. unfold append_move.
    destruct (Append_step _ _ _ _) as [[[a' q'] w']|]; [|discriminate].
    intros [= <-]. cbn. apply Hins. assumption. }
  destruct l as [t'| | |t'| |]; unfold step in Hstep.
  - assert (t' <> t) as Hne by congruence.
    unfold client_move in Hstep. destruct (clients s !! t') as [c0|]; [|discriminate].
    cbn in Hstep. destruct (pc c0); try discriminate; try (eapply Ham; eassumption).
    + destruct (todo c0) as [|[log|] ?]; [discriminate|eapply Ham; eassumption|].
      injection Hstep as <-. cbn. apply Hins. assumption.
    + destruct (call Close_file _). injection Hstep as <-. cbn. apply Hins. assumption.
  - destruct (listener_pc s); try discriminate.
    destruct (appendCh s) as [|log q]; [discriminate|]. injection Hstep as <-.
    match goal with |- context [listener_runs ?m ?p ?q ?s] =>
      destruct (listener_runs_proj m p q s) as (_ & _ & _ & H & _) end.
    rewrite H. assumption.
  - destruct (listener_pc s) as [[|]| |]; try discriminate.
    destruct (appendCh s); [|discriminate]. injection Hstep as <-.
    match goal with |- context [listener_runs ?m ?p ?q ?s] =>
      destruct (listener_runs_proj m p q s) as (_ & _ & _ & H & _) end.
    rewrite H. assumption.
  - destruct (listener_pc s) as [[|]| |]; try discriminate.
    destruct (clients s !! t') as [c0|] eqn:Hc0; [|discriminate]. cbn in Hstep.
    destruct (pc c0) eqn:Hp; try discriminate. injection Hstep as <-. cbn.
    apply Hins. intros ->. rewrite Hc in Hc0. injection Hc0 as <-.
    unfold in_append in Hin. rewrite Hp in Hin. exact Hin.
  - destruct (listener_pc s); try discriminate. injection Hstep as <-. assumption.
  - destruct (listener_pc s) as [| |t' b]; try discriminate.
    destruct (clients s !! t') as [c0|] eqn:Hc0; [|discriminate]. cbn in Hstep.
    destruct (pc c0) eqn:Hp; try discriminate. injection Hstep as <-. cbn.
    apply Hins. intros ->. rewrite Hc in Hc0. injection Hc0 as <-.
    unfold in_append in Hin. rewrite Hp in Hin. exact Hin.
Qed.

Lemma move_send (t : nat) (c : Client) (log x : Log) (a : AppendPc) (s s' : Sys) :
  clients s !! t = Some c ->
  (a = AtSendWarning x \/ (a = AtSendLog /\ x = log)) ->
  append_move t c log a s = Some s' ->
  has_room (appendCh s) = true
  /\ sent s' = sent s ++ [(t, x)]
  /\ clients s' !! t =
       Some (match a with AtSendLog => ret_to None c | _ => set_pc (SendLog log) c end).
Proof.
  intros Hc Ha. unfold append_move, Append_step.
  assert (Hlt : (t < length (clients s))%nat) by apply (lookup_lt_Some _ _ _ Hc).
  destruct Ha as [->|[-> ->]]; destruct (has_room (appendCh s)); try discriminate;
    intros [= <-]; cbn; rewrite drop_app_length; cbn;
    (split; [reflexivity|split; [reflexivity|apply list_lookup_insert_eq; assumption]]).
Qed.

Lemma sendlog_sent (t : nat) (log : Log) (ls : list Label) :
  forall (s s' : Sys) (c c' : Client),
    clients s !! t = Some c -> pc c = SendLog log ->
    run ls s = Some s' -> clients s' !! t = Some c' ->
    (length (returned c) < length (returned c'))%nat ->
    exists l2 l3, sent s' = sent s ++ l2 ++ (t, log) :: l3.
Proof.
  induction ls as [|l ls IH]; intros s s' c c' Hc Hpc Hrun Hc' Hlen; cbn in Hrun.
  - injection Hrun as <-. rewrite Hc in Hc'. injection Hc' as <-. lia.
  - destruct (step l s) as [s1|] eqn:E; [|discriminate]. cbn in Hrun.
    destruct (decide (l = Move t)) as [->|Hne].
    + unfold step, client_move in E. rewrite Hc in E. cbn in E. rewrite Hpc in E.
      apply (move_send t c log log) in E as (_ & E1 & _); [|assumption|tauto].
      apply run_sent in Hrun as (l3 & H & _). exists [], l3.
      rewrite H, E1, <- app_assoc. reflexivity.
    + pose proof (step_frame _ _ _ _ _ E Hc) as Hc1.
      unfold in_append in Hc1. rewrite Hpc in Hc1. specialize (Hc1 I Hne).
      destruct (IH _ _ _ _ Hc1 Hpc Hrun Hc' Hlen) as (l2 & l3 & H).
      apply step_sent in E as (l1 & E1 & _). exists (l1 ++ l2), l3.
      rewrite H, E1, <- !app_assoc. reflexivity.
Qed.

Lemma sendwarning_sent (t : nat) (warning log : Log) (ls : list Label) :
  forall (s s' : Sys) (c c' : Client),
    clients s !! t = Some c -> pc c = SendWarning warning log ->
    run ls s = Some s' -> clients s' !! t = Some c' ->
    (length (returned c) < length (returned c'))%nat ->
    exists l1 l2 l3, sent s' = sent s ++ l1 ++ (t, warning) :: l2 ++ (t, log) :: l3.
Proof.
  induction ls as [|l ls IH]; intros s s' c c' Hc Hpc Hrun Hc' Hlen; cbn in Hrun.
  - injection Hrun as <-. rewrite Hc in Hc'. injection Hc' as <-. lia.
  - destruct (step l s) as [s1|] eqn:E; [|discriminate]. cbn in Hrun.
    destruct (decide (l = Move t)) as [->|Hne].
    + unfold step, client_move in E. rewrite Hc in E. cbn in E. rewrite Hpc in E.
      apply (move_send t c log warning) in E as (_ & E1 & E2); [|assumption|tauto].
      destruct (sendlog_sent t log ls _ _ _ _ E2 eq_refl Hrun Hc' Hlen)
        as (l2 & l3 & H).
      exists [], l2, l3. rewrite H, E1, <- !app_assoc. reflexivity.
    + pose proof (step_frame _ _ _ _ _ E Hc) as Hc1.
      unfold in_append in Hc1. rewrite Hpc in Hc1. specialize (Hc1 I Hne).
      destruct (IH _ _ _ _ Hc1 Hpc Hrun Hc' Hlen) as (l1 & l2 & l3 & H).
      apply step_sent in E as (l0 & E1 & _). exists (l0 ++ l1), l2, l3.
      rewrite H, E1, <- !app_assoc. reflexivity.
Qed.

(** C5.  A client calls [Append log] and the call returns.  If the queue
    had room at the [select], the record is the client's next send.
    Otherwise the client first sends the warning record built at that
    moment, which names the capacity, and then the record itself: both
    sends wait for room (they are disabled while the queue is full, and
    nothing is dropped), and the warning comes before the record in the
    order of the sends, which is the order of the queue. *)
Theorem C5_append_overflow (t : nat) (c c' : Client) (log : Log)
    (rest : list Call) (ls : list Label) (s s' : Sys) :
  clients s !! t = Some c -> pc c = Idle -> todo c = CallAppend log :: rest ->
  run (Move t :: ls) s = Some s' ->
  clients s' !! t = Some c' ->
  (length (returned c) < length (returned c'))%nat ->
  (if has_room (appendCh s)
   then exists l, sent s' = sent s ++ (t, log) :: l
   else exists l1 l2 l3,
          sent s' = sent s ++ l1 ++ (t, (fullWarningLog (os_world s)).1) :: l2
                      ++ (t, log) :: l3)
  /\ ((exists done, map snd (sent s) = done ++ appendCh s) ->
      exists done', map snd (sent s') = done' ++ appendCh s')
  /\ (forall x a q w, has_room q = false -> a <> AtSelect ->
        Append_step x a q w = None)
  /\ (forall w,
        Prefix (fullWarningLog w).1 = "RollingFileAppender"
        /\ LogLevel (fullWarningLog w).1 = WARN
        /\ MessageFmt (fullWarningLog w).1 =
             "appendCh is full. You may want to increase APPEND_CHANNEL_SIZE (currently %d)."
        /\ Args (fullWarningLog w).1 = [ArgInt 4096]).
Proof.
  intros Hc Hpc Htodo Hrun Hc' Hlen. split; [|split; [|split]].
  - apply run_cons in Hrun as (s1 & E & Hrun).
    unfold step, client_move in E. rewrite Hc in E. cbn in E.
    rewrite Hpc, Htodo in E. unfold append_move, Append_step in E.
    assert (Hlt : (t < length (clients s))%nat) by apply (lookup_lt_Some _ _ _ Hc).
    destruct (has_room (appendCh s)).
    + injection E as <-. apply run_sent in Hrun as (l & H & _). exists l.
      rewrite H. cbn. rewrite drop_app_length, <- app_assoc. reflexivity.
    + unfold fullWarningLog, internalWarningLog in *.
      rewrite (surjective_pairing (simpleLog _ _ _ _ _ _)) in E.
      injection E as <-.
      match type of Hrun with run ls ?s1 = _ =>
        assert (Hc1 : clients s1 !! t =
                  Some (set_pc (SendWarning
                     (simpleLog "RollingFileAppender" WARN 3
                        "appendCh is full. You may want to increase APPEND_CHANNEL_SIZE (currently %d)."
                        [ArgInt APPEND_CHANNEL_SIZE] (os_world s)).1 log) (pop_call c)))
          by (cbn; apply list_lookup_insert_eq; assumption) end.
      destruct (sendwarning_sent t _ log ls _ _ _ _ Hc1 eq_refl Hrun Hc' Hlen)
        as (l1 & l2 & l3 & H).
      exists l1, l2, l3. rewrite H. cbn. rewrite drop_all, app_nil_r. reflexivity.
  - intros [done Hd]. apply run_sent in Hrun as (_ & _ & H). exact (H _ Hd).
  - intros x a q w Hq Ha. unfold Append_step.
    destruct a; try congruence; rewrite Hq; reflexivity.
  - intros w. repeat split; reflexivity.
Qed.

Lemma C5_append_overflow_witness :
  has_room (appendCh full_queue) = false
  /\ exists l1 l2 l3,
       sent (after full_queue_schedule full_queue) =
         sent full_queue ++ l1 ++ (0%nat, (fullWarningLog (os_world full_queue)).1)
           :: l2 ++ (0%nat, record "overflow;") :: l3.
Proof.
  assert (E : has_room (appendCh full_queue) = false) by (vm_compute; reflexivity).
  split; [exact E|].
  destruct (C5_append_overflow 0
              {| pc := Idle; todo := [CallAppend (record "overflow;")]; returned := [] |}
              {| pc := Idle; todo := []; returned := [None] |}
              (record "overflow;") [] [Recv; Move 0; Recv; Move 0]%nat
              full_queue (after full_queue_schedule full_queue)) as [H _];
    try (vm_compute; reflexivity).
  rewrite E in H. exact H.
Defined.

(** ** The header *)

Lemma header_text_same gen w w' :
  ticks w' = ticks w -> env w' = env w -> header_text gen w' = header_text gen w.
Proof.
  intros H1 H2. unfold header_text, header_of, simpleLog. cbn. rewrite H1, H2.
  reflexivity.
Qed.

Lemma new_calls_app w w' calls :
  trace w' = trace w ++ calls -> new_calls w w' = calls.
Proof. intros H. unfold new_calls. rewrite H. apply drop_app_length. Qed.

Lemma string_append_nil (s : string) : String.append s "" = s.
Proof.
  induction s as [|a s IH]; [reflexivity|].
  change (String a (String.append s "") = String a s). f_equal. exact IH.
Qed.

Lemma substring_nil (n m : nat) : substring n m "" = "".
Proof. destruct n, m; reflexivity. Qed.

Lemma write_at_empty (msg : string) : write_at 0 msg "" = msg.
Proof.
  unfold write_at. rewrite !substring_nil.
  change (String.append msg "" = msg). apply string_append_nil.
Qed.

(** The header write: one write on the receiver's handle, and nothing else. *)
Lemma logHeader_trace (fr : Frame) (gen : unit -> string) (h : nat) :
  headerGenerator (self fr) = Some gen -> file (self fr) = Some h ->
  exists r,
    trace (world (logHeader fr).2) =
      trace (world fr) ++ [(SysWrite h (header_text gen (world fr)), r)].
Proof.
  intros Hg Hf. unfold logHeader, logHeader_with, reallyAppend_with.
  unfold header_text, header_of, simpleLog. unfold_m.
  rewrite Hg. cbn. rewrite Hf. cbn.
  match goal with |- context [os_WriteString ?a ?m ?w] =>
    destruct (os_WriteString a m w) as [r w'] eqn:E end.
  apply os_WriteString_effect in E as [E _ _ _ _]. cbn in E.
  exists (res_err r). destruct r; cbn; exact E.
Qed.

Lemma os_Close_fds h w e w' :
  os_Close h w = (e, w') ->
  length (fds w') = length (fds w) /\ dir w' = dir w /\ inodes w' = inodes w.
Proof.
  unfold os_Close. destruct (open_fd w h); intros [= <- <-]; cbn;
    rewrite ?length_insert; repeat split; reflexivity.
Qed.

Lemma os_Create_ok p w f w' :
  os_OpenFile p flags_create w = (inl f, w') ->
  f = length (fds w)
  /\ exists j, dir w' !! p = Some j /\ inodes w' !! j = Some ""
       /\ fds w' = fds w ++ [{| fd_inode := j; fd_open := true;
                                fd_append := false; fd_pos := 0 |}].
Proof.
  unfold os_OpenFile. destruct (fault w); [discriminate|].
  destruct (dir w !! p) as [i|] eqn:Hd; cbn; intros [= <- <-]; cbn.
  - split; [reflexivity|]. exists i. rewrite Hd, lookup_insert_eq. repeat split; reflexivity.
  - split; [reflexivity|]. exists (next_inode w). rewrite !lookup_insert_eq.
    repeat split; reflexivity.
Qed.

Lemma os_WriteString_fresh f msg w j r w' :
  fds w !! f = Some {| fd_inode := j; fd_open := true; fd_append := false; fd_pos := 0 |} ->
  inodes w !! j = Some "" ->
  os_WriteString f msg w = (r, w') ->
  res_err r = None -> dir w' = dir w /\ inodes w' !! j = Some msg.
Proof.
  intros Hf Hi. unfold os_WriteString, open_fd. rewrite Hf. cbn.
  destruct (fault w); intros [= <- <-]; [discriminate|]. intros _. cbn.
  rewrite Hi. cbn. rewrite write_at_empty, lookup_insert_eq. split; reflexivity.
Qed.

Ltac elem_of_calls H :=
  repeat (apply elem_of_cons in H as [H|H]; [try discriminate H|]);
  try (apply elem_of_nil in H; destruct H).

Lemma newRotatedFilename_eq b w :
  newRotatedFilename b w = ((newRotatedFilename b w).1, set_ticks (S (ticks w)) w).
Proof. reflexivity. Qed.

Lemma rotate_header (fr : Frame) (gen : unit -> string) (h : nat) (newname : string) :
  headerGenerator (self fr) = Some gen -> file (self fr) = Some h ->
  (SysRename (absPath (self fr)) newname, None)
    ∈ new_calls (world fr) (world (rotate fr).2) ->
  (SysOpen (absPath (self fr)) flags_create, None)
    ∈ new_calls (world fr) (world (rotate fr).2) ->
  exists rc rw,
    new_calls (world fr) (world (rotate fr).2) =
      [(SysClose h, rc); (SysRename (absPath (self fr)) newname, None);
       (SysOpen (absPath (self fr)) flags_create, None);
       (SysWrite (length (fds (world fr)))
          (header_text gen (set_ticks (S (ticks (world fr))) (world fr))), rw)]
    /\ (rw = None ->
        file_at (world (rotate fr).2) (absPath (self fr)) =
          Some (header_text gen (set_ticks (S (ticks (world fr))) (world fr)))).
Proof.
  intros Hg Hf.
  unfold rotate, rotate_with, renameLogFile, logHeader_with, reallyAppend_with,
    simpleLog.
  unfold_m. rewrite Hf. cbn.
  destruct (os_Close h (world fr)) as [rc w1] eqn:E1.
  pose proof (os_Close_fds _ _ _ _ E1) as (F1 & _).
  apply os_Close_effect in E1 as [T1 S1 K1 V1 _].
  destruct rc as [ec|]; cbn.
  all: rewrite newRotatedFilename_eq; cbn.
  all: match goal with |- context [os_Rename ?o ?n ?w] =>
         destruct (os_Rename o n w) as [[er|] w3] eqn:E3 end; cbn.
  all: pose proof (os_Rename_handles _ _ _ _ _ E3) as F3; cbn in F3.
  all: apply os_Rename_effect in E3 as [T3 S3 K3 V3 _]; cbn in T3, S3, K3, V3.
  all: match goal with |- context [os_OpenFile ?p ?fl ?w] =>
         destruct (os_OpenFile p fl w) as [[f|eo] w4] eqn:E4 end; cbn.
  all: pose proof (os_OpenFile_effect _ _ _ _ _ E4) as [T4 S4 K4 V4 _];
       cbn in T4, S4, K4, V4.
  (* the rename failed, or the new file could not be created *)
  all: try solve
    [ intros M1 M2; exfalso; unfold new_calls in M1, M2; cbn in M1, M2;
      rewrite T4, T3, T1, <- !app_assoc, drop_app_length in M1, M2;
      cbn in M1, M2; elem_of_calls M1; elem_of_calls M2 ].
  (* the rotation succeeded *)
  all: rewrite Hg; cbn.
  all: destruct (os_Create_ok _ _ _ _ E4) as (Ef & j & D4 & I4 & F4); cbn in Ef, F4.
  all: match goal with |- context [os_WriteString ?a ?m ?w] =>
         destruct (os_WriteString a m w) as [r w5] eqn:E5 end.
  all: assert (Hfd : fds w4 !! f = Some {| fd_inode := j; fd_open := true;
                         fd_append := false; fd_pos := 0 |})
         by (rewrite F4; apply list_lookup_middle; exact Ef).
  all: pose proof (os_WriteString_fresh f _ (set_ticks (S (ticks w4)) w4) j r w5
                     Hfd I4 E5) as C5; cbn in C5.
  all: apply os_WriteString_effect in E5 as [T5 S5 K5 V5 _]; cbn in T5, S5, K5, V5.
  all: assert (Hh : header_text gen w4 =
                    header_text gen (set_ticks (S (ticks (world fr))) (world fr)))
         by (apply header_text_same; cbn; congruence).
  all: unfold header_text, header_of, simpleLog in Hh |- *; cbn in Hh |- *.
  all: rewrite <- Hh.
  all: assert (Hlen : f = length (fds (world fr))) by congruence.
  all: rewrite <- Hlen.
  all: destruct r as [n|ew]; cbn.
  all: intros M1 _.
  all: unfold new_calls in M1 |- *; cbn in M1 |- *.
  all: rewrite T5, T4, T3, T1, <- !app_assoc, drop_app_length in M1.
  all: rewrite T5, T4, T3, T1, <- !app_assoc, drop_app_length.
  all: cbn in M1 |- *.
  all: elem_of_calls M1.
  all: injection M1 as ->.
  all: eexists _, _; (split; [reflexivity|]).
  all: intros Hrw; try discriminate Hrw.
  all: destruct (C5 eq_refl) as [D5 I5].
  all: unfold file_at; rewrite D5, D4; cbn; exact I5.
Qed.

Lemma untracked_self (rot : M unit) (log : Log) (fr : Frame) :
  self (reallyAppend_with rot log false fr).2 = self fr.
Proof.
  unfold reallyAppend_with. unfold_m. destruct (file (self fr)); cbn; [|reflexivity].
  destruct (os_WriteString _ _ _) as [[?|?] ?]; reflexivity.
Qed.

Lemma New_header filename maxFileSize gen w a w' :
  New filename maxFileSize (Some gen) w = (inl a, w') ->
  exists h r,
    file a = Some h
    /\ new_calls w w' =
         [(SysOpen (absPath a) flags_append_create, None); (SysStat h, None);
          (SysWrite h (header_text gen w), r)].
Proof.
  unfold New. destruct (filepath_Abs (env w) filename) as [p|]; [|discriminate].
  destruct (os_OpenFile p flags_append_create w) as [[f|] w1] eqn:E1; [|discriminate].
  destruct (os_Stat f w1) as [[size|] w2] eqn:E2; [|discriminate].
  apply os_OpenFile_effect in E1 as [T1 _ K1 V1 _].
  apply os_Stat_effect in E2 as [T2 _ K2 V2 _]. cbn in T1, T2.
  match goal with |- context [call logHeader ?fr] =>
    pose proof (logHeader_trace fr gen f eq_refl eq_refl) as [r T3];
    pose proof (call_world logHeader fr) as Hw;
    destruct (call logHeader fr) as [u fr'] end.
  cbn in T3, Hw. intros [= <- <-]. exists f, r. split; [reflexivity|]. cbn.
  apply new_calls_app. rewrite Hw, T3, T2, T1, <- !app_assoc. cbn.
  rewrite (header_text_same gen w w2) by congruence. reflexivity.
Qed.

(** C4.  With a header generator, [logHeader] is a call of [reallyAppend]
    on the header record with [trackSize = false].  Such a write never
    depends on [rotate] and leaves the receiver of its own frame as it was,
    so [logHeader] makes exactly one system call, the write of the header
    on the receiver's handle, whatever the sizes are.  [New] ends with that
    write on the handle it opened, and a rotation whose rename and create
    succeed ends with that write on the handle of the fresh file; if the
    write succeeds, the header is the content of the file at the path. *)
Theorem C4_header_handling (fr : Frame) (gen : unit -> string) (h : nat) :
  headerGenerator (self fr) = Some gen -> file (self fr) = Some h ->
  logHeader fr =
    call (reallyAppend (header_of gen (world fr)) false)
      {| self := self fr; world := set_ticks (S (ticks (world fr))) (world fr) |}
  /\ (forall rot log fr',
        reallyAppend_with rot log false fr' = reallyAppend log false fr'
        /\ self (reallyAppend log false fr').2 = self fr')
  /\ (exists r,
        new_calls (world fr) (world (logHeader fr).2) =
          [(SysWrite h (header_text gen (world fr)), r)])
  /\ (forall filename maxFileSize w a w',
        New filename maxFileSize (Some gen) w = (inl a, w') ->
        exists h' r,
          file a = Some h'
          /\ new_calls w w' =
               [(SysOpen (absPath a) flags_append_create, None); (SysStat h', None);
                (SysWrite h' (header_text gen w), r)])
  /\ (forall newname,
        (SysRename (absPath (self fr)) newname, None)
          ∈ new_calls (world fr) (world (rotate fr).2) ->
        (SysOpen (absPath (self fr)) flags_create, None)
          ∈ new_calls (world fr) (world (rotate fr).2) ->
        exists rc rw,
          new_calls (world fr) (world (rotate fr).2) =
            [(SysClose h, rc); (SysRename (absPath (self fr)) newname, None);
             (SysOpen (absPath (self fr)) flags_create, None);
             (SysWrite (length (fds (world fr)))
                (header_text gen (set_ticks (S (ticks (world fr))) (world fr))), rw)]
          /\ (rw = None ->
              file_at (world (rotate fr).2) (absPath (self fr)) =
                Some (header_text gen (set_ticks (S (ticks (world fr))) (world fr))))).
Proof.
  intros Hg Hf. split; [|split; [|split; [|split]]].
  - unfold logHeader, logHeader_with. unfold_m. rewrite Hg. reflexivity.
  - intros rot log fr'. split; [reflexivity|apply untracked_self].
  - destruct (logHeader_trace fr gen h Hg Hf) as [r T]. exists r.
    apply new_calls_app. exact T.
  - intros filename maxFileSize w a w' HN. exact (New_header _ _ _ _ _ _ HN).
  - intros newname. apply rotate_header; assumption.
Qed.

Lemma C4_header_handling_witness :
  (exists r,
     new_calls (world header_frame) (world (logHeader header_frame).2) =
       [(SysWrite 0 "HEADER;", r)])
  /\ exists rc rw,
       new_calls (world header_frame) (world (rotate header_frame).2) =
         [(SysClose 0, rc); (SysRename "/log" "/log.2013-04-05T06-07-08", None);
          (SysOpen "/log" flags_create, None); (SysWrite 1 "HEADER;", rw)]
       /\ (rw = None ->
           file_at (world (rotate header_frame).2) "/log" = Some "HEADER;").
Proof.
  destruct (C4_header_handling header_frame (fun _ => "HEADER;") 0%nat)
    as (_ & _ & H1 & _ & H2); try reflexivity.
  split; [exact H1|].
  assert (E : new_calls (world header_frame) (world (rotate header_frame).2) =
                [(SysClose 0, None); (SysRename "/log" "/log.2013-04-05T06-07-08", None);
                 (SysOpen "/log" flags_create, None); (SysWrite 1 "HEADER;", None)])
    by (vm_compute; reflexivity).
  apply (H2 "/log.2013-04-05T06-07-08"); rewrite E.
  - apply list_elem_of_further, list_elem_of_here.
  - apply list_elem_of_further, list_elem_of_further, list_elem_of_here.
Defined.

(** The header of seven bytes under a maximal size of 3: each file starts
    with the header, and the header never triggers a rotation. *)
Example header_scenario :
  run [Move 0; Recv]%nat with_header = Some (after [Move 0; Recv]%nat with_header)
  /\ trace (os_world (after [Move 0; Recv]%nat with_header)) =
       [(SysOpen "/log" flags_append_create, None); (SysStat 0, None);
        (SysWrite 0 "HEADER;", None); (SysWrite 0 "hello;", None);
        (SysClose 0, None); (SysRename "/log" "/log.2013-04-05T06-07-08", None);
        (SysOpen "/log" flags_create, None); (SysWrite 1 "HEADER;", None)]
  /\ file_at (os_world (after [Move 0; Recv]%nat with_header))
       "/log.2013-04-05T06-07-08" = Some "HEADER;hello;"
  /\ file_at (os_world (after [Move 0; Recv]%nat with_header)) "/log" = Some "HEADER;".
Proof. vm_compute. repeat split; reflexivity. Qed.

(** ** A rotation closes the writer's handle for good *)

Lemma os_WriteString_valid h msg w r w' (h' : nat) :
  os_WriteString h msg w = (r, w') ->
  is_Some (fds w !! h') -> is_Some (fds w' !! h').
Proof.
  unfold os_WriteString. destruct (open_fd w h) as [d|]; [destruct (fault w)|];
    intros [= <- <-]; cbn; try (intros H; exact H).
  rewrite !lookup_lt_is_Some, length_insert. intros H; exact H.
Qed.

Ltac closed_chain :=
  repeat match goal with
         | H : keeps_closed _ ?w |- keeps_closed _ ?w => exact H
         | H : keeps_closed _ ?w |- keeps_closed _ (set_sink _ ?w) => exact H
         | H : keeps_closed ?a ?b |- keeps_closed ?a _ =>
             apply (keeps_closed_trans a b); [exact H|]
         | H : keeps_closed (set_sink _ ?a) ?b |- keeps_closed ?a _ =>
             apply (keeps_closed_trans a b); [exact H|]
         | H : keeps_closed (set_ticks _ ?a) ?b |- keeps_closed ?a _ =>
             apply (keeps_closed_trans a b); [exact H|]
         | H : keeps_closed (set_ticks _ (set_sink _ ?a)) ?b |- keeps_closed ?a _ =>
             apply (keeps_closed_trans a b); [exact H|]
         | |- keeps_closed ?a ?a => apply keeps_closed_refl
         | |- keeps_closed ?a (set_sink _ ?a) => same_fds
         | |- keeps_closed ?a (set_ticks _ ?a) => same_fds
         end.

Lemma untracked_keeps_closed rot log fr :
  keeps_closed (world fr) (world (reallyAppend_with rot log false fr).2).
Proof.
  unfold reallyAppend_with. unfold_m. destruct (file (self fr)); cbn.
  - os_case; cbn; closed_chain.
  - same_fds.
Qed.

Lemma logHeader_keeps_closed rot fr :
  keeps_closed (world fr) (world (logHeader_with rot fr).2).
Proof.
  unfold logHeader_with. unfold_m. destruct (headerGenerator (self fr)); cbn.
  - os_case.
    match goal with |- context [reallyAppend_with rot ?l false ?f0] =>
      pose proof (untracked_keeps_closed rot l f0) as H;
      destruct (reallyAppend_with rot l false f0) as [u fr'] end.
    cbn in *. exact H.
  - apply keeps_closed_refl.
Qed.

Lemma renameLogFile_keeps_closed o n fr :
  keeps_closed (world fr) (world (renameLogFile o n fr).2).
Proof.
  unfold renameLogFile. unfold_m. cbn.
  repeat (os_case; cbn); closed_chain.
Qed.

(** After [rotate] the handle it was called with is closed, whatever the
    outcome of the rotation. *)
Lemma rotate_closes (fr : Frame) (h : nat) :
  file (self fr) = Some h -> is_Some (fds (world fr) !! h) ->
  exists d, fds (world (rotate fr).2) !! h = Some d /\ fd_open d = false.
Proof.
  intros Hf Hv. unfold rotate, rotate_with. unfold_m. rewrite Hf. cbn.
  destruct (os_Close h (world fr)) as [rc w1] eqn:E1.
  destruct (os_Close_closes _ _ _ _ Hv E1) as (d & Hd & Ho). clear E1.
  exists d. split; [|exact Ho].
  match goal with |- fds (world ?fr') !! h = Some d =>
    enough (keeps_closed w1 (world fr')) as K by (apply K; assumption) end.
  destruct rc; cbn.
  all: os_case; cbn.
  all: match goal with |- context [renameLogFile ?o ?n ?f] =>
      pose proof (renameLogFile_keeps_closed o n f) as H;
      destruct (renameLogFile o n f) as [[|] fr'] end; cbn in *.
  all: try (os_case; cbn).
  all: try match goal with |- context [logHeader_with ?r ?f0] =>
      pose proof (logHeader_keeps_closed r f0) as H';
      destruct (logHeader_with r f0) as [u fr''] end; cbn in *.
  all: closed_chain.
Qed.

(** Once a write has set off a rotation, the writer loop holds a closed
    handle: in every run that follows, whatever the clients submit, no file
    changes any more, and every record the writer takes from the queue ends
    as a reported write error. *)
Theorem rotation_silences_the_writer (s s1 : Sys) (log : Log) (q : list Log)
    (b : bool) (h : nat) :
  listener_pc s = Loop b -> appendCh s = log :: q ->
  file (listener s) = Some h -> is_Some (fds (os_world s) !! h) ->
  step Recv s = Some s1 ->
  (exists r, (SysClose h, r) ∈ new_calls (os_world s) (os_world s1)) ->
  forall (ls : list Label) (s2 : Sys),
    run ls s1 = Some s2 ->
    inodes (os_world s2) = inodes (os_world s1)
    /\ dir (os_world s2) = dir (os_world s1)
    /\ forall log' q' b',
         appendCh s2 = log' :: q' -> listener_pc s2 = Loop b' ->
         exists s3, step Recv s2 = Some s3
           /\ sink (os_world s3) =
                sink (os_world s2) ++ [WriteError (absPath (listener s)) ErrClosed]
           /\ inodes (os_world s3) = inodes (os_world s2).
Proof.
  intros Hpc Hq Hf Hv Hstep [rc Hin].
  assert (Hdead : exists d, dead s1 h d).
  { unfold step in Hstep. rewrite Hpc, Hq in Hstep. injection Hstep as <-.
    destruct (listener_runs_proj (call (reallyAppend log true)) (Loop true) q s)
      as (_ & _ & _ & _ & _ & Hw).
    pose proof (call_self (reallyAppend log true)
                  {| self := listener s; world := os_world s |}) as Hs.
    unfold dead. rewrite Hw in Hin |- *. clear Hw.
    assert (Hl : listener (listener_runs (call (reallyAppend log true)) (Loop true) q s)
                 = listener s).
    { unfold listener_runs. destruct (call _ _). exact Hs. }
    rewrite Hl, Hf. clear Hl Hs. rewrite call_world in Hin |- *.
    revert Hin. unfold reallyAppend, reallyAppend_with. unfold_m. cbn.
    rewrite Hf. cbn.
    destruct (os_WriteString h (FormatLog (env (os_world s)) log) (os_world s))
      as [[n|e] w1] eqn:E1; cbn.
    - pose proof (os_WriteString_valid _ _ _ _ _ h E1 Hv) as Hv1.
      apply os_WriteString_effect in E1 as [T1 _ _ _ _]. cbn in T1.
      destruct (_ <? _)%Z; cbn.
      + intros _.
        match goal with |- context [rotate ?fr] =>
          destruct (rotate_closes fr h Hf Hv1) as (d & Hd & Ho);
          destruct (rotate fr) as [u fr'] end.
        cbn in *. exists d. repeat split; assumption.
      + intros Hin. exfalso. unfold new_calls in Hin. cbn in Hin.
        rewrite T1, drop_app_length in Hin. elem_of_calls Hin.
    - apply os_WriteString_effect in E1 as [T1 _ _ _ _]. cbn in T1.
      intros Hin. exfalso. unfold new_calls in Hin. cbn in Hin.
      rewrite T1, drop_app_length in Hin. elem_of_calls Hin. }
  destruct Hdead as [d Hdead]. intros ls s2 Hrun.
  destruct (run_dead _ _ _ _ _ Hdead Hrun) as (Hd2 & HI & HD).
  split; [exact HI|]. split; [exact HD|].
  intros log' q' b' Hq' Hpc'.
  destruct (recv_dead _ _ _ _ _ _ Hd2 Hq' Hpc') as (s3 & H1 & _ & H3 & H4 & _).
  exists s3. split; [exact H1|]. split; [|exact H4].
  rewrite H3. destruct (run_structs _ _ _ Hrun) as [-> _].
  apply step_structs in Hstep as [-> _]. reflexivity.
Qed.

Lemma rotation_silences_the_writer_witness :
  map_to_list (inodes (os_world (after two_records_schedule two_records))) =
    map_to_list (inodes (os_world (after [Move 0; Move 0; Move 0; Recv]%nat two_records)))
  /\ map_to_list (inodes (os_world (after two_records_schedule two_records))) =
       [(1%nat, ""); (0%nat, "hello;")].
Proof.
  destruct (rotation_silences_the_writer
              (after [Move 0; Move 0; Move 0]%nat two_records)
              (after [Move 0; Move 0; Move 0; Recv]%nat two_records)
              (record "hello;") [record "second;"] false 0%nat) with
    (ls := [Recv; Default; Sync 0; EvalLen; Reply; Move 0]%nat)
    (s2 := after two_records_schedule two_records)
    as (H & _); try (vm_compute; reflexivity).
  - vm_compute. eexists. reflexivity.
  - exists None.
    assert (E : new_calls (os_world (after [Move 0; Move 0; Move 0]%nat two_records))
                  (os_world (after [Move 0; Move 0; Move 0; Recv]%nat two_records)) =
                [(SysWrite 0 "hello;", None); (SysClose 0, None);
                 (SysRename "/log" "/log.2013-04-05T06-07-08", None);
                 (SysOpen "/log" flags_create, None)])
      by (vm_compute; reflexivity).
    rewrite E. apply list_elem_of_further, list_elem_of_here.
  - rewrite H. split; [reflexivity|]. vm_compute. reflexivity.
Defined.

(** ** When a rotation starts *)

Lemma os_WriteString_written h msg w n w' :
  os_WriteString h msg w = (inl n, w') -> n = Z.of_nat (String.length msg).
Proof.
  unfold os_WriteString. destruct (open_fd w h); [destruct (fault w)|];
    intros [= <- <-]; reflexivity.
Qed.

Lemma rotate_starts_with_close (fr : Frame) (h : nat) :
  file (self fr) = Some h ->
  exists rc calls,
    trace (world (rotate fr).2) = trace (world fr) ++ (SysClose h, rc) :: calls.
Proof.
  intros Hf.
  destruct (rotate_reports fr h Hf) as (calls & T & _). revert T.
  unfold rotate, rotate_with. unfold_m. rewrite Hf. cbn.
  destruct (os_Close h (world fr)) as [rc w1] eqn:E1.
  apply os_Close_effect in E1 as [T1 _ _ _ _].
  match goal with |- context [world ?x] => set (W := world x) end.
  assert (Hext : exists more, trace W = trace w1 ++ more).
  { subst W. clear T1. destruct rc; cbn.
    all: os_case; cbn.
    all: match goal with |- context [renameLogFile ?o ?n ?f] =>
        pose proof (renameLogFile_reports "" o n f) as H;
        destruct (renameLogFile o n f) as [[|] fr'] end; cbn in *.
    all: try (os_case; cbn).
    all: try match goal with |- context [logHeader_with ?r ?f0] =>
        pose proof (logHeader_reports r f0 _ eq_refl) as H';
        destruct (logHeader_with r f0) as [u fr''] end; cbn in *.
    all: repeat match goal with H : reports _ _ _ |- _ => destruct H as (? & ? & _) end.
    all: chain; rewrite <- ?app_assoc; eexists; reflexivity. }
  destruct Hext as [more Hm]. intros _. exists rc, more.
  rewrite Hm, T1, <- app_assoc. reflexivity.
Qed.

(** A call of [reallyAppend] closes the file, which is how [rotate] begins,
    exactly when the write was size-tracked, succeeded, and made the
    counter of the call exceed the maximal size. *)
Theorem rotation_trigger (log : Log) (trackSize : bool) (fr : Frame) (h : nat) :
  file (self fr) = Some h ->
  (exists rc, (SysClose h, rc)
     ∈ new_calls (world fr) (world (reallyAppend log trackSize fr).2))
  <-> (trackSize = true
       /\ res_err (os_WriteString h (FormatLog (env (world fr)) log) (world fr)).1 = None
       /\ (MaxFileSize (self fr) <
           wrap64 (curFileSize (self fr)
                   + Z.of_nat (String.length (FormatLog (env (world fr)) log))))%Z).
Proof.
  intros Hf. unfold reallyAppend, reallyAppend_with. unfold_m. rewrite Hf. cbn.
  destruct (os_WriteString h (FormatLog (env (world fr)) log) (world fr))
    as [[n|e] w1] eqn:E1; cbn.
  - pose proof (os_WriteString_written _ _ _ _ _ E1) as ->.
    apply os_WriteString_effect in E1 as [T1 _ _ _ _]. cbn in T1.
    destruct trackSize; cbn.
    + destruct (Z.ltb_spec (MaxFileSize (self fr))
                  (wrap64 (curFileSize (self fr)
                     + Z.of_nat (String.length (FormatLog (env (world fr)) log)))))
        as [Hlt|Hge]; cbn.
      * match goal with |- context [rotate ?f0] =>
          destruct (rotate_starts_with_close f0 h Hf) as (rc & calls & T);
          destruct (rotate f0) as [u fr'] end.
        cbn in *. split; [intros _; repeat split; assumption|]. intros _.
        exists rc. unfold new_calls. rewrite T, T1, <- app_assoc, drop_app_length.
        apply list_elem_of_further, list_elem_of_here.
      * split.
        -- intros [rc Hin]. exfalso. unfold new_calls in Hin.
           rewrite T1, drop_app_length in Hin. elem_of_calls Hin.
        -- intros (_ & _ & Hlt). lia.
    + split.
      * intros [rc Hin]. exfalso. unfold new_calls in Hin.
        rewrite T1, drop_app_length in Hin. elem_of_calls Hin.
      * intros (H & _). discriminate H.
  - apply os_WriteString_effect in E1 as [T1 _ _ _ _]. cbn in T1. split.
    + intros [rc Hin]. exfalso. unfold new_calls in Hin. cbn in Hin.
      rewrite T1, drop_app_length in Hin. elem_of_calls Hin.
    + intros (_ & H & _). discriminate H.
Qed.

Lemma rotation_trigger_witness :
  (exists rc, (SysClose 0, rc)
     ∈ new_calls (world grown_frame)
         (world (reallyAppend (record "hello;") true grown_frame).2))
  <-> (true = true
       /\ res_err (os_WriteString 0 "hello;" (world grown_frame)).1 = None
       /\ (5 < wrap64 (4 + 6))%Z).
Proof.
  apply (rotation_trigger (record "hello;") true grown_frame 0%nat). reflexivity.
Defined.
(** * Further properties *)

(** ** The texts of the errors *)

(** The text of an error tells its kind: two errors with the same text,
    whatever their underlying causes read, answer the five [Is...Error]
    tests in the same way. *)
Theorem error_text_tells_the_kind (c1 c2 : Cause -> string) (e1 e2 : Error) :
  Error_string c1 e1 = Error_string c2 e2 ->
  IsCloseError e1 = IsCloseError e2 /\ IsNoFileError e1 = IsNoFileError e2
  /\ IsOpenError e1 = IsOpenError e2 /\ IsRenameError e1 = IsRenameError e2
  /\ IsWriteError e1 = IsWriteError e2.
Proof.
  destruct e1, e2; cbn; intros H; try (repeat split; reflexivity);
    exfalso; cbv beta iota delta [String.append] in H; discriminate H.
Qed.

Lemma error_text_tells_the_kind_witness :
  IsRenameError (RenameError "a to b" "c" ErrClosed) =
  IsRenameError (RenameError "a" "b to c" ErrClosed).
Proof.
  apply (error_text_tells_the_kind (fun _ => "closed") (fun _ => "closed")
           (RenameError "a to b" "c" ErrClosed) (RenameError "a" "b to c" ErrClosed)).
  reflexivity.
Defined.

(** ** Strings and numbers *)

Lemma string_app_assoc (a b c : string) : (a +:+ b) +:+ c = a +:+ (b +:+ c).
Proof.
  induction a as [|x a IH]; [reflexivity|].
  change (String x ((a +:+ b) +:+ c) = String x (a +:+ (b +:+ c))).
  f_equal. exact IH.
Qed.

Lemma string_app_length (a b : string) :
  String.length (a +:+ b) = (String.length a + String.length b)%nat.
Proof.
  induction a as [|x a IH]; [reflexivity|].
  change (S (String.length (a +:+ b)) = S (String.length a + String.length b)).
  f_equal. exact IH.
Qed.

Lemma string_app_inj_tail (s1 s2 t1 t2 : string) :
  s1 +:+ t1 = s2 +:+ t2 -> String.length t1 = String.length t2 ->
  s1 = s2 /\ t1 = t2.
Proof.
  revert s2. induction s1 as [|x s1 IH]; intros [|y s2] H L.
  - split; [reflexivity|exact H].
  - exfalso. apply (f_equal String.length) in H.
    change (String.length t1 = S (String.length (s2 +:+ t2))) in H.
    rewrite string_app_length in H. lia.
  - exfalso. apply (f_equal String.length) in H.
    change (S (String.length (s1 +:+ t1)) = String.length t2) in H.
    rewrite string_app_length in H. lia.
  - change (String x (s1 +:+ t1) = String y (s2 +:+ t2)) in H.
    injection H as -> H. destruct (IH s2 H L) as [-> ->]. split; reflexivity.
Qed.

Lemma fmt_d_inj (z1 z2 : Z) : fmt_d z1 = fmt_d z2 -> z1 = z2.
Proof.
  unfold fmt_d. intros H. apply DecimalZ.to_int_inj.
  apply (f_equal NilZero.int_of_string) in H.
  rewrite !NilZero.isi in H.
  - congruence.
  - destruct z2; cbn; try discriminate.
    intros [= E]. exact (DecimalPos.Unsigned.to_uint_nonnil _ E).
  - destruct z2; cbn; try discriminate.
    intros [= E]. exact (DecimalPos.Unsigned.to_uint_nonnil _ E).
  - destruct z1; cbn; try discriminate.
    intros [= E]. exact (DecimalPos.Unsigned.to_uint_nonnil _ E).
  - destruct z1; cbn; try discriminate.
    intros [= E]. exact (DecimalPos.Unsigned.to_uint_nonnil _ E).
Qed.

Lemma fmt_02d_two (z : Z) :
  0 <= z < 100 -> exists a b, fmt_02d z = String a (String b "").
Proof.
  intros H. assert (E : z = Z.of_nat (Z.to_nat z)) by lia. rewrite E.
  assert (L : (Z.to_nat z < 100)%nat) by lia. clear E H.
  generalize dependent (Z.to_nat z). intros n L.
  do 100 (destruct n as [|n]; [vm_compute; eexists _, _; reflexivity|]). lia.
Qed.

Lemma fmt_02d_read (z : Z) :
  0 <= z < 100 ->
  option_map Z.of_int (NilZero.int_of_string (fmt_02d z)) = Some z.
Proof.
  intros H. assert (E : z = Z.of_nat (Z.to_nat z)) by lia. rewrite E.
  assert (L : (Z.to_nat z < 100)%nat) by lia. clear E H.
  generalize dependent (Z.to_nat z). intros n L.
  do 100 (destruct n as [|n]; [vm_compute; reflexivity|]). lia.
Qed.

Lemma fmt_02d_inj (z1 z2 : Z) :
  0 <= z1 < 100 -> 0 <= z2 < 100 -> fmt_02d z1 = fmt_02d z2 -> z1 = z2.
Proof.
  intros H1 H2 H. pose proof (fmt_02d_read z1 H1) as R1.
  rewrite H, (fmt_02d_read z2 H2) in R1. congruence.
Qed.

(** ** The name of the archive *)

Lemma rotated_name_inj (base : string) (t1 t2 : GoTime) :
  valid_time t1 -> valid_time t2 ->
  String.concat ""
     [base; "."; fmt_d (Year t1); "-"; fmt_02d (Month t1); "-";
      fmt_02d (Day t1); "T"; fmt_02d (Hour t1); "-"; fmt_02d (Minute t1);
      "-"; fmt_02d (Second t1)] =
  String.concat ""
     [base; "."; fmt_d (Year t2); "-"; fmt_02d (Month t2); "-";
      fmt_02d (Day t2); "T"; fmt_02d (Hour t2); "-"; fmt_02d (Minute t2);
      "-"; fmt_02d (Second t2)] ->
  t1 = t2.
Proof.
  destruct t1 as [Y1 M1 D1 h1 m1 s1], t2 as [Y2 M2 D2 h2 m2 s2].
  unfold valid_time. cbn [Year Month Day Hour Minute Second].
  intros (V1 & V2 & V3 & V4 & V5) (W1 & W2 & W3 & W4 & W5).
  cbv beta iota delta [String.concat].
  intros H.
  apply (inj (String.append base)) in H.
  repeat change ("" +:+ ?s) with s in H.
  apply (inj (String.append ".")) in H.
  destruct (fmt_02d_two M1) as (a1 & b1 & EM1); [lia|].
  destruct (fmt_02d_two M2) as (a2 & b2 & EM2); [lia|].
  destruct (fmt_02d_two D1) as (c1 & d1 & ED1); [lia|].
  destruct (fmt_02d_two D2) as (c2 & d2 & ED2); [lia|].
  destruct (fmt_02d_two h1) as (e1 & f1 & Eh1); [lia|].
  destruct (fmt_02d_two h2) as (e2 & f2 & Eh2); [lia|].
  destruct (fmt_02d_two m1) as (g1 & i1 & Em1); [lia|].
  destruct (fmt_02d_two m2) as (g2 & i2 & Em2); [lia|].
  destruct (fmt_02d_two s1) as (j1 & k1 & Es1); [lia|].
  destruct (fmt_02d_two s2) as (j2 & k2 & Es2); [lia|].
  apply string_app_inj_tail in H as [HY HR].
  2: { rewrite EM1, EM2, ED1, ED2, Eh1, Eh2, Em1, Em2, Es1, Es2. reflexivity. }
  apply fmt_d_inj in HY as ->.
  assert (fmt_02d M1 = fmt_02d M2 /\ fmt_02d D1 = fmt_02d D2
          /\ fmt_02d h1 = fmt_02d h2 /\ fmt_02d m1 = fmt_02d m2
          /\ fmt_02d s1 = fmt_02d s2) as (HM & HD & Hh & Hm & Hs).
  { rewrite EM1, EM2, ED1, ED2, Eh1, Eh2, Em1, Em2, Es1, Es2 in HR |- *.
    cbv beta iota delta [String.append] in HR.
    injection HR as -> -> -> -> -> -> -> -> -> ->. repeat split; reflexivity. }
  apply fmt_02d_inj in HM, HD, Hh, Hm, Hs; try lia. congruence.
Qed.

(** A rotation names the archive after the second it happens in: under one
    base name, two readings of the clock give the same archive name exactly
    when they agree on year, month, day, hour, minute and second.  Two
    rotations within one second use the same name. *)
Theorem rotated_name_tells_the_second (base : string) (w1 w2 : World) :
  valid_time (clock (env w1) (ticks w1)) ->
  valid_time (clock (env w2) (ticks w2)) ->
  (newRotatedFilename base w1).1 = (newRotatedFilename base w2).1
  <-> clock (env w1) (ticks w1) = clock (env w2) (ticks w2).
Proof.
  intros V1 V2. unfold newRotatedFilename. cbn [fst]. split.
  - apply rotated_name_inj; assumption.
  - intros ->. reflexivity.
Qed.

Lemma rotated_name_tells_the_second_witness :
  (newRotatedFilename "/log" (empty_world quiet_env)).1 =
  (newRotatedFilename "/log" (set_ticks 7 (empty_world quiet_env))).1
  <-> clock quiet_env 0 = clock quiet_env 7.
Proof.
  apply (rotated_name_tells_the_second "/log" (empty_world quiet_env)
           (set_ticks 7 (empty_world quiet_env)));
    unfold valid_time; cbn; lia.
Defined.
(** ** Writing at the end of a file *)

Lemma substring_all (s : string) : substring 0 (String.length s) s = s.
Proof. induction s as [|a s IH]; [reflexivity|]. cbn. f_equal. exact IH. Qed.

Lemma substring_zero (n : nat) (s : string) : substring n 0 s = "".
Proof.
  revert s. induction n as [|n IH]; intros [|a s]; cbn; try reflexivity. apply IH.
Qed.

Lemma write_at_end (msg old : string) :
  write_at (String.length old) msg old = old +:+ msg.
Proof.
  unfold write_at. rewrite substring_all, Nat.sub_diag.
  replace (String.length old - (String.length old + String.length msg))%nat
    with 0%nat by lia.
  rewrite substring_zero. cbn [zeros]. rewrite !string_append_nil. reflexivity.
Qed.

Lemma os_WriteString_append (h : nat) (msg : string) (w : World)
    (d : FileDesc) (c : string) :
  fds w !! h = Some d -> fd_open d = true -> fd_append d = true ->
  inodes w !! fd_inode d = Some c -> fault w = None ->
  os_WriteString h msg w =
    (inl (Z.of_nat (String.length msg)),
     logcall (SysWrite h msg) None
       (set_fds (<[h := set_fd_pos (String.length c + String.length msg) d]> (fds w))
          (set_inodes (<[fd_inode d := c +:+ msg]> (inodes w)) w))).
Proof.
  intros Hd Ho Ha Hc Hf. unfold os_WriteString, open_fd.
  rewrite Hd, Ho, Hf, Ha, Hc. cbn. rewrite write_at_end. reflexivity.
Qed.
(** ** Construction *)

Lemma os_OpenFile_append_create (p : string) (w w1 : World) (f : nat) :
  os_OpenFile p flags_append_create w = (inl f, w1) ->
  f = length (fds w)
  /\ trace w1 = trace w ++ [(SysOpen p flags_append_create, None)]
  /\ sink w1 = sink w /\ ticks w1 = ticks w /\ env w1 = env w
  /\ exists i,
       dir w1 !! p = Some i
       /\ fds w1 = fds w ++ [{| fd_inode := i; fd_open := true;
                                fd_append := true; fd_pos := 0 |}]
       /\ forall old, (dir w !! p = None /\ old = "") \/ file_at w p = Some old ->
            inodes w1 !! i = Some old.
Proof.
  unfold os_OpenFile. destruct (fault w); [discriminate|].
  destruct (dir w !! p) as [i|] eqn:D; cbn; intros [= <- <-]; cbn.
  - repeat split. exists i. repeat split; [exact D|].
    intros old [[[=] _]|H]. unfold file_at in H. rewrite D in H. exact H.
  - repeat split. exists (next_inode w). rewrite !lookup_insert_eq. repeat split.
    intros old [[_ ->]|H]; [reflexivity|].
    unfold file_at in H. rewrite D in H. discriminate H.
Qed.

(** [New] opens the file for appending and keeps what is in it: the size it
    finds is where the counter starts, and the header, when one is written,
    goes after the old content and is not counted.  A header that cannot
    be written goes to the error handler; [New] succeeds all the same. *)
Theorem New_keeps_the_content (filename : string) (maxFileSize : Z)
    (gen : option (unit -> string)) (w w' : World) (a : RollingFileAppender)
    (old : string) :
  New filename maxFileSize gen w = (inl a, w') ->
  (dir w !! absPath a = None /\ old = "") \/ file_at w (absPath a) = Some old ->
  filepath_Abs (env w) filename = inl (absPath a)
  /\ MaxFileSize a = maxFileSize /\ headerGenerator a = gen
  /\ file a = Some (length (fds w))
  /\ curFileSize a = wrap64 (Z.of_nat (String.length old))
  /\ file_at w' (absPath a) = Some (old +:+ header_written gen w)
  /\ sink w' = sink w ++
       match gen, faults (env w) (length (trace w) + 2) with
       | Some _, Some e => [WriteError (absPath a) e]
       | _, _ => []
       end
  /\ exists d, fds w' !! length (fds w) = Some d
       /\ fd_open d = true /\ fd_append d = true.
Proof.
  unfold New. destruct (filepath_Abs (env w) filename) as [p|] eqn:A; [|discriminate].
  destruct (os_OpenFile p flags_append_create w) as [[f|] w1] eqn:E1; [|discriminate].
  apply os_OpenFile_append_create in E1
    as (-> & T1 & S1 & K1 & V1 & i & D1 & F1 & I1).
  assert (L1 : fds w1 !! length (fds w) =
               Some {| fd_inode := i; fd_open := true; fd_append := true; fd_pos := 0 |})
    by (rewrite F1; apply list_lookup_middle; reflexivity).
  unfold os_Stat, open_fd. rewrite L1. cbn.
  destruct (fault w1) eqn:F; [discriminate|].
  unfold logHeader, logHeader_with, reallyAppend_with, simpleLog. unfold_m. cbn.
  destruct gen as [g|]; cbn.
  - match goal with |- context [os_WriteString ?h ?m ?w] =>
      destruct (os_WriteString h m w) as [r w3] eqn:E3 end.
    intros H Hold. assert (Ea : absPath a = p) by (destruct r; injection H as <- _; reflexivity).
    rewrite Ea in Hold. specialize (I1 old Hold).
    unfold os_WriteString, open_fd in E3. cbn in E3. rewrite L1 in E3. cbn in E3.
    unfold header_written.
    replace (fault _) with (faults (env w) (length (trace w) + 2)) in E3
      by (unfold fault; cbn; rewrite T1, V1, !length_app; cbn; f_equal; lia).
    assert (Hh : forall x, FormatLog (env w1)
              {| Prefix := "header"; LogLevel := INFO;
                 Filename := (match callers (env w1) (ticks w1) 3 with
                              | Some fl => fl | None => ("UNKNOWN_FILE", -1) end).1;
                 Line := (match callers (env w1) (ticks w1) 3 with
                              | Some fl => fl | None => ("UNKNOWN_FILE", -1) end).2;
                 Timestamp := clock (env w1) (ticks w1); MessageFmt := g tt;
                 Args := [] |} = x -> header_text g w = x).
    { intros x <-. unfold header_text, header_of, simpleLog. cbn.
      rewrite K1, V1. reflexivity. }
    destruct (faults (env w) (length (trace w) + 2)).
    + injection E3 as <- <-. injection H as <- <-. cbn. rewrite ?I1. cbn.
      rewrite string_append_nil.
      do 5 (split; [first [assumption|reflexivity]|]).
      split; [unfold file_at; cbn; rewrite D1; exact I1|].
      split; [rewrite S1; reflexivity|].
      eexists. split; [exact L1|]. split; reflexivity.
    + injection E3 as <- <-. injection H as <- <-. cbn. rewrite ?I1. cbn.
      rewrite write_at_end.
      do 5 (split; [first [assumption|reflexivity]|]).
      split.
      { unfold file_at. cbn. rewrite D1. cbn. rewrite lookup_insert_eq.
        f_equal. f_equal. symmetry. apply Hh. reflexivity. }
      split; [rewrite S1, app_nil_r; reflexivity|].
      eexists. split; [apply list_lookup_insert_eq; apply lookup_lt_Some in L1; exact L1|].
      split; reflexivity.
  - intros [= <- <-] Hold. cbn in Hold |- *. specialize (I1 old Hold).
    rewrite I1. cbn. unfold header_written. rewrite string_append_nil.
    do 5 (split; [first [assumption|reflexivity]|]).
    split; [unfold file_at; cbn; rewrite D1; exact I1|].
    split; [rewrite S1, app_nil_r; reflexivity|].
    eexists. split; [exact L1|]. split; reflexivity.
Qed.

Lemma New_keeps_the_content_witness :
  curFileSize (appender kept_file) = 4
  /\ file_at (os_world kept_file) "/log" = Some "abcdHEADER;".
Proof.
  destruct (New_keeps_the_content "/log" 5 (Some (fun _ => "HEADER;"))
              (world_with_file quiet_env "/log" "abcd")
              (os_world kept_file) (appender kept_file) "abcd")
    as (_ & _ & _ & _ & H1 & H2 & _).
  - vm_compute; reflexivity.
  - right. vm_compute; reflexivity.
  - split; [exact H1|]. refine (eq_trans H2 _). vm_compute; reflexivity.
Defined.

(** When [New] returns an error it has not called the error handler.
    Either the path could not be made absolute and nothing happened, or the
    open failed, or the stat failed: then the file that [New] has opened,
    and created if it was not there, stays open, and no handle to it is
    returned. *)
Theorem New_failure (filename : string) (maxFileSize : Z)
    (gen : option (unit -> string)) (w w' : World) (e : Cause) :
  New filename maxFileSize gen w = (inr e, w') ->
  sink w' = sink w
  /\ ((filepath_Abs (env w) filename = inr e /\ w' = w)
      \/ exists p, filepath_Abs (env w) filename = inl p
           /\ ((new_calls w w' = [(SysOpen p flags_append_create, Some e)]
                /\ fds w' = fds w /\ dir w' = dir w)
               \/ (new_calls w w' =
                     [(SysOpen p flags_append_create, None);
                      (SysStat (length (fds w)), Some e)]
                   /\ is_Some (dir w' !! p)
                   /\ exists d, fds w' = fds w ++ [d] /\ fd_open d = true))).
Proof.
  unfold New. destruct (filepath_Abs (env w) filename) as [p|e0] eqn:A.
  2: { intros [= <- <-]. split; [reflexivity|]. left. split; reflexivity. }
  destruct (os_OpenFile p flags_append_create w) as [[f|e1] w1] eqn:E1.
  - pose proof (os_OpenFile_append_create _ _ _ _ E1)
      as (-> & T1 & S1 & K1 & V1 & i & D1 & F1 & I1).
    destruct (os_Stat (length (fds w)) w1) as [[size|e2] w2] eqn:E2.
    + destruct (call logHeader _). discriminate.
    + intros [= <- <-].
      assert (F2 : fds w2 = fds w1 /\ dir w2 = dir w1).
      { revert E2. unfold os_Stat. destruct (open_fd w1 _); [destruct (fault w1)|];
          intros [= <-]; try subst; split; reflexivity. }
      destruct F2 as [F2 D2].
      apply os_Stat_effect in E2 as [T2 S2 _ _ _]. cbn in T2.
      split; [congruence|]. right. exists p. split; [reflexivity|]. right.
      split; [apply new_calls_app; rewrite T2, T1, <- app_assoc; reflexivity|].
      split; [rewrite D2, D1; eexists; reflexivity|].
      eexists. split; [rewrite F2; exact F1|reflexivity].
  - intros [= <- <-].
    assert (F1 : fds w1 = fds w /\ dir w1 = dir w).
    { revert E1. unfold os_OpenFile. destruct (fault w); [intros [= _ <-]; split; reflexivity|].
      destruct (dir w !! p); cbn; discriminate. }
    destruct F1 as [F1 D1].
    apply os_OpenFile_effect in E1 as [T1 S1 _ _ _]. cbn in T1.
    split; [exact S1|]. right. exists p. split; [reflexivity|]. left.
    split; [apply new_calls_app; exact T1|]. split; assumption.
Qed.

Lemma New_failure_witness :
  sink stat_fails.2 = []
  /\ new_calls (empty_world (failing_env 1 (ErrInjected 7))) stat_fails.2 =
       [(SysOpen "/log" flags_append_create, None);
        (SysStat 0, Some (ErrInjected 7))]
  /\ is_Some (dir stat_fails.2 !! "/log")
  /\ exists d, fds stat_fails.2 = [d] /\ fd_open d = true.
Proof.
  destruct (New_failure "/log" 5 None (empty_world (failing_env 1 (ErrInjected 7)))
              stat_fails.2 (ErrInjected 7))
    as (H1 & [[H2 _]|(p & H2 & [(H3 & _)|H3])]).
  - vm_compute; reflexivity.
  - discriminate H2.
  - exfalso. injection H2 as <-.
    apply (f_equal (@length _)) in H3. vm_compute in H3. discriminate H3.
  - injection H2 as <-. split; [exact H1|]. exact H3.
Defined.

(** The starting conditions of the statements below hold in every system
    that [New] builds: the appender and the writer hold the same open
    handle, nothing has been sent, and every client is between calls. *)
Lemma start_conditions (filename : string) (maxFileSize : Z)
    (gen : option (unit -> string)) (programs : list (list Call))
    (w : World) (s0 : Sys) :
  start filename maxFileSize gen programs w = Some s0 ->
  file (listener s0) = Some (length (fds w))
  /\ appender s0 = listener s0
  /\ sent s0 = [] /\ appendCh s0 = [] /\ listener_pc s0 = Loop false
  /\ forall t c, clients s0 !! t = Some c -> pc c = Idle.
Proof.
  unfold start. destruct (New filename maxFileSize gen w) as [[a|e] w'] eqn:E;
    [|discriminate].
  intros [= <-]. cbn. split; [|repeat split].
  - revert E. unfold New.
    destruct (filepath_Abs (env w) filename) as [p|]; [|discriminate].
    destruct (os_OpenFile p flags_append_create w) as [[f|] w1] eqn:E1; [|discriminate].
    apply os_OpenFile_handle in E1 as ->.
    destruct (os_Stat _ w1) as [[size|] w2]; [|discriminate].
    destruct (call logHeader _). intros [= <- _]. reflexivity.
  - intros t c H. apply list_elem_of_lookup_2 in H. apply list_elem_of_In in H.
    apply in_map_iff in H as (p & <- & _). reflexivity.
Qed.

(** ** Delivery in order *)

Lemma rendered_app (e : Env) (l1 l2 : list Log) :
  rendered e (l1 ++ l2) = rendered e l1 +:+ rendered e l2.
Proof.
  induction l1 as [|x l1 IH]; [reflexivity|]. cbn.
  rewrite IH, string_app_assoc. reflexivity.
Qed.

Lemma step_in_order (e : Env) (h i : nat) (c0 : string) (errs : list Error)
    (l : Label) (s s' : Sys) :
  (forall n, faults e n = None) ->
  file (listener s) = Some h ->
  (forall log q, appendCh s = log :: q ->
      wrap64 (curFileSize (listener s)
              + Z.of_nat (String.length (FormatLog e log)))
      <= MaxFileSize (listener s)) ->
  in_order e h i c0 errs s -> step l s = Some s' -> in_order e h i c0 errs s'.
Proof.
  intros Hq Hf Hmax (He & done & d & Hs & Hd & Hi & Ha & Hc).
  assert (Hmove : forall t c log a, append_move t c log a s = Some s' ->
            in_order e h i c0 errs s').
  { intros t c log a H. pose proof (append_move_sent _ _ _ _ _ _ H) as HS.
    unfold append_move in H.
    destruct (Append_step _ _ _ _) as [[[a' q'] w']|] eqn:E; [|discriminate].
    apply Append_step_world in E as (E1 & E2 & E3 & E4 & E5 & E6).
    injection H as <-. cbn in HS. unfold in_order. cbn.
    split; [congruence|]. exists done, d. rewrite E1, E3, E4.
    split; [|repeat split; try assumption; apply Hc; assumption].
    destruct HS as [[-> ->]|(x & -> & ->)]; [exact Hs|].
    rewrite map_app, Hs, app_assoc. reflexivity. }
  assert (Hsame : forall s1 : Sys, sent s1 = sent s -> appendCh s1 = appendCh s ->
            os_world s1 = os_world s -> in_order e h i c0 errs s1).
  { intros s1 H1 H2 H3. unfold in_order. rewrite H1, H2, H3.
    split; [assumption|]. exists done, d. repeat split; try assumption; apply Hc; assumption. }
  destruct l as [t| | |t| |]; unfold step.
  - unfold client_move. destruct (clients s !! t) as [c|]; [|discriminate]. cbn.
    destruct (pc c); try discriminate; try apply Hmove.
    + destruct (todo c) as [|[log|] ?]; [discriminate|apply Hmove|].
      intros [= <-]. apply Hsame; reflexivity.
    + unfold_m. cbn. destruct (file (appender s)) as [h'|]; cbn.
      2: { intros [= <-]. apply Hsame; reflexivity. }
      destruct (os_Close h' (os_world s)) as [r w'] eqn:E. intros [= <-].
      pose proof (os_Close_files _ _ _ _ E) as [E1 E2].
      pose proof (os_Close_effect _ _ _ _ E) as [T1 S1 K1 V1 C1].
      unfold in_order. cbn. split; [congruence|].
      revert E. unfold os_Close. destruct (open_fd (os_world s) h') as [d'|] eqn:O.
      * intros [= _ <-]. cbn. destruct (decide (h' = h)) as [->|N].
        -- apply open_fd_inl in O as [O _]. rewrite Hd in O. injection O as <-.
           exists done, (set_fd_open false d). split; [exact Hs|].
           split; [apply list_lookup_insert_eq; apply lookup_lt_Some in Hd; exact Hd|].
           cbn. repeat split; try assumption; discriminate.
        -- exists done, d. split; [exact Hs|].
           split; [rewrite list_lookup_insert_ne by exact N; exact Hd|].
           repeat split; try assumption; apply Hc; assumption.
      * intros [= _ <-]. cbn. exists done, d.
        repeat split; try assumption; apply Hc; assumption.
  - destruct (listener_pc s); try discriminate.
    destruct (appendCh s) as [|log q] eqn:Hqq; [discriminate|].
    intros [= <-]. unfold listener_runs, call.
    destruct (fd_open d) eqn:Ho.
    + destruct (Hc eq_refl) as [Hc1 Hc2].
      unfold reallyAppend, reallyAppend_with. unfold_m. cbn. rewrite Hf. cbn.
      rewrite (os_WriteString_append h _ _ d (c0 +:+ rendered e done));
        try assumption; try congruence.
      2: { unfold fault. rewrite He. apply Hq. }
      cbn. rewrite He.
      destruct (Z.ltb_spec (MaxFileSize (listener s))
                  (wrap64 (curFileSize (listener s)
                           + Z.of_nat (String.length (FormatLog e log)))))
        as [Hlt|_]; [specialize (Hmax log q eq_refl); lia|].
      unfold in_order. cbn. split; [assumption|].
      exists (done ++ [log]), (set_fd_pos (String.length (c0 +:+ rendered e done)
                                 + String.length (FormatLog e log)) d).
      split; [rewrite Hs, <- app_assoc; reflexivity|].
      split; [apply list_lookup_insert_eq; apply lookup_lt_Some in Hd; exact Hd|].
      cbn. repeat split; try assumption.
      rewrite Hi, lookup_insert_eq, rendered_app. cbn.
      rewrite string_append_nil, string_app_assoc. reflexivity.
    + rewrite (reallyAppend_closed log true _ h d) by assumption.
      unfold in_order. cbn. split; [assumption|].
      exists (done ++ [log]), d.
      split; [rewrite Hs, <- app_assoc; reflexivity|].
      repeat split; try assumption; congruence.
  - destruct (listener_pc s) as [[|]| |]; try discriminate.
    destruct (appendCh s) eqn:Hqq; [|discriminate].
    intros [= <-]. unfold listener_runs. unfold_m. cbn. rewrite Hf. cbn.
    destruct (os_Sync h (os_world s)) as [r w'] eqn:E.
    pose proof (os_Sync_same _ _ _ _ E) as (E1 & E2 & E3).
    apply os_Sync_effect in E as [T1 S1 K1 V1 C1].
    unfold in_order. cbn. split; [congruence|]. exists done, d.
    rewrite E1, E3, S1. rewrite app_nil_r in Hs.
    split; [rewrite app_nil_r; exact Hs|].
    repeat split; try assumption; apply Hc; assumption.
  - destruct (listener_pc s) as [[|]| |]; try discriminate.
    destruct (clients s !! t) as [c|]; [|discriminate]. cbn.
    destruct (pc c); try discriminate. intros [= <-]. apply Hsame; reflexivity.
  - destruct (listener_pc s); try discriminate. intros [= <-].
    apply Hsame; reflexivity.
  - destruct (listener_pc s) as [| |t b]; try discriminate.
    destruct (clients s !! t) as [c|]; [|discriminate]. cbn.
    destruct (pc c); try discriminate. intros [= <-]. apply Hsame; reflexivity.
Qed.

Lemma elem_of_map_snd (x : Log) (l : list (nat * Log)) :
  x ∈ map snd l -> exists t, (t, x) ∈ l.
Proof.
  induction l as [|[t y] l IH]; cbn; intros H.
  - apply elem_of_nil in H. destruct H.
  - apply elem_of_cons in H as [->|H].
    + exists t. apply list_elem_of_here.
    + destruct (IH H) as [t' H']. exists t'. apply list_elem_of_further. exact H'.
Qed.

Lemma run_in_order (e : Env) (h i : nat) (c0 : string) (errs : list Error)
    (ls : list Label) :
  forall s s' : Sys,
    (forall n, faults e n = None) ->
    file (listener s) = Some h ->
    (forall t log, (t, log) ∈ sent s' ->
        wrap64 (curFileSize (listener s)
                + Z.of_nat (String.length (FormatLog e log)))
        <= MaxFileSize (listener s)) ->
    in_order e h i c0 errs s -> run ls s = Some s' -> in_order e h i c0 errs s'.
Proof.
  induction ls as [|l ls IH]; intros s s' Hq Hf Hmax Hin; cbn.
  - intros [= <-]. exact Hin.
  - destruct (step l s) as [s1|] eqn:E; [|discriminate]. cbn. intros Hrun.
    pose proof (step_structs _ _ _ E) as [L _].
    apply (IH s1 s' Hq); rewrite ?L; try assumption.
    apply (step_in_order e h i c0 errs l s s1 Hq Hf); [|exact Hin|exact E].
    intros log q Hqq. destruct Hin as (_ & done & _ & Hs & _).
    destruct (elem_of_map_snd log (sent s)) as [t Ht].
    { rewrite Hs, Hqq. apply elem_of_app. right. apply list_elem_of_here. }
    apply (Hmax t).
    assert (Hrun' : run (l :: ls) s = Some s') by (cbn; rewrite E; exact Hrun).
    destruct (run_sent _ _ _ Hrun') as (new & -> & _).
    apply elem_of_app. left. exact Ht.
Qed.

(** As long as no system call fails, no record that is sent takes the
    counter over the maximal size and nobody has closed the writer's file,
    the file holds what it held at the start followed by the records the
    writer has received, in the order in which they were sent, and the
    error handler is not called. *)
Theorem records_reach_the_file_in_order (ls : list Label) (s0 s : Sys)
    (h : nat) (d0 : FileDesc) (c0 : string) :
  sent s0 = [] -> appendCh s0 = [] ->
  file (listener s0) = Some h ->
  fds (os_world s0) !! h = Some d0 -> fd_append d0 = true ->
  inodes (os_world s0) !! fd_inode d0 = Some c0 ->
  (forall n, faults (env (os_world s0)) n = None) ->
  run ls s0 = Some s ->
  (forall t log, (t, log) ∈ sent s ->
      wrap64 (curFileSize (listener s0)
              + Z.of_nat (String.length (FormatLog (env (os_world s0)) log)))
      <= MaxFileSize (listener s0)) ->
  map snd (sent s) = received s ++ appendCh s
  /\ exists d, fds (os_world s) !! h = Some d
       /\ (fd_open d = true ->
           inodes (os_world s) !! fd_inode d0 =
             Some (c0 +:+ rendered (env (os_world s0)) (received s))
           /\ sink (os_world s) = sink (os_world s0)).
Proof.
  intros Hs Hq Hf Hd Ha Hc Hfaults Hrun Hmax.
  assert (Hin : in_order (env (os_world s0)) h (fd_inode d0) c0 (sink (os_world s0)) s0).
  { split; [reflexivity|]. exists [], d0. rewrite Hs, Hq. cbn.
    rewrite string_append_nil. repeat split; assumption. }
  destruct (run_in_order _ _ _ _ _ ls s0 s Hfaults Hf Hmax Hin Hrun)
    as (_ & done & d & H1 & H2 & _ & _ & H3).
  assert (R : received s = done).
  { unfold received. rewrite H1. apply take_app_length'.
    apply (f_equal (@length _)) in H1. rewrite length_map, length_app in H1. lia. }
  rewrite R. split; [exact H1|]. exists d. split; assumption.
Qed.

Lemma records_reach_the_file_in_order_witness :
  file_at (os_world (after in_order_schedule roomy)) "/log" = Some "abcdfirst;secnd;"
  /\ sink (os_world (after in_order_schedule roomy)) = [].
Proof.
  destruct (records_reach_the_file_in_order in_order_schedule roomy
           (after in_order_schedule roomy) 0%nat
           {| fd_inode := 0; fd_open := true; fd_append := true; fd_pos := 0 |}
           "abcd") as (_ & d & Hd & H).
  - vm_compute; reflexivity.
  - vm_compute; reflexivity.
  - vm_compute; reflexivity.
  - vm_compute; reflexivity.
  - vm_compute; reflexivity.
  - vm_compute; reflexivity.
  - intros n. reflexivity.
  - vm_compute; reflexivity.
  - assert (E : sent (after in_order_schedule roomy) =
                  [(0%nat, record "first;"); (0%nat, record "secnd;")])
      by (vm_compute; reflexivity).
    intros t log Hin. rewrite E in Hin.
    apply elem_of_cons in Hin as [[= -> ->]|Hin]; [vm_compute; discriminate|].
    apply elem_of_cons in Hin as [[= -> ->]|Hin]; [vm_compute; discriminate|].
    apply elem_of_nil in Hin. destruct Hin.
  - vm_compute in Hd. injection Hd as <-. destruct (H eq_refl) as [H1 H2].
    split; [|exact H2].
    unfold file_at. refine (eq_trans _ (eq_trans H1 _)); vm_compute; reflexivity.
Defined.

(** ** Waiting for the queue *)

Lemma queued_split (s : Sys) (done qd : list (nat * Log)) :
  sent s = done ++ qd -> map snd qd = appendCh s -> queued s = qd.
Proof.
  intros H1 H2. unfold queued. rewrite H1. apply drop_app_length'.
  rewrite <- H2, length_app, length_map. lia.
Qed.

Lemma step_drained (l : Label) (s s' : Sys) (done qd : list (nat * Log)) :
  sent s = done ++ qd -> map snd qd = appendCh s -> drained qd s ->
  step l s = Some s' ->
  exists done' qd',
    sent s' = done' ++ qd' /\ map snd qd' = appendCh s' /\ drained qd' s'.
Proof.
  intros Hs Hq (J2 & J3 & J4).
  pose (sending := fun p : ClientPc =>
          match p with Idle | SendWarning _ _ | SendLog _ => True | _ => False end).
  assert (Hmove : forall t c0 c log a,
            clients s !! t = Some c0 -> sending (pc c0) -> sending (pc c) ->
            append_move t c log a s = Some s' ->
            exists done' qd',
              sent s' = done' ++ qd' /\ map snd qd' = appendCh s' /\ drained qd' s').
  { intros t c0 c log a Hc Hpc0 Hpc H.
    pose proof (append_move_sent _ _ _ _ _ _ H) as HS.
    unfold append_move in H.
    destruct (Append_step _ _ _ _) as [[[a' q'] w']|] eqn:E; [|discriminate].
    injection H as <-. cbn [sent appendCh] in HS.
    assert (Hpc' : forall t1 c1, <[t := match a' with
                | AtSelect => c
                | AtSendWarning warning => set_pc (SendWarning warning log) c
                | AtSendLog => set_pc (SendLog log) c
                | AppendReturned r => ret_to r c
                end]> (clients s) !! t1 = Some c1 ->
              pc c1 = FileClose ->
              t1 <> t /\ clients s !! t1 = Some c1).
    { intros t1 c1 H1 Hp. destruct (decide (t1 = t)) as [->|N].
      - rewrite list_lookup_insert_eq in H1 by (apply lookup_lt_Some in Hc; exact Hc).
        injection H1 as <-. exfalso.
        destruct a', (pc c); cbn in Hp, Hpc; try discriminate; contradiction.
      - rewrite list_lookup_insert_ne in H1 by congruence. split; assumption. }
    assert (Hrecv : forall t1, (exists c1, clients s !! t1 = Some c1 /\ pc c1 = ReplyRecv) ->
              t1 <> t).
    { intros t1 (c1 & H1 & Hp) ->. rewrite Hc in H1. injection H1 as <-.
      rewrite Hp in Hpc0. exact Hpc0. }
    assert (J4' : forall t1, listener_pc s = ReplyEval t1
                    \/ (exists b, listener_pc s = ReplySend t1 b) ->
              exists c1, <[t := match a' with
                | AtSelect => c
                | AtSendWarning warning => set_pc (SendWarning warning log) c
                | AtSendLog => set_pc (SendLog log) c
                | AppendReturned r => ret_to r c
                end]> (clients s) !! t1 = Some c1 /\ pc c1 = ReplyRecv).
    { intros t1 H1. destruct (J4 t1 H1) as (c1 & H2 & Hp). exists c1.
      split; [|exact Hp].
      rewrite list_lookup_insert_ne; [exact H2|].
      intros <-. apply (Hrecv t); eauto. }
    destruct HS as [[HS1 HS2]|(x & HS1 & HS2)].
    - exists done, qd. unfold drained. cbn [sent appendCh clients listener_pc].
      rewrite HS2 in *. split; [congruence|].
      split; [exact Hq|]. split; [exact J2|]. split; [|exact J4'].
      intros t1 c1 H1 Hp. destruct (Hpc' t1 c1 H1 Hp) as [_ H2].
      exact (J3 t1 c1 H2 Hp).
    - exists done, (qd ++ [(t, x)]). unfold drained.
      cbn [sent appendCh clients listener_pc]. 
      split; [rewrite (app_assoc done), <- Hs; exact HS1|].
      split; [rewrite map_app, Hq; symmetry; exact HS2|].
      split; [|split; [|exact J4']].
      + intros t1 H1 y Hy. apply elem_of_app in Hy as [Hy|Hy]; [exact (J2 t1 H1 y Hy)|].
        apply list_elem_of_singleton in Hy. injection Hy as -> ->.
        apply (Hrecv t); [|reflexivity]. apply J4. right. eauto.
      + intros t1 c1 H1 Hp y Hy. destruct (Hpc' t1 c1 H1 Hp) as [N H2].
        apply elem_of_app in Hy as [Hy|Hy]; [exact (J3 t1 c1 H2 Hp y Hy)|].
        apply list_elem_of_singleton in Hy. injection Hy as -> ->. congruence. }
  assert (Hpcs : forall t c c' (cs := <[t := c']> (clients s)),
            clients s !! t = Some c -> pc c <> ReplyRecv -> pc c' <> FileClose ->
            (forall t1 c1, cs !! t1 = Some c1 -> pc c1 = FileClose ->
               clients s !! t1 = Some c1)
            /\ (forall t1, (exists c1, clients s !! t1 = Some c1 /\ pc c1 = ReplyRecv) ->
                  exists c1, cs !! t1 = Some c1 /\ pc c1 = ReplyRecv)).
  { intros t c c' cs Hc Hp Hp'. subst cs. split.
    - intros t1 c1 H1 Hp1. destruct (decide (t1 = t)) as [->|N].
      + rewrite list_lookup_insert_eq in H1 by (apply lookup_lt_Some in Hc; exact Hc).
        congruence.
      + rewrite list_lookup_insert_ne in H1 by congruence. exact H1.
    - intros t1 (c1 & H1 & Hp1). exists c1. split; [|exact Hp1].
      rewrite list_lookup_insert_ne; [exact H1|]. intros <-. congruence. }
  destruct l as [t| | |t| |]; unfold step.
  - unfold client_move. destruct (clients s !! t) as [c|] eqn:Hc; [|discriminate]. cbn.
    destruct (pc c) eqn:Hpc; try discriminate.
    + destruct (todo c) as [|[log|] ?]; [discriminate| |].
      * apply (Hmove t c (pop_call c) log AtSelect); [exact Hc| |]; cbn; rewrite Hpc; exact I.
      * intros [= <-]. exists done, qd. unfold drained. cbn.
        destruct (Hpcs t c (set_pc SyncSend (pop_call c))) as [P1 P2];
          [exact Hc|congruence|discriminate|].
        repeat split; try assumption.
        -- intros t1 c1 H1 Hp1. exact (J3 t1 c1 (P1 t1 c1 H1 Hp1) Hp1).
        -- intros t1 H1. apply P2, J4, H1.
    + apply (Hmove t c c log (AtSendWarning warning)); [exact Hc| |]; cbn; rewrite Hpc; exact I.
    + apply (Hmove t c c log AtSendLog); [exact Hc| |]; cbn; rewrite Hpc; exact I.
    + destruct (call Close_file _) as [r fr]. intros [= <-].
      exists done, qd. unfold drained. cbn.
      destruct (Hpcs t c (ret_to r c)) as [P1 P2];
        [exact Hc|congruence|discriminate|].
      repeat split; try assumption.
      * intros t1 c1 H1 Hp1. exact (J3 t1 c1 (P1 t1 c1 H1 Hp1) Hp1).
      * intros t1 H1. apply P2, J4, H1.
  - destruct (listener_pc s) eqn:Hl; try discriminate.
    destruct (appendCh s) as [|log q] eqn:Hqq; [discriminate|].
    intros [= <-].
    destruct (listener_runs_proj (call (reallyAppend log true)) (Loop true) q s)
      as (H1 & H2 & H3 & H4 & _).
    destruct qd as [|[t0 x0] qd]; [discriminate|]. injection Hq as -> Hq.
    exists (done ++ [(t0, log)]), qd. unfold drained. rewrite H1, H2, H3, H4, <- app_assoc.
    split; [exact Hs|]. split; [exact Hq|]. split; [discriminate|]. split.
    + intros t1 c1 Hc1 Hp1 y Hy. apply (J3 t1 c1 Hc1 Hp1 y). right. exact Hy.
    + intros t1 [H|[b H]]; discriminate H.
  - destruct (listener_pc s) as [[|]| |] eqn:Hl; try discriminate.
    destruct (appendCh s) eqn:Hqq; [|discriminate].
    intros [= <-].
    match goal with |- context [listener_runs ?m ?p ?q ?s] =>
      destruct (listener_runs_proj m p q s) as (H1 & H2 & H3 & H4 & _) end.
    exists done, qd. unfold drained. rewrite H1, H2, H3, H4.
    split; [exact Hs|]. split; [exact Hq|]. split; [discriminate|]. split.
    + exact J3.
    + intros t1 [H|[b H]]; discriminate H.
  - destruct (listener_pc s) as [[|]| |] eqn:Hl; try discriminate.
    destruct (clients s !! t) as [c|] eqn:Hc; [|discriminate]. cbn.
    destruct (pc c) eqn:Hpc; try discriminate. intros [= <-].
    exists done, qd. unfold drained. cbn.
    split; [exact Hs|]. split; [exact Hq|]. split; [discriminate|]. split.
    + intros t1 c1 H1 Hp1. apply (J3 t1 c1); [|exact Hp1].
      destruct (decide (t1 = t)) as [->|N].
      * rewrite list_lookup_insert_eq in H1 by (apply lookup_lt_Some in Hc; exact Hc).
        injection H1 as <-. discriminate Hp1.
      * rewrite list_lookup_insert_ne in H1 by congruence. exact H1.
    + intros t1 [[= <-]|[b [=]]]. exists (set_pc ReplyRecv c). split; [|reflexivity].
      apply list_lookup_insert_eq. apply lookup_lt_Some in Hc. exact Hc.
  - destruct (listener_pc s) eqn:Hl; try discriminate. intros [= <-].
    exists done, qd. unfold drained. cbn.
    split; [exact Hs|]. split; [exact Hq|]. split; [|split; [exact J3|]].
    + intros t1 [= <- Hlen] y Hy.
      destruct (appendCh s); [|discriminate Hlen].
      destruct qd; [|discriminate Hq]. apply elem_of_nil in Hy. exact Hy.
    + intros t1 [[=]|[b [= <- _]]]. apply J4. left. reflexivity.
  - destruct (listener_pc s) as [| |t b] eqn:Hl; try discriminate.
    destruct (clients s !! t) as [c|] eqn:Hc; [|discriminate]. cbn.
    destruct (pc c) eqn:Hpc; try discriminate. intros [= <-].
    exists done, qd. unfold drained. cbn.
    split; [exact Hs|]. split; [exact Hq|]. split; [discriminate|]. split.
    + intros t1 c1 H1 Hp1. destruct (decide (t1 = t)) as [->|N].
      * rewrite list_lookup_insert_eq in H1 by (apply lookup_lt_Some in Hc; exact Hc).
        injection H1 as <-. cbn in Hp1. destruct b; [|discriminate Hp1].
        apply J2. reflexivity.
      * rewrite list_lookup_insert_ne in H1 by congruence. exact (J3 t1 c1 H1 Hp1).
    + intros t1 [[=]|[b' [=]]].
Qed.

Lemma run_drained (ls : list Label) :
  forall (s s' : Sys) (done qd : list (nat * Log)),
    sent s = done ++ qd -> map snd qd = appendCh s -> drained qd s ->
    run ls s = Some s' ->
    exists done' qd',
      sent s' = done' ++ qd' /\ map snd qd' = appendCh s' /\ drained qd' s'.
Proof.
  induction ls as [|l ls IH]; intros s s' done qd Hs Hq Hd; cbn.
  - intros [= <-]. eauto.
  - destruct (step l s) as [s1|] eqn:E; [|discriminate]. cbn.
    destruct (step_drained _ _ _ _ _ Hs Hq Hd E) as (done1 & qd1 & H1 & H2 & H3).
    apply (IH s1 s' done1 qd1); assumption.
Qed.

(** When [waitUntilEmpty] has returned in a client, so that [Close] is
    about to close the file, the writer has taken every record this client
    had sent from the queue: what is queued then was sent by others. *)
Theorem Close_waits_for_the_callers_records (ls : list Label) (s0 s : Sys)
    (t : nat) (c : Client) (x : Log) :
  sent s0 = [] -> appendCh s0 = [] ->
  (exists b, listener_pc s0 = Loop b) ->
  (forall t0 c0, clients s0 !! t0 = Some c0 -> pc c0 = Idle) ->
  run ls s0 = Some s ->
  clients s !! t = Some c -> pc c = FileClose ->
  (t, x) ∉ queued s.
Proof.
  intros Hs Hq [b Hl] Hc Hrun Ht Hp.
  assert (Hd : drained [] s0).
  { split; [|split].
    - intros t0 H. congruence.
    - intros t0 c0 H0 Hp0. rewrite (Hc t0 c0 H0) in Hp0. discriminate Hp0.
    - intros t0 [H|[b0 H]]; congruence. }
  destruct (run_drained ls s0 s [] [] Hs (eq_sym Hq) Hd Hrun)
    as (done & qd & H1 & H2 & _ & J3 & _).
  rewrite (queued_split s done qd H1 H2). exact (J3 t c Ht Hp x).
Qed.

Lemma Close_waits_for_the_callers_records_witness :
  (0%nat, record "first;") ∉ queued (after two_clients_schedule two_clients).
Proof.
  apply (Close_waits_for_the_callers_records two_clients_schedule two_clients
           (after two_clients_schedule two_clients) 0%nat
           {| pc := FileClose; todo := []; returned := [None] |}).
  - vm_compute; reflexivity.
  - vm_compute; reflexivity.
  - exists false. vm_compute; reflexivity.
  - intros t0 c0 H. destruct t0 as [|[|t0]]; [injection H as <-; reflexivity..|].
    discriminate H.
  - vm_compute; reflexivity.
  - vm_compute; reflexivity.
  - reflexivity.
Defined.

(** In that run the record of the other client is still queued when the
    first client is about to close the file. *)
Example two_clients_queue :
  queued (after two_clients_schedule two_clients) = [(1%nat, record "other;")]
  /\ (pc <$> clients (after two_clients_schedule two_clients)) = [FileClose; Idle].
Proof. vm_compute. split; reflexivity. Qed.

(** ** Closing twice *)

Lemma keeps_closed_fds (w w' : World) : fds w' = fds w -> keeps_closed w w'.
Proof. intros E h d H _. rewrite E. exact H. Qed.

Lemma rotate_keeps_closed (fr : Frame) :
  keeps_closed (world fr) (world (rotate fr).2).
Proof.
  unfold rotate, rotate_with. unfold_m. cbn.
  destruct (file (self fr)) as [h|]; cbn.
  1: os_case; cbn.
  all: os_case; cbn.
  all: match goal with |- context [renameLogFile ?o ?n ?f] =>
      pose proof (renameLogFile_keeps_closed o n f) as H;
      destruct (renameLogFile o n f) as [[|] fr'] end; cbn in *.
  all: try (os_case; cbn).
  all: try match goal with |- context [logHeader_with ?r ?f0] =>
      pose proof (logHeader_keeps_closed r f0) as H';
      destruct (logHeader_with r f0) as [u fr''] end; cbn in *.
  all: closed_chain.
Qed.

Lemma reallyAppend_keeps_closed (log : Log) (trackSize : bool) (fr : Frame) :
  keeps_closed (world fr) (world (reallyAppend log trackSize fr).2).
Proof.
  unfold reallyAppend, reallyAppend_with. unfold_m. cbn.
  destruct (file (self fr)); cbn; [|same_fds].
  os_case; cbn; [|closed_chain].
  destruct trackSize; cbn; [|closed_chain].
  destruct (_ <? _)%Z; cbn; [|closed_chain].
  match goal with |- context [rotate ?f0] =>
    pose proof (rotate_keeps_closed f0) as H;
    destruct (rotate f0) as [u fr'] end; cbn in *.
  closed_chain.
Qed.

Lemma step_keeps_closed (l : Label) (s s' : Sys) :
  step l s = Some s' -> keeps_closed (os_world s) (os_world s').
Proof.
  assert (Hmove : forall t c log a, append_move t c log a s = Some s' ->
            keeps_closed (os_world s) (os_world s')).
  { intros t c log a H. unfold append_move in H.
    destruct (Append_step _ _ _ _) as [[[a' q'] w']|] eqn:E; [|discriminate].
    apply Append_step_world in E as (_ & _ & E & _).
    injection H as <-. cbn. apply keeps_closed_fds. exact E. }
  destruct l as [t| | |t| |]; unfold step.
  - unfold client_move. destruct (clients s !! t) as [c|]; [|discriminate]. cbn.
    destruct (pc c); try discriminate; try apply Hmove.
    + destruct (todo c) as [|[log|] ?]; [discriminate|apply Hmove|].
      intros [= <-]. apply keeps_closed_refl.
    + unfold_m. cbn. destruct (file (appender s)) as [h'|]; cbn.
      2: { intros [= <-]. apply keeps_closed_refl. }
      destruct (os_Close h' (os_world s)) as [r w'] eqn:E. intros [= <-].
      apply os_Close_effect in E as [_ _ _ _ K]. exact K.
  - destruct (listener_pc s); try discriminate.
    destruct (appendCh s) as [|log q]; [discriminate|].
    intros [= <-].
    destruct (listener_runs_proj (call (reallyAppend log true)) (Loop true) q s)
      as (_ & _ & _ & _ & _ & H6).
    rewrite H6, call_world.
    exact (reallyAppend_keeps_closed log true {| self := listener s; world := os_world s |}).
  - destruct (listener_pc s) as [[|]| |]; try discriminate.
    destruct (appendCh s); [|discriminate].
    intros [= <-]. unfold listener_runs. unfold_m. cbn.
    destruct (file (listener s)) as [h|]; cbn; [|apply keeps_closed_refl].
    destruct (os_Sync h (os_world s)) as [r w'] eqn:E.
    apply os_Sync_effect in E as [_ _ _ _ K]. exact K.
  - destruct (listener_pc s) as [[|]| |]; try discriminate.
    destruct (clients s !! t) as [c|]; [|discriminate]. cbn.
    destruct (pc c); try discriminate. intros [= <-]. apply keeps_closed_refl.
  - destruct (listener_pc s); try discriminate. intros [= <-].
    apply keeps_closed_refl.
  - destruct (listener_pc s) as [| |t b]; try discriminate.
    destruct (clients s !! t) as [c|]; [|discriminate]. cbn.
    destruct (pc c); try discriminate. intros [= <-]. apply keeps_closed_refl.
Qed.

Lemma run_keeps_closed (ls : list Label) :
  forall s s' : Sys, run ls s = Some s' -> keeps_closed (os_world s) (os_world s').
Proof.
  induction ls as [|l ls IH]; intros s s'; cbn.
  - intros [= <-]. apply keeps_closed_refl.
  - destruct (step l s) as [s1|] eqn:E; [|discriminate]. cbn. intros H.
    exact (keeps_closed_trans _ _ _ (step_keeps_closed _ _ _ E) (IH _ _ H)).
Qed.

(** Once a [Close] has closed the file, every later [Close] returns the
    error of a file that is closed already; it changes no file and does not
    call the error handler. *)
Theorem Close_after_Close_fails (ls : list Label) (s s1 s2 : Sys) (t t' : nat)
    (c c' : Client) (h : nat) :
  clients s !! t = Some c -> pc c = FileClose ->
  file (appender s) = Some h -> is_Some (fds (os_world s) !! h) ->
  step (Move t) s = Some s1 -> run ls s1 = Some s2 ->
  clients s2 !! t' = Some c' -> pc c' = FileClose ->
  exists s3, step (Move t') s2 = Some s3
    /\ clients s3 !! t' = Some (ret_to (Some ErrClosed) c')
    /\ inodes (os_world s3) = inodes (os_world s2)
    /\ dir (os_world s3) = dir (os_world s2)
    /\ sink (os_world s3) = sink (os_world s2).
Proof.
  intros Hc Hp Hf Hv Hstep Hrun Hc' Hp'.
  assert (Hcl : exists d, fds (os_world s1) !! h = Some d /\ fd_open d = false).
  { revert Hstep. unfold step, client_move. rewrite Hc. cbn. rewrite Hp.
    unfold_m. cbn. rewrite Hf. cbn.
    destruct (os_Close h (os_world s)) as [r w'] eqn:E. intros [= <-]. cbn.
    exact (os_Close_closes _ _ _ _ Hv E). }
  destruct Hcl as (d & Hd & Ho).
  pose proof (run_keeps_closed ls s1 s2 Hrun h d Hd Ho) as Hd2.
  assert (Ha : file (appender s2) = Some h).
  { destruct (run_structs _ _ _ Hrun) as [_ ->].
    destruct (step_structs _ _ _ Hstep) as [_ ->]. exact Hf. }
  unfold step, client_move. rewrite Hc'. cbn. rewrite Hp'.
  unfold_m. cbn. rewrite Ha. cbn. unfold os_Close.
  rewrite (open_fd_closed _ _ _ Hd2 Ho). cbn.
  eexists. split; [reflexivity|]. cbn.
  split; [apply list_lookup_insert_eq; apply lookup_lt_Some in Hc'; exact Hc'|].
  repeat split; reflexivity.
Qed.

Lemma Close_after_Close_fails_witness :
  exists s3,
    step (Move 0)
      (after until_FileClose (after (until_FileClose ++ [Move 0%nat]) closes_twice))
      = Some s3
    /\ (returned <$> clients s3) = [[None; Some ErrClosed]].
Proof.
  destruct (Close_after_Close_fails until_FileClose
              (after until_FileClose closes_twice)
              (after (until_FileClose ++ [Move 0%nat]) closes_twice)
              (after until_FileClose (after (until_FileClose ++ [Move 0%nat]) closes_twice))
              0%nat 0%nat
              {| pc := FileClose; todo := [CallClose]; returned := [] |}
              {| pc := FileClose; todo := []; returned := [None] |} 0%nat)
    as (s3 & H1 & H2 & _); try (vm_compute; reflexivity).
  - vm_compute. eexists. reflexivity.
  - exists s3. split; [exact H1|].
    assert (L : length (clients s3) = 1%nat).
    { revert H1. vm_compute. intros [= <-]. reflexivity. }
    destruct (clients s3) as [|c0 [|? ?]]; try discriminate L.
    injection H2 as ->. reflexivity.
Defined.

(** ** What a rotation does to the files *)

Lemma newRotatedFilename_fresh (b : string) (w : World) :
  (newRotatedFilename b w).1 <> b.
Proof.
  unfold newRotatedFilename. cbn [fst]. cbv beta iota delta [String.concat].
  intros H. apply (f_equal String.length) in H.
  rewrite !string_app_length in H. cbn [String.length] in H. lia.
Qed.

Lemma os_Close_fs (h : nat) (w w' : World) (e : option Cause) :
  os_Close h w = (e, w') ->
  dir w' = dir w /\ inodes w' = inodes w /\ next_inode w' = next_inode w.
Proof.
  unfold os_Close. destruct (open_fd w h); intros [= <- <-]; repeat split; reflexivity.
Qed.

Lemma os_Rename_ok (o n : string) (w w' : World) :
  os_Rename o n w = (None, w') ->
  exists i, dir w !! o = Some i
    /\ dir w' = <[n := i]> (delete o (dir w))
    /\ inodes w' = inodes w /\ next_inode w' = next_inode w.
Proof.
  unfold os_Rename. destruct (fault w); [discriminate|].
  destruct (dir w !! o) as [i|]; [|discriminate].
  intros [= <-]. exists i. repeat split; reflexivity.
Qed.

Lemma os_Rename_failed (o n : string) (w w' : World) (e : Cause) :
  os_Rename o n w = (Some e, w') ->
  dir w' = dir w /\ inodes w' = inodes w.
Proof.
  unfold os_Rename. destruct (fault w); [intros [= <- <-]; split; reflexivity|].
  destruct (dir w !! o) as [i|]; [discriminate|].
  intros [= <- <-]. split; reflexivity.
Qed.

Lemma os_Create_new (p : string) (w w' : World) (f : nat) :
  dir w !! p = None ->
  os_OpenFile p flags_create w = (inl f, w') ->
  dir w' = <[p := next_inode w]> (dir w)
  /\ inodes w' = <[next_inode w := ""]> (inodes w)
  /\ fds w' !! f = Some {| fd_inode := next_inode w; fd_open := true;
                           fd_append := false; fd_pos := 0 |}.
Proof.
  intros D. unfold os_OpenFile. destruct (fault w); [discriminate|].
  rewrite D. cbn. intros [= <- <-]. cbn. repeat split.
  apply list_lookup_middle. reflexivity.
Qed.

Lemma os_WriteString_other (h : nat) (msg : string) (w w' : World)
    (r : Z + Cause) (d : FileDesc) (j : nat) :
  fds w !! h = Some d -> j <> fd_inode d ->
  os_WriteString h msg w = (r, w') ->
  dir w' = dir w /\ inodes w' !! j = inodes w !! j.
Proof.
  intros Hd Hj. unfold os_WriteString, open_fd. rewrite Hd.
  destruct (fd_open d); [destruct (fault w)|]; intros [= <- <-]; cbn;
    (split; [reflexivity|]); try reflexivity.
  apply lookup_insert_ne. congruence.
Qed.

Lemma os_OpenFile_rdwr (p : string) (w w' : World) (r : nat + Cause) :
  os_OpenFile p flags_rdwr w = (r, w') -> dir w' = dir w /\ inodes w' = inodes w.
Proof.
  unfold os_OpenFile. destruct (fault w); [intros [= <- <-]; split; reflexivity|].
  destruct (dir w !! p); cbn; intros [= <- <-]; split; reflexivity.
Qed.

Lemma archive_fs (wf : World) (d0 : gmap string nat) (in0 : gmap nat string)
    (path newname : string) (i nx : nat) (c : string) :
  dir wf = <[path := nx]> (<[newname := i]> (delete path d0)) ->
  inodes wf !! i = <[nx := ""]> in0 !! i ->
  in0 !! i = Some c -> i <> nx -> newname <> path ->
  file_at wf newname = Some c /\ dir wf !! path = Some nx.
Proof.
  intros D I Hc Hi Hn. unfold file_at. rewrite D. split.
  - rewrite lookup_insert_ne by congruence. rewrite lookup_insert_eq. cbn.
    rewrite I, lookup_insert_ne by congruence. exact Hc.
  - apply lookup_insert_eq.
Qed.

(** A rotation whose rename and create succeed moves the log file to the
    name built from the clock, with all it held, and leaves a new file at
    the path: whatever was at the archive name before is replaced, and the
    header, if there is one, goes to the new file only. *)
Theorem rotation_archives_the_file (fr : Frame) (h i : nat) (c newname : string) :
  file (self fr) = Some h ->
  dir (world fr) !! absPath (self fr) = Some i ->
  inodes (world fr) !! i = Some c ->
  i <> next_inode (world fr) ->
  (SysRename (absPath (self fr)) newname, None)
    ∈ new_calls (world fr) (world (rotate fr).2) ->
  (SysOpen (absPath (self fr)) flags_create, None)
    ∈ new_calls (world fr) (world (rotate fr).2) ->
  newname = (newRotatedFilename (absPath (self fr)) (world fr)).1
  /\ file_at (world (rotate fr).2) newname = Some c
  /\ dir (world (rotate fr).2) !! absPath (self fr) = Some (next_inode (world fr))
  /\ dir (world (rotate fr).2) =
       <[absPath (self fr) := next_inode (world fr)]>
         (<[newname := i]> (delete (absPath (self fr)) (dir (world fr)))).
Proof.
  intros Hf Hd Hi Hn.
  unfold rotate, rotate_with, renameLogFile, logHeader_with, reallyAppend_with,
    simpleLog.
  unfold_m. rewrite Hf. cbn.
  destruct (os_Close h (world fr)) as [rc w1] eqn:E1.
  pose proof (os_Close_fs _ _ _ _ E1) as (D1 & I1 & N1).
  apply os_Close_effect in E1 as [T1 S1 K1 V1 _].
  assert (Hname : forall s0,
            (newRotatedFilename (absPath (self fr)) (set_sink s0 w1)).1 =
            (newRotatedFilename (absPath (self fr)) (world fr)).1
            /\ (newRotatedFilename (absPath (self fr)) w1).1 =
               (newRotatedFilename (absPath (self fr)) (world fr)).1).
  { intros s0. unfold newRotatedFilename. cbn. rewrite K1, V1. split; reflexivity. }
  destruct rc as [ec|]; cbn.
  all: rewrite newRotatedFilename_eq; cbn.
  all: match goal with |- context [os_Rename ?o ?n ?w] =>
         assert (Hnn : n = (newRotatedFilename (absPath (self fr)) (world fr)).1)
           by (first [exact (proj1 (Hname _))|exact (proj2 (Hname []))]);
         assert (Hne : n <> absPath (self fr))
           by (rewrite Hnn; apply newRotatedFilename_fresh);
         clear Hname; generalize dependent n; intros nn Hnn Hne;
         destruct (os_Rename o nn w) as [[er|] w3] eqn:E3 end; cbn.
  all: pose proof (os_Rename_effect _ _ _ _ _ E3) as [T3 S3 K3 V3 _];
       cbn in T3, S3, K3, V3.
  all: match goal with |- context [os_OpenFile ?p ?fl ?w] =>
         destruct (os_OpenFile p fl w) as [[f|eo] w4] eqn:E4 end; cbn.
  all: pose proof (os_OpenFile_effect _ _ _ _ _ E4) as [T4 S4 K4 V4 _];
       cbn in T4, S4, K4, V4.
  (* the rename failed, or the new file could not be created *)
  all: try solve
    [ intros M1 M2; exfalso; unfold new_calls in M1, M2; cbn in M1, M2;
      rewrite T4, T3, T1, <- !app_assoc, drop_app_length in M1, M2;
      cbn in M1, M2; elem_of_calls M1; elem_of_calls M2 ].
  (* the rotation succeeded *)
  all: apply os_Rename_ok in E3 as (i' & D3 & D3' & I3 & N3); cbn in D3, D3', I3, N3.
  all: rewrite D1, Hd in D3; injection D3 as <-.
  all: assert (D3n : dir w3 !! absPath (self fr) = None)
         by (rewrite D3', lookup_insert_ne by exact Hne; apply lookup_delete_eq).
  all: destruct (os_Create_new _ _ _ _ D3n E4) as (D4 & I4 & F4);
       cbn in D4, I4, F4.
  all: rewrite N3, N1 in D4, I4, F4.
  all: rewrite D3', D1 in D4. 
  all: rewrite I3, I1 in I4.
  all: destruct (headerGenerator (self fr)) as [gen|]; cbn.
  all: try match goal with |- context [os_WriteString ?a ?m ?w] =>
         destruct (os_WriteString a m w) as [r w5] eqn:E5;
         pose proof (os_WriteString_other a m w w5 r _ i F4 Hn E5) as [D5 I5];
         apply os_WriteString_effect in E5 as [T5 S5 K5 V5 _];
         cbn in T5, S5, K5, V5, D5, I5;
         rewrite D4 in D5; rewrite I4 in I5;
         destruct r as [nw|ew]; cbn
       end.
  all: intros M1 _.
  all: unfold new_calls in M1; cbn in M1.
  all: rewrite ?T5, T4, T3, T1, <- !app_assoc, drop_app_length in M1.
  all: cbn in M1; elem_of_calls M1.
  all: injection M1 as ->.
  all: split; [exact Hnn|].
  all: match goal with |- file_at ?wf _ = _ /\ _ =>
         assert (DF : dir wf = <[absPath (self fr) := next_inode (world fr)]>
                     (<[nn := i]> (delete (absPath (self fr)) (dir (world fr)))))
           by (cbn; first [exact D5|exact D4]);
         assert (IF : inodes wf !! i = <[next_inode (world fr) := ""]> (inodes (world fr)) !! i)
           by (cbn; first [exact I5|rewrite I4; reflexivity]);
         destruct (archive_fs wf _ _ _ _ _ _ _ DF IF Hi Hn Hne) as [A1 A2]
       end.
  all: split; [exact A1|]. all: split; [exact A2|exact DF].
Qed.

Lemma rotation_archives_the_file_witness :
  file_at (world (rotate grown_frame).2) "/log.2013-04-05T06-07-08" = Some "abcd"
  /\ dir (world (rotate grown_frame).2) !! "/log" = Some 1%nat.
Proof.
  assert (E : new_calls (world grown_frame) (world (rotate grown_frame).2) =
                [(SysClose 0, None); (SysRename "/log" "/log.2013-04-05T06-07-08", None);
                 (SysOpen "/log" flags_create, None)])
    by (vm_compute; reflexivity).
  destruct (rotation_archives_the_file grown_frame 0%nat 0%nat "abcd"
              "/log.2013-04-05T06-07-08") as (_ & H1 & H2 & _).
  - reflexivity.
  - vm_compute; reflexivity.
  - vm_compute; reflexivity.
  - vm_compute. discriminate.
  - rewrite E. apply list_elem_of_further, list_elem_of_here.
  - rewrite E. apply list_elem_of_further, list_elem_of_further, list_elem_of_here.
  - split; [exact H1|exact H2].
Defined.

(** A rotation whose rename fails changes no file: the log file stays at
    its path with what it holds.  The failure goes to the error handler,
    the path is opened again, and no new file is created. *)
Theorem failed_rename_keeps_the_files (fr : Frame) (h : nat) (newname : string)
    (e : Cause) :
  file (self fr) = Some h ->
  (SysRename (absPath (self fr)) newname, Some e)
    ∈ new_calls (world fr) (world (rotate fr).2) ->
  dir (world (rotate fr).2) = dir (world fr)
  /\ inodes (world (rotate fr).2) = inodes (world fr)
  /\ RenameError (absPath (self fr)) newname e ∈ sink (world (rotate fr).2)
  /\ exists rc ro,
       new_calls (world fr) (world (rotate fr).2) =
         [(SysClose h, rc); (SysRename (absPath (self fr)) newname, Some e);
          (SysOpen (absPath (self fr)) flags_rdwr, ro)].
Proof.
  intros Hf.
  unfold rotate, rotate_with, renameLogFile, logHeader_with, reallyAppend_with,
    simpleLog.
  unfold_m. rewrite Hf. cbn.
  destruct (os_Close h (world fr)) as [rc w1] eqn:E1.
  pose proof (os_Close_fs _ _ _ _ E1) as (D1 & I1 & N1).
  apply os_Close_effect in E1 as [T1 S1 K1 V1 _].
  destruct rc as [ec|]; cbn.
  all: rewrite newRotatedFilename_eq; cbn.
  all: match goal with |- context [os_Rename ?o ?n ?w] =>
         generalize n; intros nn;
         destruct (os_Rename o nn w) as [[er|] w3] eqn:E3 end; cbn.
  all: pose proof (os_Rename_effect _ _ _ _ _ E3) as [T3 S3 K3 V3 _];
       cbn in T3, S3, K3, V3.
  all: match goal with |- context [os_OpenFile ?p ?fl ?w] =>
         destruct (os_OpenFile p fl w) as [[f|eo] w4] eqn:E4 end; cbn.
  all: pose proof (os_OpenFile_effect _ _ _ _ _ E4) as [T4 S4 K4 V4 _];
       cbn in T4, S4, K4, V4.
  (* the rename succeeded *)
  all: try (destruct (headerGenerator (self fr)) as [gen|]; cbn).
  all: try match goal with |- context [os_WriteString ?a ?m ?w] =>
         destruct (os_WriteString a m w) as [r w5] eqn:E5;
         apply os_WriteString_effect in E5 as [T5 S5 K5 V5 _];
         cbn in T5, S5, K5, V5; destruct r as [nw|ew]; cbn
       end.
  all: try solve
    [ intros M1; exfalso; unfold new_calls in M1; cbn in M1;
      rewrite ?T5, T4, T3, T1, <- !app_assoc, drop_app_length in M1;
      cbn in M1; elem_of_calls M1 ].
  (* the rename failed *)
  all: apply os_Rename_failed in E3 as [D3 I3]; cbn in D3, I3.
  all: apply os_OpenFile_rdwr in E4 as [D4 I4]; cbn in D4, I4.
  all: intros M1; unfold new_calls in M1 |- *; cbn in M1 |- *.
  all: rewrite T4, T3, T1, <- !app_assoc, drop_app_length in M1.
  all: rewrite T4, T3, T1, <- !app_assoc, drop_app_length.
  all: cbn in M1 |- *; elem_of_calls M1.
  all: injection M1 as -> ->.
  all: split; [congruence|]. all: split; [congruence|].
  all: split; [|eexists _, _; reflexivity].
  all: rewrite ?S4, ?S3; cbn; rewrite ?S4, ?S3; cbn.
  all: repeat (apply elem_of_app; first [right; apply list_elem_of_here|left]).
Qed.

Lemma failed_rename_keeps_the_files_witness :
  map_to_list (dir (world (rotate rename_fails_frame).2)) = [("/log", 0%nat)]
  /\ map_to_list (inodes (world (rotate rename_fails_frame).2)) = [(0%nat, "abcd")].
Proof.
  assert (E : new_calls (world rename_fails_frame) (world (rotate rename_fails_frame).2) =
                [(SysClose 0, None);
                 (SysRename "/log" "/log.2013-04-05T06-07-08", Some (ErrInjected 1));
                 (SysOpen "/log" flags_rdwr, None)])
    by (vm_compute; reflexivity).
  destruct (failed_rename_keeps_the_files rename_fails_frame 0%nat
              "/log.2013-04-05T06-07-08" (ErrInjected 1)) as (H1 & H2 & _).
  - reflexivity.
  - rewrite E. apply list_elem_of_further, list_elem_of_here.
  - rewrite H1, H2. vm_compute. split; reflexivity.
Defined.

(** ** [Close] can always complete *)

Lemma run_app (l1 l2 : list Label) (s : Sys) :
  run (l1 ++ l2) s = s' ← run l1 s; run l2 s'.
Proof.
  revert s. induction l1 as [|l l1 IH]; intros s; cbn; [reflexivity|].
  destruct (step l s); cbn; [apply IH|reflexivity].
Qed.

Lemma recv_all (q : list Log) :
  forall (s : Sys) (b : bool),
    appendCh s = q -> listener_pc s = Loop b ->
    exists s', run (replicate (length q) Recv) s = Some s'
      /\ appendCh s' = [] /\ clients s' = clients s /\ sent s' = sent s
      /\ listener_pc s' = Loop (match q with [] => b | _ => true end).
Proof.
  induction q as [|log q IH]; intros s b Hq Hl; cbn.
  - exists s. repeat split; assumption.
  - unfold step. rewrite Hl, Hq. cbn.
    destruct (listener_runs_proj (call (reallyAppend log true)) (Loop true) q s)
      as (H1 & H2 & H3 & H4 & _).
    destruct (IH _ true H2 H3) as (s' & R & E1 & E2 & E3 & E4).
    exists s'. split; [exact R|]. split; [exact E1|].
    split; [congruence|]. split; [congruence|].
    rewrite E4. destruct q; reflexivity.
Qed.

(** A client that waits in [waitUntilEmpty] is never stuck: whatever is
    queued, the writer can take it, sync and answer, with no other client
    moving, and the client then stands before [self.file.Close()] with the
    queue empty. *)
Theorem Close_can_complete (s : Sys) (t : nat) (c : Client) (b : bool) :
  clients s !! t = Some c -> pc c = SyncSend -> listener_pc s = Loop b ->
  exists s', run (drain_schedule t s) s = Some s'
    /\ clients s' !! t = Some (set_pc FileClose c)
    /\ appendCh s' = [] /\ sent s' = sent s.
Proof.
  intros Hc Hp Hl. unfold drain_schedule.
  destruct (recv_all (appendCh s) s b eq_refl Hl) as (s1 & R1 & Q1 & C1 & S1 & L1).
  assert (R2 : exists s2,
             run match listener_pc s, appendCh s with
                 | Loop false, [] => []
                 | _, _ => [Default]
                 end s1 = Some s2
             /\ appendCh s2 = [] /\ clients s2 = clients s /\ sent s2 = sent s
             /\ listener_pc s2 = Loop false).
  { rewrite Hl.
    assert (D : listener_pc s1 = Loop true ->
              exists s2, run [Default] s1 = Some s2
                /\ appendCh s2 = [] /\ clients s2 = clients s /\ sent s2 = sent s
                /\ listener_pc s2 = Loop false).
    { intros L. cbn. unfold step. rewrite L, Q1. cbn.
      match goal with |- context [listener_runs ?m ?p ?q ?s] =>
        destruct (listener_runs_proj m p q s) as (H1 & H2 & H3 & H4 & _) end.
      eexists. split; [reflexivity|]. repeat split; congruence. }
    destruct b, (appendCh s) eqn:Hq; try (apply D; exact L1).
    exists s1. repeat split; assumption. }
  destruct R2 as (s2 & R2 & Q2 & C2 & S2 & L2).
  assert (Hlen : (t < length (clients s))%nat) by (apply lookup_lt_Some in Hc; exact Hc).
  pose (s3 := with_listener_pc (ReplyEval t)
                (with_clients (<[t := set_pc ReplyRecv c]> (clients s2)) s2)).
  pose (s4 := with_listener_pc (ReplySend t true) s3).
  pose (s5 := with_listener_pc (Loop false)
                (with_clients (<[t := set_pc FileClose (set_pc ReplyRecv c)]>
                                 (clients s4)) s4)).
  assert (E3 : step (Sync t) s2 = Some s3).
  { unfold step. rewrite L2, C2, Hc. cbn. rewrite Hp. subst s3. rewrite C2. reflexivity. }
  assert (E4 : step EvalLen s3 = Some s4).
  { unfold step. cbn. rewrite Q2. reflexivity. }
  assert (E5 : step Reply s4 = Some s5).
  { unfold step. cbn. rewrite list_lookup_insert_eq by (rewrite C2; exact Hlen).
    reflexivity. }
  exists s5. split.
  - rewrite run_app, R1. cbn [mbind option_bind]. rewrite run_app, R2.
    cbn [mbind option_bind].
    change (run [Sync t; EvalLen; Reply] s2) with
      (x3 ← step (Sync t) s2; x4 ← step EvalLen x3; x5 ← step Reply x4; Some x5).
    rewrite E3. cbn [mbind option_bind]. rewrite E4. cbn [mbind option_bind].
    rewrite E5. reflexivity.
  - cbn. rewrite C2, list_insert_insert_eq.
    split; [apply list_lookup_insert_eq; exact Hlen|].
    split; assumption.
Qed.

Lemma Close_can_complete_witness :
  exists s',
    run (drain_schedule 0 waiting_to_close) waiting_to_close = Some s'
    /\ clients s' !! 0%nat =
         Some (set_pc FileClose {| pc := SyncSend; todo := []; returned := [None] |})
    /\ appendCh s' = [] /\ sent s' = sent waiting_to_close.
Proof.
  apply (Close_can_complete waiting_to_close 0%nat
           {| pc := SyncSend; todo := []; returned := [None] |} false);
    vm_compute; reflexivity.
Defined.

(** ** The handles that rotations open *)

Lemma closes_only_fds (h : nat) (w w' : World) :
  fds w' = fds w -> closes_only h w w'.
Proof. intros E h' d' H1 H2. right. exists d'. rewrite <- E. split; assumption. Qed.

Lemma closes_only_trans (h : nat) (w1 w2 w3 : World) :
  closes_only h w1 w2 -> closes_only h w2 w3 -> closes_only h w1 w3.
Proof.
  intros H1 H2 h' d' H3 H4. destruct (H2 h' d' H3 H4) as [->|(d & H5 & H6)].
  - left; reflexivity.
  - exact (H1 h' d H5 H6).
Qed.

Lemma os_OpenFile_closes_only (h : nat) path fl w r w' :
  os_OpenFile path fl w = (r, w') -> closes_only h w w'.
Proof.
  assert (A : forall (l : list FileDesc) (d : FileDesc) (w1 w2 : World),
            fds w2 = fds w1 ++ [d] -> fd_open d = true -> closes_only h w1 w2).
  { intros l d w1 w2 E Ho h' d' H1 H2. right. rewrite E in H1.
    apply lookup_app_Some in H1 as [H1|[_ H1]]; [eauto|].
    apply list_lookup_singleton_Some in H1 as [_ <-]. congruence. }
  unfold os_OpenFile. destruct (fault w).
  { intros [= <- <-]. apply closes_only_fds. reflexivity. }
  destruct (dir w !! path) as [i|].
  - destruct (o_trunc fl); intros [= <- <-]; eapply (A []); cbn; reflexivity.
  - destruct (o_create fl); intros [= <- <-].
    + eapply (A []); cbn; reflexivity.
    + apply closes_only_fds. reflexivity.
Qed.

Lemma os_WriteString_closes_only (h : nat) h0 msg w r w' :
  os_WriteString h0 msg w = (r, w') -> closes_only h w w'.
Proof.
  unfold os_WriteString. destruct (open_fd w h0) as [d|] eqn:O.
  2: { intros [= <- <-]. apply closes_only_fds. reflexivity. }
  destruct (fault w).
  { intros [= <- <-]. apply closes_only_fds. reflexivity. }
  intros [= <- <-] h' d' H1 H2. cbn in H1. right.
  apply open_fd_inl in O as [O1 O2].
  destruct (decide (h' = h0)) as [->|N].
  - rewrite list_lookup_insert_eq in H1 by (apply lookup_lt_Some in O1; exact O1).
    injection H1 as <-. cbn in H2. congruence.
  - rewrite list_lookup_insert_ne in H1 by congruence. eauto.
Qed.

Lemma os_Close_closes_only (h : nat) w e w' :
  os_Close h w = (e, w') -> closes_only h w w'.
Proof.
  unfold os_Close. destruct (open_fd w h) as [d|] eqn:O.
  2: { intros [= <- <-]. apply closes_only_fds. reflexivity. }
  intros [= <- <-] h' d' H1 H2. cbn in H1.
  destruct (decide (h' = h)) as [->|N]; [left; reflexivity|right].
  rewrite list_lookup_insert_ne in H1 by congruence. eauto.
Qed.

Lemma os_Rename_closes_only (h : nat) o n w e w' :
  os_Rename o n w = (e, w') -> closes_only h w w'.
Proof.
  intros E. apply closes_only_fds. exact (os_Rename_handles _ _ _ _ _ E).
Qed.

Ltac co_case h :=
  match goal with
  | |- context [os_WriteString ?a ?m ?w] =>
      let E := fresh "E" in
      destruct (os_WriteString a m w) as [[?|?] ?] eqn:E;
      apply (os_WriteString_closes_only h) in E
  | |- context [os_Close ?a ?w] =>
      let E := fresh "E" in
      destruct (os_Close a w) as [[?|] ?] eqn:E;
      apply (os_Close_closes_only a) in E
  | |- context [os_Rename ?o ?n ?w] =>
      let E := fresh "E" in
      destruct (os_Rename o n w) as [[?|] ?] eqn:E;
      apply (os_Rename_closes_only h) in E
  | |- context [os_OpenFile ?p ?f ?w] =>
      let E := fresh "E" in
      destruct (os_OpenFile p f w) as [[?|?] ?] eqn:E;
      apply (os_OpenFile_closes_only h) in E
  end.

Ltac co_chain :=
  repeat match goal with
         | H : closes_only ?h _ ?b |- closes_only ?h ?a ?c =>
             apply (closes_only_trans h a b c); [exact H|]; clear H
         | |- closes_only _ _ _ => apply closes_only_fds; reflexivity
         end.

Lemma untracked_closes_only (h : nat) rot log fr :
  closes_only h (world fr) (world (reallyAppend_with rot log false fr).2).
Proof.
  unfold reallyAppend_with. unfold_m. destruct (file (self fr)); cbn.
  - co_case h; cbn; co_chain.
  - co_chain.
Qed.

Lemma logHeader_closes_only (h : nat) rot fr :
  closes_only h (world fr) (world (logHeader_with rot fr).2).
Proof.
  unfold logHeader_with. unfold_m. destruct (headerGenerator (self fr)); cbn.
  - unfold simpleLog. cbn.
    match goal with |- context [reallyAppend_with rot ?l false ?f0] =>
      pose proof (untracked_closes_only h rot l f0) as H;
      destruct (reallyAppend_with rot l false f0) as [u fr'] end.
    cbn in *. exact H.
  - co_chain.
Qed.

Lemma renameLogFile_closes_only (h : nat) o n fr :
  closes_only h (world fr) (world (renameLogFile o n fr).2).
Proof.
  unfold renameLogFile. unfold_m. cbn.
  repeat (co_case h; cbn); co_chain.
Qed.

Lemma rotate_closes_only (h : nat) (fr : Frame) :
  file (self fr) = Some h ->
  closes_only h (world fr) (world (rotate fr).2).
Proof.
  intros Hf. unfold rotate, rotate_with. unfold_m. cbn. rewrite Hf. cbn.
  co_case h; cbn.
  all: rewrite newRotatedFilename_eq; cbn.
  all: match goal with |- context [renameLogFile ?o ?n ?f] =>
      pose proof (renameLogFile_closes_only h o n f) as H;
      destruct (renameLogFile o n f) as [[|] fr'] end; cbn in *.
  all: try (co_case h; cbn).
  all: try match goal with |- context [logHeader_with ?r ?f0] =>
      pose proof (logHeader_closes_only h r f0) as H';
      destruct (logHeader_with r f0) as [u fr''] end; cbn in *.
  all: co_chain.
Qed.

Lemma reallyAppend_closes_only (h : nat) (log : Log) (trackSize : bool) (fr : Frame) :
  file (self fr) = Some h ->
  closes_only h (world fr) (world (reallyAppend log trackSize fr).2).
Proof.
  intros Hf. unfold reallyAppend, reallyAppend_with. unfold_m. cbn. rewrite Hf. cbn.
  co_case h; cbn; [|co_chain].
  destruct trackSize; cbn; [|co_chain].
  destruct (_ <? _)%Z; cbn; [|co_chain].
  match goal with |- context [rotate ?f0] =>
    pose proof (rotate_closes_only h f0 Hf) as H;
    destruct (rotate f0) as [u fr'] end; cbn in *.
  co_chain.
Qed.

Lemma step_closes_only (h : nat) (l : Label) (s s' : Sys) :
  file (appender s) = Some h -> file (listener s) = Some h ->
  step l s = Some s' -> closes_only h (os_world s) (os_world s').
Proof.
  intros Ha Hl.
  assert (Hmove : forall t c log a, append_move t c log a s = Some s' ->
            closes_only h (os_world s) (os_world s')).
  { intros t c log a H. unfold append_move in H.
    destruct (Append_step _ _ _ _) as [[[a' q'] w']|] eqn:E; [|discriminate].
    apply Append_step_world in E as (_ & _ & E & _).
    injection H as <-. cbn. apply closes_only_fds. exact E. }
  destruct l as [t| | |t| |]; unfold step.
  - unfold client_move. destruct (clients s !! t) as [c|]; [|discriminate]. cbn.
    destruct (pc c); try discriminate; try apply Hmove.
    + destruct (todo c) as [|[log|] ?]; [discriminate|apply Hmove|].
      intros [= <-]. apply closes_only_fds. reflexivity.
    + unfold_m. cbn. rewrite Ha. cbn.
      destruct (os_Close h (os_world s)) as [r w'] eqn:E. intros [= <-].
      exact (os_Close_closes_only _ _ _ _ E).
  - destruct (listener_pc s); try discriminate.
    destruct (appendCh s) as [|log q]; [discriminate|].
    intros [= <-].
    destruct (listener_runs_proj (call (reallyAppend log true)) (Loop true) q s)
      as (_ & _ & _ & _ & _ & H6).
    rewrite H6, call_world.
    exact (reallyAppend_closes_only h log true
             {| self := listener s; world := os_world s |} Hl).
  - destruct (listener_pc s) as [[|]| |]; try discriminate.
    destruct (appendCh s); [|discriminate].
    intros [= <-]. unfold listener_runs. unfold_m. cbn. rewrite Hl. cbn.
    destruct (os_Sync h (os_world s)) as [r w'] eqn:E.
    apply os_Sync_same in E as (_ & _ & E). apply closes_only_fds. exact E.
  - destruct (listener_pc s) as [[|]| |]; try discriminate.
    destruct (clients s !! t) as [c|]; [|discriminate]. cbn.
    destruct (pc c); try discriminate. intros [= <-]. apply closes_only_fds. reflexivity.
  - destruct (listener_pc s); try discriminate. intros [= <-].
    apply closes_only_fds. reflexivity.
  - destruct (listener_pc s) as [| |t b]; try discriminate.
    destruct (clients s !! t) as [c|]; [|discriminate]. cbn.
    destruct (pc c); try discriminate. intros [= <-]. apply closes_only_fds. reflexivity.
Qed.

Lemma run_closes_only (h : nat) (ls : list Label) :
  forall s s' : Sys,
    file (appender s) = Some h -> file (listener s) = Some h ->
    run ls s = Some s' -> closes_only h (os_world s) (os_world s').
Proof.
  induction ls as [|l ls IH]; intros s s' Ha Hl; cbn.
  - intros [= <-]. apply closes_only_fds. reflexivity.
  - destruct (step l s) as [s1|] eqn:E; [|discriminate]. cbn. intros H.
    destruct (step_structs _ _ _ E) as [L A].
    apply (closes_only_trans h _ (os_world s1)).
    + exact (step_closes_only h l s s1 Ha Hl E).
    + apply IH; [rewrite A|rewrite L|]; assumption.
Qed.

(** The handle [New] opened is the only one the system ever closes.  A
    handle that a rotation opens, for the new log file or for the old one
    when the rename failed, stays open for good. *)
Theorem rotations_leak_their_handles (ls : list Label) (s s' : Sys)
    (h h' : nat) (d' : FileDesc) :
  file (appender s) = Some h -> file (listener s) = Some h ->
  run ls s = Some s' ->
  h' <> h -> fds (os_world s') !! h' = Some d' ->
  fd_open d' = true
  \/ exists d, fds (os_world s) !! h' = Some d /\ fd_open d = false.
Proof.
  intros Ha Hl Hrun Hn Hd.
  destruct (fd_open d') eqn:Ho; [left; reflexivity|right].
  destruct (run_closes_only h ls s s' Ha Hl Hrun h' d' Hd Ho) as [->|H];
    [contradiction|exact H].
Qed.

Lemma rotations_leak_their_handles_witness :
  fd_open {| fd_inode := 1; fd_open := true; fd_append := false; fd_pos := 0 |} = true
  \/ exists d, fds (os_world two_records) !! 1%nat = Some d /\ fd_open d = false.
Proof.
  apply (rotations_leak_their_handles two_records_schedule two_records
           (after two_records_schedule two_records) 0%nat 1%nat);
    try (vm_compute; reflexivity).
  discriminate.
Defined.

(** ** The first rotation, end to end *)

Lemma os_Close_ok (h : nat) (w : World) (d : FileDesc) :
  fds w !! h = Some d -> fd_open d = true -> fault w = None ->
  os_Close h w =
    (None, logcall (SysClose h) None
             (set_fds (<[h := set_fd_open false d]> (fds w)) w)).
Proof.
  intros Hd Ho Hf. unfold os_Close, open_fd. rewrite Hd, Ho, Hf. reflexivity.
Qed.

Lemma os_Rename_done (o n : string) (w : World) (i : nat) :
  dir w !! o = Some i -> fault w = None ->
  os_Rename o n w =
    (None, logcall (SysRename o n) None
             (set_dir (<[n := i]> (delete o (dir w))) w)).
Proof. intros Hd Hf. unfold os_Rename. rewrite Hf, Hd. reflexivity. Qed.

Lemma os_Create_done (p : string) (w : World) :
  dir w !! p = None -> fault w = None ->
  os_OpenFile p flags_create w =
    (inl (length (fds w)),
     logcall (SysOpen p flags_create) None
       (set_fds (fds w ++ [{| fd_inode := next_inode w; fd_open := true;
                              fd_append := false; fd_pos := 0 |}])
          (set_next_inode (S (next_inode w))
             (set_inodes (<[next_inode w := ""]> (inodes w))
                (set_dir (<[p := next_inode w]> (dir w)) w))))).
Proof. intros Hd Hf. unfold os_OpenFile. rewrite Hf, Hd. reflexivity. Qed.

Lemma os_WriteString_first (h : nat) (msg : string) (w : World) (j : nat) :
  fds w !! h = Some {| fd_inode := j; fd_open := true; fd_append := false; fd_pos := 0 |} ->
  inodes w !! j = Some "" -> fault w = None ->
  os_WriteString h msg w =
    (inl (Z.of_nat (String.length msg)),
     logcall (SysWrite h msg) None
       (set_fds (<[h := {| fd_inode := j; fd_open := true; fd_append := false;
                           fd_pos := String.length msg |}]> (fds w))
          (set_inodes (<[j := msg]> (inodes w)) w))).
Proof.
  intros Hd Hi Hf. unfold os_WriteString, open_fd. rewrite Hd. cbn.
  rewrite Hf, Hi. cbn. rewrite write_at_empty. reflexivity.
Qed.

(** The first record that takes the counter over the maximal size, when no
    system call fails: the record is written to the log file, the file is
    moved to the archive name with the record in it, and a new file at the
    path holds the header, or nothing.  The error handler is not called;
    the writer is left with the handle that the rotation closed. *)
Theorem first_rotation (s : Sys) (log : Log) (q : list Log) (b : bool)
    (h : nat) (d : FileDesc) (c : string) :
  listener_pc s = Loop b -> appendCh s = log :: q ->
  file (listener s) = Some h ->
  fds (os_world s) !! h = Some d -> fd_open d = true -> fd_append d = true ->
  dir (os_world s) !! absPath (listener s) = Some (fd_inode d) ->
  inodes (os_world s) !! fd_inode d = Some c ->
  fd_inode d <> next_inode (os_world s) ->
  (forall n, faults (env (os_world s)) n = None) ->
  MaxFileSize (listener s) <
    wrap64 (curFileSize (listener s)
            + Z.of_nat (String.length (FormatLog (env (os_world s)) log))) ->
  exists s', step Recv s = Some s'
    /\ file_at (os_world s')
         (newRotatedFilename (absPath (listener s)) (os_world s)).1 =
         Some (c +:+ FormatLog (env (os_world s)) log)
    /\ file_at (os_world s') (absPath (listener s)) =
         Some match headerGenerator (listener s) with
              | Some g => header_text g (set_ticks (S (ticks (os_world s))) (os_world s))
              | None => ""
              end
    /\ sink (os_world s') = sink (os_world s)
    /\ listener s' = listener s
    /\ fds (os_world s') !! h = Some (set_fd_open false
           (set_fd_pos (String.length c
                        + String.length (FormatLog (env (os_world s)) log)) d)).
Proof.
  intros Hl Hq Hf Hd Ho Ha Hp Hc Hn Hfaults Hmax.
  unfold step. rewrite Hl, Hq. eexists. split; [reflexivity|].
  destruct (listener_runs_proj (call (reallyAppend log true)) (Loop true) q s)
    as (_ & _ & _ & _ & _ & H6).
  assert (Hself : listener (listener_runs (call (reallyAppend log true)) (Loop true) q s)
                  = listener s).
  { unfold listener_runs.
    pose proof (call_self (reallyAppend log true)
                  {| self := listener s; world := os_world s |}) as Hs.
    destruct (call _ _). exact Hs. }
  rewrite H6, Hself, call_world. clear H6 Hself.
  assert (Hlen : (h < length (fds (os_world s)))%nat)
    by (apply lookup_lt_Some in Hd; exact Hd).
  assert (Hfault : forall w, env w = env (os_world s) -> fault w = None).
  { intros w E. unfold fault. rewrite E. apply Hfaults. }
  assert (Hne : (newRotatedFilename (absPath (listener s)) (os_world s)).1
                <> absPath (listener s)) by apply newRotatedFilename_fresh.
  unfold reallyAppend, reallyAppend_with. unfold_m. cbn. rewrite Hf. cbn.
  rewrite (os_WriteString_append h _ _ d c Hd Ho Ha Hc (Hfault _ eq_refl)). cbn.
  destruct (Z.ltb_spec (MaxFileSize (listener s))
              (wrap64 (curFileSize (listener s)
                       + Z.of_nat (String.length (FormatLog (env (os_world s)) log)))))
    as [_|Hge]; [|lia].
  unfold rotate, rotate_with, renameLogFile. unfold_m. cbn. rewrite Hf. cbn.
  match goal with |- context [os_Close h ?w] =>
    rewrite (os_Close_ok h w (set_fd_pos
               (String.length c + String.length (FormatLog (env (os_world s)) log)) d))
  end; cbn; [|apply list_lookup_insert_eq; exact Hlen|exact Ho|apply Hfault; reflexivity].
  rewrite newRotatedFilename_eq. cbn.
  assert (Hname : forall w, ticks w = ticks (os_world s) -> env w = env (os_world s) ->
            (newRotatedFilename (absPath (listener s)) w).1 =
            (newRotatedFilename (absPath (listener s)) (os_world s)).1).
  { intros w E1 E2. unfold newRotatedFilename. cbn. rewrite E1, E2. reflexivity. }
  match goal with |- context [os_Rename ?o (newRotatedFilename ?p ?w0).1 ?w] =>
    rewrite (Hname w0 eq_refl eq_refl);
    rewrite (os_Rename_done o _ w (fd_inode d))
  end; cbn; [|exact Hp|apply Hfault; reflexivity].
  set (nn := (newRotatedFilename (absPath (listener s)) (os_world s)).1) in *.
  match goal with |- context [os_OpenFile ?p flags_create ?w] =>
    rewrite (os_Create_done p w)
  end; cbn; [| |apply Hfault; reflexivity].
  2: { rewrite lookup_insert_ne by exact Hne. apply lookup_delete_eq. }
  rewrite length_insert.
  unfold logHeader_with, reallyAppend_with. unfold_m. cbn.
  destruct (headerGenerator (listener s)) as [g|]; cbn.
  - unfold simpleLog. cbn.
    match goal with |- context [os_WriteString ?a ?m ?w] =>
      rewrite (os_WriteString_first a m w (next_inode (os_world s)))
    end; cbn.
    + unfold file_at. cbn.
      split; [|split; [|split; [reflexivity|split; [reflexivity|]]]].
      * rewrite lookup_insert_ne by (intros E; apply Hne; symmetry; exact E).
        rewrite lookup_insert_eq. cbn.
        rewrite !lookup_insert_ne by (intros E; apply Hn; symmetry; exact E).
        apply lookup_insert_eq.
      * rewrite lookup_insert_eq. cbn. rewrite lookup_insert_eq. reflexivity.
      * rewrite list_lookup_insert_ne by (rewrite length_insert; lia).
        rewrite lookup_app_l by (rewrite !length_insert; exact Hlen).
        rewrite list_lookup_insert_eq by (rewrite length_insert; exact Hlen).
        reflexivity.
    + apply list_lookup_middle. rewrite !length_insert. reflexivity.
    + apply lookup_insert_eq.
    + apply Hfault. reflexivity.
  - unfold file_at. cbn.
    split; [|split; [|split; [reflexivity|split; [reflexivity|]]]].
    + rewrite lookup_insert_ne by (intros E; apply Hne; symmetry; exact E).
      rewrite lookup_insert_eq. cbn.
      rewrite lookup_insert_ne by (intros E; apply Hn; symmetry; exact E).
      apply lookup_insert_eq.
    + rewrite lookup_insert_eq. cbn. apply lookup_insert_eq.
    + rewrite lookup_app_l by (rewrite !length_insert; exact Hlen).
      rewrite list_lookup_insert_eq by (rewrite length_insert; exact Hlen).
      reflexivity.
Qed.

Lemma first_rotation_witness :
  exists s', step Recv (after [Move 0]%nat grown_file) = Some s'
    /\ file_at (os_world s') "/log.2013-04-05T06-07-08" = Some "abcdhello;"
    /\ file_at (os_world s') "/log" = Some "".
Proof.
  destruct (first_rotation (after [Move 0]%nat grown_file) (record "hello;") [] false
              0%nat {| fd_inode := 0; fd_open := true; fd_append := true; fd_pos := 0 |}
              "abcd") as (s' & H1 & H2 & H3 & _); try (vm_compute; reflexivity).
  - vm_compute. discriminate.
  - exists s'. split; [exact H1|]. split; [exact H2|exact H3].
Defined.

Lemma os_OpenFile_failed (p : string) (fl : OpenFlags) (w w' : World) (e : Cause) :
  os_OpenFile p fl w = (inr e, w') -> dir w' = dir w /\ inodes w' = inodes w.
Proof.
  unfold os_OpenFile. destruct (fault w); [intros [= _ <-]; split; reflexivity|].
  destruct (dir w !! p); [discriminate|].
  destruct (o_create fl); [discriminate|]. intros [= _ <-]. split; reflexivity.
Qed.

(** A rotation whose rename succeeds and whose create fails leaves no file
    at the path: the log is at the archive name with all it held, the
    failure goes to the error handler, and nothing is created. *)
Theorem failed_create_leaves_no_log_file (fr : Frame) (h i : nat)
    (c newname : string) (e : Cause) :
  file (self fr) = Some h ->
  dir (world fr) !! absPath (self fr) = Some i ->
  inodes (world fr) !! i = Some c ->
  (SysRename (absPath (self fr)) newname, None)
    ∈ new_calls (world fr) (world (rotate fr).2) ->
  (SysOpen (absPath (self fr)) flags_create, Some e)
    ∈ new_calls (world fr) (world (rotate fr).2) ->
  dir (world (rotate fr).2) !! absPath (self fr) = None
  /\ file_at (world (rotate fr).2) newname = Some c
  /\ inodes (world (rotate fr).2) = inodes (world fr)
  /\ OpenError (absPath (self fr)) e ∈ sink (world (rotate fr).2).
Proof.
  intros Hf Hd Hi.
  unfold rotate, rotate_with, renameLogFile, logHeader_with, reallyAppend_with,
    simpleLog.
  unfold_m. rewrite Hf. cbn.
  destruct (os_Close h (world fr)) as [rc w1] eqn:E1.
  pose proof (os_Close_fs _ _ _ _ E1) as (D1 & I1 & N1).
  apply os_Close_effect in E1 as [T1 S1 K1 V1 _].
  assert (Hname : forall s0,
            (newRotatedFilename (absPath (self fr)) (set_sink s0 w1)).1 =
            (newRotatedFilename (absPath (self fr)) (world fr)).1
            /\ (newRotatedFilename (absPath (self fr)) w1).1 =
               (newRotatedFilename (absPath (self fr)) (world fr)).1).
  { intros s0. unfold newRotatedFilename. cbn. rewrite K1, V1. split; reflexivity. }
  destruct rc as [ec|]; cbn.
  all: rewrite newRotatedFilename_eq; cbn.
  all: match goal with |- context [os_Rename ?o ?n ?w] =>
         assert (Hne : n <> absPath (self fr))
           by (first [rewrite (proj1 (Hname _))|rewrite (proj2 (Hname []))];
               apply newRotatedFilename_fresh);
         clear Hname; generalize dependent n; intros nn Hne;
         destruct (os_Rename o nn w) as [[er|] w3] eqn:E3 end; cbn.
  all: pose proof (os_Rename_effect _ _ _ _ _ E3) as [T3 S3 K3 V3 _];
       cbn in T3, S3, K3, V3.
  all: match goal with |- context [os_OpenFile ?p ?fl ?w] =>
         destruct (os_OpenFile p fl w) as [[f|eo] w4] eqn:E4 end; cbn.
  all: pose proof (os_OpenFile_effect _ _ _ _ _ E4) as [T4 S4 K4 V4 _];
       cbn in T4, S4, K4, V4.
  all: try (destruct (headerGenerator (self fr)) as [gen|]; cbn).
  all: try match goal with |- context [os_WriteString ?a ?m ?w] =>
         destruct (os_WriteString a m w) as [r w5] eqn:E5;
         apply os_WriteString_effect in E5 as [T5 S5 K5 V5 _];
         cbn in T5, S5, K5, V5; destruct r as [nw|ew]; cbn
       end.
  (* the rename failed, or the create succeeded *)
  all: try solve
    [ intros M1 M2; exfalso; unfold new_calls in M1, M2; cbn in M1, M2;
      rewrite ?T5, T4, T3, T1, <- !app_assoc, drop_app_length in M1, M2;
      cbn in M1, M2; elem_of_calls M1; elem_of_calls M2 ].
  (* the create failed *)
  all: apply os_Rename_ok in E3 as (i' & D3 & D3' & I3 & N3); cbn in D3, D3', I3, N3.
  all: rewrite D1, Hd in D3; injection D3 as <-.
  all: apply os_OpenFile_failed in E4 as [D4 I4].
  all: intros M1 M2; unfold new_calls in M1, M2; cbn in M1, M2.
  all: rewrite T4, T3, T1, <- !app_assoc, drop_app_length in M1, M2.
  all: cbn in M1, M2; elem_of_calls M1; elem_of_calls M2.
  all: injection M1 as ->; injection M2 as ->.
  all: unfold file_at; cbn; rewrite D4, D3', I4, I3, I1, D1.
  all: split; [rewrite lookup_insert_ne by exact Hne; apply lookup_delete_eq|].
  all: split; [rewrite lookup_insert_eq; exact Hi|].
  all: split; [reflexivity|].
  all: apply elem_of_app; right; apply list_elem_of_here.
Qed.

Lemma failed_create_leaves_no_log_file_witness :
  dir (world (rotate create_fails_frame).2) !! "/log" = None
  /\ file_at (world (rotate create_fails_frame).2) "/log.2013-04-05T06-07-08" =
       Some "abcd".
Proof.
  assert (E : new_calls (world create_fails_frame) (world (rotate create_fails_frame).2) =
                [(SysClose 0, None);
                 (SysRename "/log" "/log.2013-04-05T06-07-08", None);
                 (SysOpen "/log" flags_create, Some (ErrInjected 2))])
    by (vm_compute; reflexivity).
  destruct (failed_create_leaves_no_log_file create_fails_frame 0%nat 0%nat "abcd"
              "/log.2013-04-05T06-07-08" (ErrInjected 2)) as (H1 & H2 & _).
  - reflexivity.
  - vm_compute; reflexivity.
  - vm_compute; reflexivity.
  - rewrite E. apply list_elem_of_further, list_elem_of_here.
  - rewrite E. apply list_elem_of_further, list_elem_of_further, list_elem_of_here.
  - split; [exact H1|exact H2].
Defined.

(** ** The error that is never reported *)

Lemma error_of_call_kind (path : string) (c : Syscall * option Cause) (e : Error) :
  error_of_call path c = Some e -> IsNoFileError e = false.
Proof.
  destruct c as [[] [x|]]; cbn; intros [= <-]; reflexivity.
Qed.

Lemma reported_kinds (path : string) (calls : list (Syscall * option Cause)) :
  Forall (fun e => IsNoFileError e = false) (omap (error_of_call path) calls).
Proof.
  induction calls as [|c calls IH]; cbn; [constructor|].
  destruct (error_of_call path c) as [e|] eqn:E; [|exact IH].
  constructor; [exact (error_of_call_kind _ _ _ E)|exact IH].
Qed.

Lemma step_reported (l : Label) (s s' : Sys) (h : nat) :
  file (listener s) = Some h -> step l s = Some s' ->
  exists errs, sink (os_world s') = sink (os_world s) ++ errs
    /\ Forall (fun e => IsNoFileError e = false) errs.
Proof.
  intros Hf.
  assert (Hsame : sink (os_world s') = sink (os_world s) ->
            exists errs, sink (os_world s') = sink (os_world s) ++ errs
              /\ Forall (fun e => IsNoFileError e = false) errs).
  { intros E. exists []. rewrite app_nil_r. split; [exact E|constructor]. }
  assert (Hmove : forall t c log a, append_move t c log a s = Some s' ->
            sink (os_world s') = sink (os_world s)).
  { intros t c log a H. unfold append_move in H.
    destruct (Append_step _ _ _ _) as [[[a' q'] w']|] eqn:E; [|discriminate].
    apply Append_step_world in E as (_ & _ & _ & E & _).
    injection H as <-. exact E. }
  destruct l as [t| | |t| |]; unfold step.
  - unfold client_move. destruct (clients s !! t) as [c|]; [|discriminate]. cbn.
    destruct (pc c); try discriminate;
      try (intros H; apply Hsame; exact (Hmove _ _ _ _ H)).
    + destruct (todo c) as [|[log|] ?]; [discriminate| |].
      * intros H; apply Hsame; exact (Hmove _ _ _ _ H).
      * intros [= <-]. exists []. rewrite app_nil_r. split; [reflexivity|constructor].
    + unfold_m. cbn. destruct (file (appender s)) as [h'|]; cbn.
      2: { intros [= <-]. exists []. rewrite app_nil_r. split; [reflexivity|constructor]. }
      destruct (os_Close h' (os_world s)) as [r w'] eqn:E. intros [= <-].
      apply os_Close_effect in E as [_ S1 _ _ _]. cbn.
      exists []. rewrite app_nil_r. split; [exact S1|constructor].
  - destruct (listener_pc s); try discriminate.
    destruct (appendCh s) as [|log q]; [discriminate|].
    intros [= <-].
    destruct (listener_runs_proj (call (reallyAppend log true)) (Loop true) q s)
      as (_ & _ & _ & _ & _ & H6).
    rewrite H6, call_world.
    destruct (reallyAppend_reports log true
                {| self := listener s; world := os_world s |} h Hf) as (new & _ & S).
    cbn in S. eexists. split; [exact S|apply reported_kinds].
  - destruct (listener_pc s) as [[|]| |]; try discriminate.
    destruct (appendCh s); [|discriminate].
    intros [= <-]. unfold listener_runs. unfold_m. cbn. rewrite Hf. cbn.
    destruct (os_Sync h (os_world s)) as [r w'] eqn:E.
    apply os_Sync_effect in E as [_ S1 _ _ _]. cbn.
    exists []. rewrite app_nil_r. split; [exact S1|constructor].
  - destruct (listener_pc s) as [[|]| |]; try discriminate.
    destruct (clients s !! t) as [c|]; [|discriminate]. cbn.
    destruct (pc c); try discriminate. intros [= <-].
    exists []. rewrite app_nil_r. split; [reflexivity|constructor].
  - destruct (listener_pc s); try discriminate. intros [= <-].
    exists []. rewrite app_nil_r. split; [reflexivity|constructor].
  - destruct (listener_pc s) as [| |t b]; try discriminate.
    destruct (clients s !! t) as [c|]; [|discriminate]. cbn.
    destruct (pc c); try discriminate. intros [= <-].
    exists []. rewrite app_nil_r. split; [reflexivity|constructor].
Qed.

(** When the writer holds a file, as it does in every system that [New]
    builds, the error handler is never called with [NoFileError]: the
    assignments of nil to [self.file] are made in copies of the struct,
    and the writer loop goes on with the handle it has. *)
Theorem NoFileError_is_never_reported (ls : list Label) :
  forall (s0 s : Sys) (h : nat),
    file (listener s0) = Some h -> run ls s0 = Some s ->
    exists errs, sink (os_world s) = sink (os_world s0) ++ errs
      /\ Forall (fun e => IsNoFileError e = false) errs.
Proof.
  induction ls as [|l ls IH]; intros s0 s h Hf; cbn.
  - intros [= <-]. exists []. rewrite app_nil_r. split; [reflexivity|constructor].
  - destruct (step l s0) as [s1|] eqn:E; [|discriminate]. cbn. intros H.
    destruct (step_structs _ _ _ E) as [L _].
    destruct (step_reported _ _ _ _ Hf E) as (e1 & H1 & F1).
    destruct (IH s1 s h) as (e2 & H2 & F2); [rewrite L; exact Hf|exact H|].
    exists (e1 ++ e2). split; [rewrite H2, H1, app_assoc; reflexivity|].
    apply Forall_app. split; assumption.
Qed.

Lemma NoFileError_is_never_reported_witness :
  exists errs,
    sink (os_world (after two_records_schedule rename_fails)) =
      sink (os_world rename_fails) ++ errs
    /\ Forall (fun e => IsNoFileError e = false) errs.
Proof.
  apply (NoFileError_is_never_reported two_records_schedule rename_fails
           (after two_records_schedule rename_fails) 0%nat);
    vm_compute; reflexivity.
Defined.

(** ** One rotation, and no more *)

Lemma renames_app (a b : list (Syscall * option Cause)) :
  renames (a ++ b) = (renames a + renames b)%nat.
Proof. unfold renames. rewrite List.filter_app, length_app. reflexivity. Qed.

Lemma os_WriteString_done_valid (h : nat) (msg : string) (w w' : World) (n : Z) :
  os_WriteString h msg w = (inl n, w') -> is_Some (fds w' !! h).
Proof.
  unfold os_WriteString. destruct (open_fd w h) as [d|] eqn:O; [|discriminate].
  destruct (fault w); [discriminate|]. intros [= _ <-]. cbn.
  apply open_fd_inl in O as [O _]. apply lookup_lt_is_Some.
  rewrite length_insert. apply lookup_lt_Some in O. exact O.
Qed.

Lemma rotate_renames (fr : Frame) (h : nat) :
  file (self fr) = Some h ->
  exists calls, trace (world (rotate fr).2) = trace (world fr) ++ calls
    /\ renames calls = 1%nat.
Proof.
  intros Hf.
  unfold rotate, rotate_with, renameLogFile, logHeader_with, reallyAppend_with,
    simpleLog.
  unfold_m. rewrite Hf. cbn.
  destruct (os_Close h (world fr)) as [rc w1] eqn:E1.
  apply os_Close_effect in E1 as [T1 S1 K1 V1 _].
  destruct rc as [ec|]; cbn.
  all: rewrite newRotatedFilename_eq; cbn.
  all: match goal with |- context [os_Rename ?o ?n ?w] =>
         generalize n; intros nn;
         destruct (os_Rename o nn w) as [[er|] w3] eqn:E3 end; cbn.
  all: pose proof (os_Rename_effect _ _ _ _ _ E3) as [T3 S3 K3 V3 _];
       cbn in T3, S3, K3, V3.
  all: match goal with |- context [os_OpenFile ?p ?fl ?w] =>
         destruct (os_OpenFile p fl w) as [[f|eo] w4] eqn:E4 end; cbn.
  all: pose proof (os_OpenFile_effect _ _ _ _ _ E4) as [T4 S4 K4 V4 _];
       cbn in T4, S4, K4, V4.
  all: try (destruct (headerGenerator (self fr)) as [gen|]; cbn).
  all: try match goal with |- context [os_WriteString ?a ?m ?w] =>
         destruct (os_WriteString a m w) as [r w5] eqn:E5;
         apply os_WriteString_effect in E5 as [T5 S5 K5 V5 _];
         cbn in T5, S5, K5, V5; destruct r as [nw|ew]; cbn
       end.
  all: rewrite ?T5, T4, T3, T1, <- !app_assoc.
  all: eexists; (split; [reflexivity|reflexivity]).
Qed.

Lemma reallyAppend_renames (log : Log) (fr : Frame) (h : nat) :
  file (self fr) = Some h ->
  exists calls,
    trace (world (reallyAppend log true fr).2) = trace (world fr) ++ calls
    /\ (renames calls = 0%nat
        \/ (renames calls = 1%nat
            /\ exists d, fds (world (reallyAppend log true fr).2) !! h = Some d
                 /\ fd_open d = false)).
Proof.
  intros Hf. unfold reallyAppend, reallyAppend_with. unfold_m. cbn. rewrite Hf. cbn.
  destruct (os_WriteString h (FormatLog (env (world fr)) log) (world fr))
    as [[n|e] w1] eqn:E1; cbn.
  - pose proof (os_WriteString_done_valid _ _ _ _ _ E1) as Hv.
    apply os_WriteString_effect in E1 as [T1 _ _ _ _]. cbn in T1.
    destruct (_ <? _)%Z; cbn.
    + match goal with |- context [rotate ?f0] =>
        destruct (rotate_renames f0 h Hf) as (calls & T2 & R2);
        destruct (rotate_closes f0 h Hf Hv) as (d & Hd & Ho);
        destruct (rotate f0) as [u fr'] end.
      cbn in *. eexists. rewrite T2, T1, <- app_assoc. split; [reflexivity|].
      right. split; [rewrite renames_app, R2; reflexivity|].
      exists d. split; assumption.
    + eexists. split; [exact T1|]. left. reflexivity.
  - apply os_WriteString_effect in E1 as [T1 _ _ _ _]. cbn in T1.
    eexists. split; [exact T1|]. left. reflexivity.
Qed.

Lemma step_renames (l : Label) (s s' : Sys) (h : nat) :
  file (listener s) = Some h -> step l s = Some s' ->
  exists calls, trace (os_world s') = trace (os_world s) ++ calls
    /\ (renames calls = 0%nat
        \/ (renames calls = 1%nat /\ exists d, dead s' h d)).
Proof.
  intros Hf.
  assert (Hmove : forall t c log a, append_move t c log a s = Some s' ->
            exists calls, trace (os_world s') = trace (os_world s) ++ calls
              /\ (renames calls = 0%nat
                  \/ (renames calls = 1%nat /\ exists d, dead s' h d))).
  { intros t c log a H. unfold append_move in H.
    destruct (Append_step _ _ _ _) as [[[a' q'] w']|] eqn:E; [|discriminate].
    apply Append_step_world in E as (_ & _ & _ & _ & E & _).
    injection H as <-. exists []. rewrite app_nil_r. split; [exact E|left; reflexivity]. }
  destruct l as [t| | |t| |]; unfold step.
  - unfold client_move. destruct (clients s !! t) as [c|]; [|discriminate]. cbn.
    destruct (pc c); try discriminate; try apply Hmove.
    + destruct (todo c) as [|[log|] ?]; [discriminate|apply Hmove|].
      intros [= <-]. exists []. rewrite app_nil_r. split; [reflexivity|left; reflexivity].
    + unfold_m. cbn. destruct (file (appender s)) as [h'|]; cbn.
      2: { intros [= <-]. exists []. rewrite app_nil_r.
           split; [reflexivity|left; reflexivity]. }
      destruct (os_Close h' (os_world s)) as [r w'] eqn:E. intros [= <-].
      apply os_Close_effect in E as [T1 _ _ _ _]. cbn.
      eexists. split; [exact T1|left; reflexivity].
  - destruct (listener_pc s); try discriminate.
    destruct (appendCh s) as [|log q]; [discriminate|].
    intros [= <-].
    destruct (listener_runs_proj (call (reallyAppend log true)) (Loop true) q s)
      as (_ & _ & _ & _ & _ & H6).
    assert (Hself : listener (listener_runs (call (reallyAppend log true)) (Loop true) q s)
                    = listener s).
    { unfold listener_runs.
      pose proof (call_self (reallyAppend log true)
                    {| self := listener s; world := os_world s |}) as Hs.
      destruct (call _ _). exact Hs. }
    unfold dead. rewrite H6, Hself, call_world.
    destruct (reallyAppend_renames log {| self := listener s; world := os_world s |} h Hf)
      as (calls & T & [R|(R & d & Hd & Ho)]); cbn in T.
    + exists calls. split; [exact T|left; exact R].
    + exists calls. split; [exact T|right]. split; [exact R|].
      exists d. repeat split; assumption.
  - destruct (listener_pc s) as [[|]| |]; try discriminate.
    destruct (appendCh s); [|discriminate].
    intros [= <-]. unfold listener_runs. unfold_m. cbn. rewrite Hf. cbn.
    destruct (os_Sync h (os_world s)) as [r w'] eqn:E.
    apply os_Sync_effect in E as [T1 _ _ _ _]. cbn.
    eexists. split; [exact T1|left; reflexivity].
  - destruct (listener_pc s) as [[|]| |]; try discriminate.
    destruct (clients s !! t) as [c|]; [|discriminate]. cbn.
    destruct (pc c); try discriminate. intros [= <-].
    exists []. rewrite app_nil_r. split; [reflexivity|left; reflexivity].
  - destruct (listener_pc s); try discriminate. intros [= <-].
    exists []. rewrite app_nil_r. split; [reflexivity|left; reflexivity].
  - destruct (listener_pc s) as [| |t b]; try discriminate.
    destruct (clients s !! t) as [c|]; [|discriminate]. cbn.
    destruct (pc c); try discriminate. intros [= <-].
    exists []. rewrite app_nil_r. split; [reflexivity|left; reflexivity].
Qed.

Lemma step_dead_renames (l : Label) (s s' : Sys) (h : nat) (d : FileDesc) :
  dead s h d -> step l s = Some s' ->
  exists calls, trace (os_world s') = trace (os_world s) ++ calls
    /\ renames calls = 0%nat.
Proof.
  intros Hdead Hstep. pose proof Hdead as (Hf & Hd & Ho).
  destruct l as [t| | |t| |].
  2: { revert Hstep. unfold step. destruct (listener_pc s) eqn:Hl; try discriminate.
       destruct (appendCh s) as [|log q] eqn:Hq; [discriminate|]. intros Hstep.
       destruct (recv_dead s h d log q _ Hdead Hq Hl) as (s1 & H1 & T & _).
       unfold step in H1. rewrite Hl, Hq in H1. rewrite H1 in Hstep.
       injection Hstep as <-. eexists. split; [exact T|reflexivity]. }
  all: destruct (step_renames _ _ _ h Hf Hstep) as (calls & T & [R|(R & _)]);
    try (exists calls; split; [exact T|exact R]).
  all: exfalso; revert Hstep T R; unfold step.
  - unfold client_move. destruct (clients s !! t) as [c|]; [|discriminate]. cbn.
    assert (Hmove : forall c0 log a, append_move t c0 log a s = Some s' ->
              trace (os_world s') = trace (os_world s) ++ calls ->
              renames calls = 1%nat -> False).
    { intros c0 log a H T R. unfold append_move in H.
      destruct (Append_step _ _ _ _) as [[[a' q'] w']|] eqn:E; [|discriminate].
      apply Append_step_world in E as (_ & _ & _ & _ & E & _).
      injection H as <-. cbn in T. rewrite E in T.
      rewrite <- (app_nil_r (trace (os_world s))) in T at 1.
      apply app_inv_head in T. subst calls. discriminate R. }
    destruct (pc c); try discriminate; try apply Hmove.
    + destruct (todo c) as [|[log|] ?]; [discriminate|apply Hmove|].
      intros [= <-] T R. cbn in T.
      rewrite <- (app_nil_r (trace (os_world s))) in T at 1.
      apply app_inv_head in T. subst calls. discriminate R.
    + unfold_m. cbn. destruct (file (appender s)) as [h'|]; cbn.
      2: { intros [= <-] T R. cbn in T.
           rewrite <- (app_nil_r (trace (os_world s))) in T at 1.
           apply app_inv_head in T. subst calls. discriminate R. }
      destruct (os_Close h' (os_world s)) as [r w'] eqn:E. intros [= <-] T R.
      apply os_Close_effect in E as [T1 _ _ _ _]. cbn in T. rewrite T1 in T.
      apply app_inv_head in T. subst calls. discriminate R.
  - destruct (listener_pc s) as [[|]| |]; try discriminate.
    destruct (appendCh s); [|discriminate].
    intros [= <-]. unfold listener_runs. unfold_m. cbn. rewrite Hf. cbn.
    destruct (os_Sync h (os_world s)) as [r w'] eqn:E.
    apply os_Sync_effect in E as [T1 _ _ _ _]. cbn. intros T R. rewrite T1 in T.
    apply app_inv_head in T. subst calls. discriminate R.
  - destruct (listener_pc s) as [[|]| |]; try discriminate.
    destruct (clients s !! t) as [c|]; [|discriminate]. cbn.
    destruct (pc c); try discriminate. intros [= <-] T R. cbn in T.
    rewrite <- (app_nil_r (trace (os_world s))) in T at 1.
    apply app_inv_head in T. subst calls. discriminate R.
  - destruct (listener_pc s); try discriminate. intros [= <-] T R. cbn in T.
    rewrite <- (app_nil_r (trace (os_world s))) in T at 1.
    apply app_inv_head in T. subst calls. discriminate R.
  - destruct (listener_pc s) as [| |t b]; try discriminate.
    destruct (clients s !! t) as [c|]; [|discriminate]. cbn.
    destruct (pc c); try discriminate. intros [= <-] T R. cbn in T.
    rewrite <- (app_nil_r (trace (os_world s))) in T at 1.
    apply app_inv_head in T. subst calls. discriminate R.
Qed.

Lemma run_renames (ls : list Label) (h : nat) :
  forall (s s' : Sys) (base calls : list (Syscall * option Cause)),
    file (listener s) = Some h ->
    trace (os_world s) = base ++ calls ->
    renames calls = 0%nat \/ (renames calls = 1%nat /\ exists d, dead s h d) ->
    run ls s = Some s' ->
    exists calls', trace (os_world s') = base ++ calls'
      /\ (renames calls' <= 1)%nat.
Proof.
  induction ls as [|l ls IH]; intros s s' base calls Hf T R; cbn.
  - intros [= <-]. exists calls. split; [exact T|]. destruct R as [->|[-> _]]; lia.
  - destruct (step l s) as [s1|] eqn:E; [|discriminate]. cbn. intros H.
    destruct (step_structs _ _ _ E) as [L _].
    assert (Hf1 : file (listener s1) = Some h) by (rewrite L; exact Hf).
    destruct R as [R|(R & d & Hd)].
    + destruct (step_renames _ _ _ h Hf E) as (c1 & T1 & R1).
      apply (IH s1 s' base (calls ++ c1) Hf1); [rewrite T1, T, app_assoc; reflexivity| |exact H].
      rewrite renames_app, R. exact R1.
    + destruct (step_dead_renames _ _ _ _ _ Hd E) as (c1 & T1 & R1).
      destruct (step_dead _ _ _ _ _ Hd E) as (Hd1 & _).
      apply (IH s1 s' base (calls ++ c1) Hf1); [rewrite T1, T, app_assoc; reflexivity| |exact H].
      right. split; [rewrite renames_app, R, R1; reflexivity|]. exists d. exact Hd1.
Qed.

(** The writer rotates once at most.  A rotation closes the handle that
    the writer loop goes on using, so no later write succeeds and none
    can set off a rotation: whatever the clients do, at most one call of
    [os.Rename] is ever made. *)
Theorem at_most_one_rotation (ls : list Label) (s0 s : Sys) (h : nat) :
  file (listener s0) = Some h -> run ls s0 = Some s ->
  (renames (new_calls (os_world s0) (os_world s)) <= 1)%nat.
Proof.
  intros Hf Hrun.
  destruct (run_renames ls h s0 s (trace (os_world s0)) [] Hf) as (calls & T & R);
    [symmetry; apply app_nil_r|left; reflexivity|exact Hrun|].
  rewrite (new_calls_app _ _ _ T). exact R.
Qed.

Lemma at_most_one_rotation_witness :
  (renames (new_calls (os_world three_rotations)
              (os_world (after three_rotations_schedule three_rotations))) <= 1)%nat.
Proof.
  apply (at_most_one_rotation three_rotations_schedule three_rotations
           (after three_rotations_schedule three_rotations) 0%nat);
    vm_compute; reflexivity.
Defined.

(** Three records, each larger than the maximal size: the first one sets
    off the only rotation, the other two are lost. *)
Example three_rotations_run :
  drop 2 (trace (os_world (after three_rotations_schedule three_rotations))) =
    [(SysWrite 0 "first;", None); (SysClose 0, None);
     (SysRename "/log" "/log.2013-04-05T06-07-08", None);
     (SysOpen "/log" flags_create, None);
     (SysWrite 0 "secnd;", Some ErrClosed); (SysWrite 0 "third;", Some ErrClosed)]
  /\ file_at (os_world (after three_rotations_schedule three_rotations)) "/log" = Some "".
Proof. vm_compute. split; reflexivity. Qed.

(** ** [Append] can always complete *)

Lemma recv_one (s : Sys) (b : bool) (x : Log) (q : list Log) :
  listener_pc s = Loop b -> appendCh s = x :: q ->
  exists s', step Recv s = Some s'
    /\ appendCh s' = q /\ clients s' = clients s /\ listener_pc s' = Loop true.
Proof.
  intros Hl Hq. unfold step. rewrite Hl, Hq.
  destruct (listener_runs_proj (call (reallyAppend x true)) (Loop true) q s)
    as (_ & H2 & H3 & H4 & _).
  eexists. split; [reflexivity|]. repeat split; assumption.
Qed.

Lemma has_room_below (q : list Log) :
  (length q < 4096)%nat -> has_room q = true.
Proof. intros H. unfold has_room, APPEND_CHANNEL_SIZE. apply Z.ltb_lt. lia. Qed.

(** A client is never stuck in [Append]: when the queue has room the call
    returns nil in one move; when it is full, the writer takes a record,
    the client queues the warning, the writer takes another record and the
    client queues its own.  No other client has to move. *)
Theorem Append_can_complete (s : Sys) (t : nat) (c : Client) (log : Log)
    (rest : list Call) (b : bool) :
  clients s !! t = Some c -> pc c = Idle -> todo c = CallAppend log :: rest ->
  listener_pc s = Loop b ->
  Z.of_nat (length (appendCh s)) <= APPEND_CHANNEL_SIZE ->
  exists s',
    run (if has_room (appendCh s) then [Move t]
         else [Move t; Recv; Move t; Recv; Move t]) s = Some s'
    /\ clients s' !! t =
         Some {| pc := Idle; todo := rest; returned := returned c ++ [None] |}
    /\ exists done, appendCh s' = done ++ [log].
Proof.
  intros Hc Hp Ht Hl Hcap.
  assert (Hlen : (t < length (clients s))%nat) by (apply lookup_lt_Some in Hc; exact Hc).
  destruct (has_room (appendCh s)) eqn:Hr.
  - eexists. split.
    + cbn. unfold step, client_move. rewrite Hc. cbn. rewrite Hp, Ht.
      unfold append_move, Append_step. rewrite Hr. cbn. reflexivity.
    + cbn. split.
      * rewrite list_lookup_insert_eq by exact Hlen. unfold ret_to, pop_call. cbn.
        rewrite Ht. reflexivity.
      * eexists. reflexivity.
  - assert (Hfull : length (appendCh s) = 4096%nat).
    { unfold has_room, APPEND_CHANNEL_SIZE in Hr, Hcap. apply Z.ltb_ge in Hr. lia. }
    destruct (appendCh s) as [|x q] eqn:Hq; [discriminate Hfull|].
    cbn in Hfull.
    pose (c1 := set_pc (SendWarning (fullWarningLog (os_world s)).1 log) (pop_call c)).
    pose (s1 := {| os_world := (fullWarningLog (os_world s)).2; appendCh := x :: q;
                   sent := sent s ++ map (pair t) (drop (length (x :: q)) (x :: q));
                   appender := appender s; listener := listener s;
                   listener_pc := listener_pc s;
                   clients := <[t := c1]> (clients s) |}).
    assert (E1 : step (Move t) s = Some s1).
    { unfold step, client_move. rewrite Hc. cbn. rewrite Hp, Ht.
      unfold append_move, Append_step. rewrite Hq, Hr.
      destruct (fullWarningLog (os_world s)) as [wl w'] eqn:F. subst s1 c1. cbn.
      rewrite ?Hq. reflexivity. }
    destruct (recv_one s1 b x q Hl eq_refl) as (s2 & E2 & Q2 & C2 & L2).
    assert (Hc2 : clients s2 !! t = Some c1).
    { rewrite C2. apply list_lookup_insert_eq. exact Hlen. }
    pose (c3 := set_pc (SendLog log) c1).
    pose (s3 := {| os_world := os_world s2;
                   appendCh := q ++ [(fullWarningLog (os_world s)).1];
                   sent := sent s2 ++ map (pair t)
                             (drop (length q) (q ++ [(fullWarningLog (os_world s)).1]));
                   appender := appender s2; listener := listener s2;
                   listener_pc := listener_pc s2;
                   clients := <[t := c3]> (clients s2) |}).
    assert (E3 : step (Move t) s2 = Some s3).
    { unfold step, client_move. rewrite Hc2. cbn.
      unfold append_move, Append_step. rewrite Q2.
      rewrite (has_room_below q) by lia. reflexivity. }
    destruct q as [|y q'].
    { discriminate Hfull. }
    destruct (recv_one s3 true y (q' ++ [(fullWarningLog (os_world s)).1]) L2 eq_refl)
      as (s4 & E4 & Q4 & C4 & L4).
    assert (Hlen2 : (t < length (clients s2))%nat).
    { apply lookup_lt_Some in Hc2. exact Hc2. }
    assert (Hc4 : clients s4 !! t = Some c3).
    { rewrite C4. apply list_lookup_insert_eq. exact Hlen2. }
    eexists. split.
    + change (run [Move t; Recv; Move t; Recv; Move t] s) with
        (x1 ← step (Move t) s; x2 ← step Recv x1; x3 ← step (Move t) x2;
         x4 ← step Recv x3; x5 ← step (Move t) x4; Some x5).
      rewrite E1. cbn [mbind option_bind]. rewrite E2. cbn [mbind option_bind].
      rewrite E3. cbn [mbind option_bind]. rewrite E4. cbn [mbind option_bind].
      unfold step, client_move. rewrite Hc4. cbn.
      unfold append_move, Append_step. rewrite Q4.
      rewrite has_room_below by (rewrite length_app; cbn in *; lia).
      reflexivity.
    + cbn. split.
      * rewrite list_lookup_insert_eq
          by (rewrite C4; cbn; rewrite length_insert; exact Hlen2).
        unfold ret_to. cbn. rewrite Ht. reflexivity.
      * eexists. reflexivity.
Qed.

Lemma Append_can_complete_witness :
  exists s',
    run full_queue_schedule full_queue = Some s'
    /\ clients s' !! 0%nat = Some {| pc := Idle; todo := []; returned := [None] |}
    /\ exists done, appendCh s' = done ++ [record "overflow;"].
Proof.
  apply (Append_can_complete full_queue 0%nat
           {| pc := Idle; todo := [CallAppend (record "overflow;")]; returned := [] |}
           (record "overflow;") [] false); vm_compute; try reflexivity.
  discriminate.
Defined.

(** ** Syncing *)

Lemma last_io_app (a b : list (Syscall * option Cause)) :
  last_io (a ++ b) = match last_io b with Some c => Some c | None => last_io a end.
Proof.
  unfold last_io. rewrite List.filter_app.
  destruct (List.filter is_io b) as [|x l] using rev_ind.
  - rewrite app_nil_r. reflexivity.
  - rewrite app_assoc, !last_snoc. reflexivity.
Qed.

Lemma last_io_quiet (a b : list (Syscall * option Cause)) :
  List.filter is_io b = [] -> last_io (a ++ b) = last_io a.
Proof. intros H. rewrite last_io_app. unfold last_io at 1. rewrite H. reflexivity. Qed.

Lemma last_io_is_io (calls : list (Syscall * option Cause)) (c : Syscall * option Cause) :
  last_io calls = Some c -> is_io c = true /\ c ∈ calls.
Proof.
  unfold last_io. intros H. apply last_Some in H as [l H].
  assert (In c (List.filter is_io calls)) as Hin
    by (rewrite H; apply in_or_app; right; left; reflexivity).
  apply List.filter_In in Hin as [H1 H2]. split; [exact H2|].
  apply list_elem_of_In. exact H1.
Qed.

(** Every write or sync that [rotate] makes is a write. *)
Lemma rotate_io (fr : Frame) (h : nat) :
  file (self fr) = Some h ->
  exists calls, trace (world (rotate fr).2) = trace (world fr) ++ calls
    /\ forall c, last_io calls = Some c -> is_write c = true.
Proof.
  intros Hf.
  unfold rotate, rotate_with, renameLogFile, logHeader_with, reallyAppend_with,
    simpleLog.
  unfold_m. rewrite Hf. cbn.
  destruct (os_Close h (world fr)) as [rc w1] eqn:E1.
  apply os_Close_effect in E1 as [T1 S1 K1 V1 _].
  destruct rc as [ec|]; cbn.
  all: rewrite newRotatedFilename_eq; cbn.
  all: match goal with |- context [os_Rename ?o ?n ?w] =>
         generalize n; intros nn;
         destruct (os_Rename o nn w) as [[er|] w3] eqn:E3 end; cbn.
  all: pose proof (os_Rename_effect _ _ _ _ _ E3) as [T3 S3 K3 V3 _];
       cbn in T3, S3, K3, V3.
  all: match goal with |- context [os_OpenFile ?p ?fl ?w] =>
         destruct (os_OpenFile p fl w) as [[f|eo] w4] eqn:E4 end; cbn.
  all: pose proof (os_OpenFile_effect _ _ _ _ _ E4) as [T4 S4 K4 V4 _];
       cbn in T4, S4, K4, V4.
  all: try (destruct (headerGenerator (self fr)) as [gen|]; cbn).
  all: try match goal with |- context [os_WriteString ?a ?m ?w] =>
         destruct (os_WriteString a m w) as [r w5] eqn:E5;
         apply os_WriteString_effect in E5 as [T5 S5 K5 V5 _];
         cbn in T5, S5, K5, V5; destruct r as [nw|ew]; cbn
       end.
  all: rewrite ?T5, T4, T3, T1, <- !app_assoc.
  all: eexists; (split; [reflexivity|]).
  all: intros c; cbn; intros [= <-]; reflexivity.
Qed.

(** What a tracked [reallyAppend] calls: the write of the record alone, or
    that write and a rotation, which leaves the handle closed and makes no
    sync. *)
Lemma reallyAppend_io (log : Log) (fr : Frame) (h : nat) :
  file (self fr) = Some h ->
  exists calls,
    trace (world (reallyAppend log true fr).2) = trace (world fr) ++ calls
    /\ ((exists m r, calls = [(SysWrite h m, r)])
        \/ ((exists c, last_io calls = Some c /\ is_write c = true)
            /\ exists d, fds (world (reallyAppend log true fr).2) !! h = Some d
                 /\ fd_open d = false)).
Proof.
  intros Hf. unfold reallyAppend, reallyAppend_with. unfold_m. cbn. rewrite Hf. cbn.
  destruct (os_WriteString h (FormatLog (env (world fr)) log) (world fr))
    as [[n|e] w1] eqn:E1; cbn.
  - pose proof (os_WriteString_done_valid _ _ _ _ _ E1) as Hv.
    apply os_WriteString_effect in E1 as [T1 _ _ _ _]. cbn in T1.
    destruct (_ <? _)%Z; cbn.
    + match goal with |- context [rotate ?f0] =>
        destruct (rotate_io f0 h Hf) as (calls & T2 & R2);
        destruct (rotate_closes f0 h Hf Hv) as (d & Hd & Ho);
        destruct (rotate f0) as [u fr'] end.
      cbn in *. eexists. rewrite T2, T1, <- app_assoc. split; [reflexivity|].
      right. split; [|exists d; split; assumption].
      rewrite last_io_app. destruct (last_io calls) as [c|] eqn:L.
      * exists c. split; [reflexivity|apply R2; reflexivity].
      * eexists. split; reflexivity.
    + eexists. split; [exact T1|]. left. eauto.
  - apply os_WriteString_effect in E1 as [T1 _ _ _ _]. cbn in T1.
    eexists. split; [exact T1|]. left. eauto.
Qed.

Lemma writes_on_app (h : nat) (a b : list (Syscall * option Cause)) :
  writes_on h a -> writes_on h b -> writes_on h (a ++ b).
Proof. intros Ha Hb. apply Forall_app. split; assumption. Qed.

Lemma client_move_calls (t : nat) (s s' : Sys) :
  client_move t s = Some s' ->
  listener_pc s' = listener_pc s
  /\ exists calls, trace (os_world s') = trace (os_world s) ++ calls
       /\ (calls = [] \/ exists h' r, calls = [(SysClose h', r)]).
Proof.
  assert (Hmove : forall c log a, append_move t c log a s = Some s' ->
            listener_pc s' = listener_pc s
            /\ exists calls, trace (os_world s') = trace (os_world s) ++ calls
                 /\ (calls = [] \/ exists h' r, calls = [(SysClose h', r)])).
  { intros c log a H. unfold append_move in H.
    destruct (Append_step _ _ _ _) as [[[a' q'] w']|] eqn:E; [|discriminate].
    apply Append_step_world in E as (_ & _ & _ & _ & E & _).
    injection H as <-. cbn. split; [reflexivity|].
    exists []. rewrite app_nil_r. split; [exact E|left; reflexivity]. }
  unfold client_move. destruct (clients s !! t) as [c|]; [|discriminate]. cbn.
  destruct (pc c); try discriminate; try apply Hmove.
  - destruct (todo c) as [|[log|] ?]; [discriminate|apply Hmove|].
    intros [= <-]. cbn. split; [reflexivity|].
    exists []. rewrite app_nil_r. split; [reflexivity|left; reflexivity].
  - unfold_m. cbn. destruct (file (appender s)) as [h'|]; cbn.
    2: { intros [= <-]. cbn. split; [reflexivity|].
         exists []. rewrite app_nil_r. split; [reflexivity|left; reflexivity]. }
    destruct (os_Close h' (os_world s)) as [r w'] eqn:E. intros [= <-].
    apply os_Close_effect in E as [T1 _ _ _ _]. cbn. split; [reflexivity|].
    eexists. split; [exact T1|right; eauto].
Qed.

Lemma step_sync_order (l : Label) (s s' : Sys) (h : nat)
    (base calls : list (Syscall * option Cause)) :
  file (listener s) = Some h ->
  trace (os_world s) = base ++ calls ->
  (listener_pc s = Loop true \/ last_io calls = None
   \/ exists r, last_io calls = Some (SysSync h, r)) ->
  (writes_on h calls
   \/ ((exists d, dead s h d)
       /\ forall r, last_io calls = Some (SysSync h, r) -> r <> None)) ->
  step l s = Some s' ->
  exists calls',
    trace (os_world s') = base ++ calls'
    /\ (listener_pc s' = Loop true \/ last_io calls' = None
        \/ exists r, last_io calls' = Some (SysSync h, r))
    /\ (writes_on h calls'
        \/ ((exists d, dead s' h d)
            /\ forall r, last_io calls' = Some (SysSync h, r) -> r <> None)).
Proof.
  intros Hf Ht HA HB Hstep.
  assert (Hdead : forall d, dead s h d -> dead s' h d).
  { intros d Hd. exact (proj1 (step_dead _ _ _ _ _ Hd Hstep)). }
  assert (HBq : forall new, List.filter is_io new = [] ->
            writes_on h (calls ++ new)
            \/ ((exists d, dead s' h d)
                /\ forall r, last_io (calls ++ new) = Some (SysSync h, r) -> r <> None)).
  { intros new Hq. destruct HB as [HB|[[d Hd] HB]].
    - left. apply writes_on_app; [exact HB|].
      apply Forall_forall. intros c Hc Hw. exfalso.
      assert (In c (List.filter is_io new)) as Hin.
      { apply List.filter_In. split; [apply list_elem_of_In; exact Hc|].
        destruct c as [[] ?]; try discriminate Hw; reflexivity. }
      rewrite Hq in Hin. destruct Hin.
    - right. split; [exists d; apply Hdead; exact Hd|].
      rewrite (last_io_quiet _ _ Hq). exact HB. }
  destruct l as [t| | |t| |].
  - unfold step in Hstep.
    destruct (client_move_calls _ _ _ Hstep) as (Hl & new & T & Hnew).
    assert (Hq : List.filter is_io new = [])
      by (destruct Hnew as [->|(h' & r & ->)]; reflexivity).
    exists (calls ++ new). rewrite T, Ht, app_assoc. split; [reflexivity|].
    split; [rewrite Hl, (last_io_quiet _ _ Hq); exact HA|apply HBq; exact Hq].
  - revert Hstep Hdead HBq. unfold step.
    destruct (listener_pc s); try discriminate.
    destruct (appendCh s) as [|log q]; [discriminate|].
    intros [= <-] Hdead _.
    destruct (listener_runs_proj (call (reallyAppend log true)) (Loop true) q s)
      as (_ & _ & H3 & _ & _ & H6).
    assert (Hself : listener (listener_runs (call (reallyAppend log true)) (Loop true) q s)
                    = listener s).
    { unfold listener_runs.
      pose proof (call_self (reallyAppend log true)
                    {| self := listener s; world := os_world s |}) as Hs.
      destruct (call _ _). exact Hs. }
    destruct (reallyAppend_io log {| self := listener s; world := os_world s |} h Hf)
      as (new & T & Hnew). cbn in T.
    exists (calls ++ new). rewrite H6, call_world, T, Ht, app_assoc.
    split; [reflexivity|]. split; [left; exact H3|].
    destruct Hnew as [(m & r & ->)|((c & Hc & Hw) & d & Hd & Ho)].
    + destruct HB as [HB|[[d Hd] HB]].
      * left. apply writes_on_app; [exact HB|].
        constructor; [intros _; eauto|constructor].
      * right. split; [exists d; apply Hdead; exact Hd|].
        intros r0. rewrite last_io_app. cbn. discriminate.
    + right. split.
      * exists d. unfold dead. rewrite Hself, H6, call_world.
        repeat split; assumption.
      * intros r0. rewrite last_io_app, Hc. intros [= ->]. discriminate Hw.
  - revert Hstep Hdead HBq. unfold step.
    destruct (listener_pc s) as [[|]| |]; try discriminate.
    destruct (appendCh s); [|discriminate].
    intros [= <-] Hdead _. unfold listener_runs in *. unfold_m. cbn in *.
    rewrite Hf in *. cbn in *.
    destruct (os_Sync h (os_world s)) as [r w'] eqn:E.
    pose proof (os_Sync_effect _ _ _ _ E) as [T1 _ _ _ _]. cbn in *.
    exists (calls ++ [(SysSync h, r)]). rewrite T1, Ht, app_assoc.
    split; [reflexivity|]. rewrite last_io_app. cbn.
    split; [right; right; eauto|].
    destruct HB as [HB|[[d Hd] HB]].
    + left. apply writes_on_app; [exact HB|].
      constructor; [discriminate|constructor].
    + right. split; [exists d; apply Hdead; exact Hd|].
      intros r0 [= <-]. destruct Hd as (_ & Hd & Ho).
      revert E. unfold os_Sync. rewrite (open_fd_closed _ _ _ Hd Ho).
      intros [= <- _]. discriminate.
  - assert (Hw : os_world s' = os_world s /\ listener_pc s' <> Loop true).
    { revert Hstep. unfold step.
      destruct (listener_pc s) as [[|]| |]; try discriminate.
      destruct (clients s !! t) as [c|]; [|discriminate]. cbn.
      destruct (pc c); try discriminate. intros [= <-]. split; [reflexivity|discriminate]. }
    assert (Hl : listener_pc s <> Loop true).
    { revert Hstep. unfold step. destruct (listener_pc s) as [[|]| |]; discriminate. }
    destruct Hw as [Hw _]. exists calls. rewrite Hw. split; [exact Ht|].
    split; [destruct HA as [HA|HA]; [contradiction|right; exact HA]|].
    specialize (HBq [] eq_refl). rewrite app_nil_r in HBq. exact HBq.
  - assert (Hw : os_world s' = os_world s).
    { revert Hstep. unfold step.
      destruct (listener_pc s); try discriminate. intros [= <-]. reflexivity. }
    assert (Hl : listener_pc s <> Loop true).
    { revert Hstep. unfold step. destruct (listener_pc s) as [[|]| |]; discriminate. }
    exists calls. rewrite Hw. split; [exact Ht|].
    split; [destruct HA as [HA|HA]; [contradiction|right; exact HA]|].
    specialize (HBq [] eq_refl). rewrite app_nil_r in HBq. exact HBq.
  - assert (Hw : os_world s' = os_world s).
    { revert Hstep. unfold step.
      destruct (listener_pc s) as [| |t b]; try discriminate.
      destruct (clients s !! t) as [c|]; [|discriminate]. cbn.
      destruct (pc c); try discriminate. intros [= <-]. reflexivity. }
    assert (Hl : listener_pc s <> Loop true).
    { revert Hstep. unfold step. destruct (listener_pc s) as [[|]| |]; discriminate. }
    exists calls. rewrite Hw. split; [exact Ht|].
    split; [destruct HA as [HA|HA]; [contradiction|right; exact HA]|].
    specialize (HBq [] eq_refl). rewrite app_nil_r in HBq. exact HBq.
Qed.

Lemma run_sync_order (ls : list Label) (h : nat) (base : list (Syscall * option Cause)) :
  forall (s s' : Sys) (calls : list (Syscall * option Cause)),
    file (listener s) = Some h ->
    trace (os_world s) = base ++ calls ->
    (listener_pc s = Loop true \/ last_io calls = None
     \/ exists r, last_io calls = Some (SysSync h, r)) ->
    (writes_on h calls
     \/ ((exists d, dead s h d)
         /\ forall r, last_io calls = Some (SysSync h, r) -> r <> None)) ->
    run ls s = Some s' ->
    exists calls',
      trace (os_world s') = base ++ calls'
      /\ (listener_pc s' = Loop true \/ last_io calls' = None
          \/ exists r, last_io calls' = Some (SysSync h, r))
      /\ (writes_on h calls'
          \/ forall r, last_io calls' = Some (SysSync h, r) -> r <> None).
Proof.
  induction ls as [|l ls IH]; intros s s' calls Hf Ht HA HB; cbn.
  - intros [= <-]. exists calls. split; [exact Ht|]. split; [exact HA|].
    destruct HB as [HB|[_ HB]]; [left|right]; exact HB.
  - destruct (step l s) as [s1|] eqn:E; [|discriminate]. cbn.
    pose proof (step_structs _ _ _ E) as [L _].
    destruct (step_sync_order _ _ _ _ _ _ Hf Ht HA HB E) as (calls1 & H1 & H2 & H3).
    apply (IH s1 s' calls1); rewrite ?L; assumption.
Qed.

(** Unless the writer is at the top of its loop with [needsSync] set, the
    last call of [WriteString] or [Sync] since the start, if there is one,
    is a call of [Sync] on the handle the writer holds: the writer answers
    [waitUntilEmpty] only after it has called [Sync] after its last write.
    The result of that call is ignored.  When it succeeded, every write
    since the start was made on that handle; when it failed, as it does
    after a rotation, which leaves the writer with a closed handle and the
    header written on another one, what was written need not be synced. *)
Theorem writer_calls_Sync_before_it_answers (ls : list Label) (s0 s : Sys) (h : nat) :
  file (listener s0) = Some h ->
  run ls s0 = Some s ->
  listener_pc s = Loop true
  \/ last_io (new_calls (os_world s0) (os_world s)) = None
  \/ exists r, last_io (new_calls (os_world s0) (os_world s)) = Some (SysSync h, r)
       /\ (r = None -> writes_on h (new_calls (os_world s0) (os_world s))).
Proof.
  intros Hf Hrun.
  destruct (run_sync_order ls h (trace (os_world s0)) s0 s [] Hf)
    as (calls & H1 & H2 & H3);
    [symmetry; apply app_nil_r|right; left; reflexivity|left; constructor|exact Hrun|].
  rewrite (new_calls_app _ _ _ H1).
  destruct H2 as [H2|[H2|[r H2]]]; [left; exact H2|right; left; exact H2|].
  right. right. exists r. split; [exact H2|]. intros ->.
  destruct H3 as [H3|H3]; [exact H3|]. destruct (H3 None H2 eq_refl).
Qed.

Lemma writer_calls_Sync_before_it_answers_witness :
  listener_pc (after two_clients_schedule two_clients) = Loop true
  \/ last_io (new_calls (os_world two_clients)
                (os_world (after two_clients_schedule two_clients))) = None
  \/ exists r,
       last_io (new_calls (os_world two_clients)
                  (os_world (after two_clients_schedule two_clients)))
         = Some (SysSync 0%nat, r)
       /\ (r = None ->
           writes_on 0%nat (new_calls (os_world two_clients)
                              (os_world (after two_clients_schedule two_clients)))).
Proof.
  apply (writer_calls_Sync_before_it_answers two_clients_schedule two_clients
           (after two_clients_schedule two_clients) 0%nat);
    vm_compute; reflexivity.
Defined.

(** After a rotation the header is the last thing written, on the new
    handle 1; the writer's [Sync] is called on the old handle 0 and fails. *)
Example rotation_leaves_the_header_unsynced :
  new_calls (os_world rotates_with_header)
    (os_world (after [Move 0; Recv; Default]%nat rotates_with_header))
  = [(SysWrite 0 "first;", None); (SysClose 0, None);
     (SysRename "/log" "/log.2013-04-05T06-07-08", None);
     (SysOpen "/log" {| o_create := true; o_append := false; o_trunc := true |}, None);
     (SysWrite 1 "HEADER;", None); (SysSync 0, Some ErrClosed)].
Proof. vm_compute. reflexivity. Qed.

(** ** The writer, one operation at a time *)

Lemma exec_bind {A B : Type} (p : Prog A) (k : A -> Prog B) (fr : Frame) :
  exec (bindP k p) fr = let '(a, fr') := exec p fr in exec (k a) fr'.
Proof.
  revert fr. induction p as [a|X o k' IH]; intros fr; cbn; [reflexivity|].
  destruct (run_op o fr) as [x fr']. apply IH.
Qed.

Lemma exec_act {X : Type} (o : Op X) (fr : Frame) : exec (act o) fr = run_op o fr.
Proof. cbn. destruct (run_op o fr). reflexivity. Qed.

Lemma exec_bind_eq {A B : Type} (p : Prog A) (m : M A) (k : A -> Prog B)
    (k' : A -> M B) :
  (forall fr, exec p fr = m fr) ->
  (forall a fr, exec (k a) fr = k' a fr) ->
  forall fr, exec (bindP k p) fr = bind k' m fr.
Proof.
  intros Hp Hk fr. rewrite exec_bind, Hp. unfold bind.
  destruct (m fr) as [a fr']. apply Hk.
Qed.

Lemma exec_callP {A : Type} (p : Prog A) (m : M A) :
  (forall fr, exec p fr = m fr) -> forall fr, exec (callP p) fr = call m fr.
Proof.
  intros H fr. unfold callP, call. cbn. change (bindP ?k ?p) with (mbind k p).
  unfold mbind, Prog_bind. rewrite exec_bind, H. destruct (m fr) as [a fr']. reflexivity.
Qed.

Lemma exec_reallyAppendP_with (rotP : Prog unit) (rot : M unit) log ts :
  (forall fr, exec rotP fr = rot fr) ->
  forall fr, exec (reallyAppendP_with rotP log ts) fr = reallyAppend_with rot log ts fr.
Proof.
  intros H fr. unfold reallyAppendP_with, reallyAppend_with. unfold_m. cbn.
  destruct (file (self fr)) as [f|]; cbn; [|reflexivity].
  unfold_m. cbn.
  destruct (os_WriteString f _ (world fr)) as [[n|err] w]; cbn; [|reflexivity].
  destruct ts; cbn; [|reflexivity].
  destruct (_ <? _)%Z; [|reflexivity].
  apply (exec_callP rotP rot H).
Qed.

Lemma exec_reallyAppendP_untracked (rotP : Prog unit) (rot : M unit) log :
  forall fr, exec (reallyAppendP_with rotP log false) fr = reallyAppend_with rot log false fr.
Proof.
  intros fr. unfold reallyAppendP_with, reallyAppend_with. unfold_m. cbn.
  destruct (file (self fr)) as [f|]; cbn; [|reflexivity].
  unfold_m. cbn.
  destruct (os_WriteString f _ (world fr)) as [[n|err] w]; reflexivity.
Qed.

Lemma exec_logHeaderP_with (rotP : Prog unit) (rot : M unit) :
  forall fr, exec (logHeaderP_with rotP) fr = logHeader_with rot fr.
Proof.
  unfold logHeaderP_with, logHeader_with.
  apply exec_bind_eq; [intros; exact (exec_act OThis _)|intros s fr1].
  destruct (headerGenerator s) as [gen|]; [|reflexivity].
  revert fr1.
  apply exec_bind_eq; [intros; exact (exec_act (OSimpleLog _ _ _ _ _) _)|intros log fr2].
  revert fr2. apply exec_callP. apply exec_reallyAppendP_untracked.
Qed.

Lemma exec_renameLogFileP (o n : string) :
  forall fr, exec (renameLogFileP o n) fr = renameLogFile o n fr.
Proof.
  unfold renameLogFileP, renameLogFile.
  apply exec_bind_eq; [intros; exact (exec_act (ORename _ _) _)|intros err fr1].
  destruct err as [e|]; revert fr1.
  - apply exec_bind_eq; [intros; exact (exec_act (OErrHandler _) _)|intros [] fr2].
    revert fr2.
    apply exec_bind_eq; [intros; exact (exec_act (OOpenFile _ _) _)|intros r fr3].
    revert fr3. apply exec_bind_eq; [|reflexivity].
    destruct r as [f|e']; [intros; exact (exec_act (OAssignFile _) _)|].
    apply exec_bind_eq; [intros; exact (exec_act (OAssignCurFileSize _) _)|intros [] fr4].
    revert fr4.
    apply exec_bind_eq; [intros; exact (exec_act (OAssignFile _) _)|intros [] fr5].
    exact (exec_act (OErrHandler _) _).
  - apply exec_bind_eq; [intros; exact (exec_act (OAssignCurFileSize _) _)|reflexivity].
Qed.

Lemma exec_rotateP_with (rotP : Prog unit) (rot : M unit) :
  forall fr, exec (rotateP_with rotP) fr = rotate_with rot fr.
Proof.
  unfold rotateP_with, rotate_with.
  apply exec_bind_eq; [intros; exact (exec_act OThis _)|intros s fr1]. revert fr1.
  apply exec_bind_eq; [intros; exact (exec_act (OClose _) _)|intros err fr2]. revert fr2.
  apply exec_bind_eq;
    [destruct err; [intros; exact (exec_act (OErrHandler _) _)|reflexivity]
    |intros [] fr3]. revert fr3.
  apply exec_bind_eq;
    [intros; exact (exec_act (ONewRotatedFilename _) _)|intros newname fr4]. revert fr4.
  apply exec_bind_eq; [apply exec_callP, exec_renameLogFileP|intros ok fr5].
  destruct ok; cbn [negb]; [|reflexivity]. revert fr5.
  apply exec_bind_eq; [intros; exact (exec_act (OOpenFile _ _) _)|intros r fr6].
  destruct r as [f|e]; revert fr6.
  - apply exec_bind_eq; [intros; exact (exec_act (OAssignFile _) _)|intros [] fr7].
    revert fr7. apply exec_callP. apply exec_logHeaderP_with.
  - apply exec_bind_eq; [intros; exact (exec_act (OAssignFile _) _)|intros [] fr7].
    exact (exec_act (OErrHandler _) _).
Qed.

(** Run in one go, the programs are the method bodies. *)
Lemma exec_rotateP (fr : Frame) : exec rotateP fr = rotate fr.
Proof. apply exec_rotateP_with. Qed.

Lemma exec_logHeaderP (fr : Frame) : exec logHeaderP fr = logHeader fr.
Proof. apply exec_logHeaderP_with. Qed.

Lemma exec_reallyAppend (log : Log) (trackSize : bool) (fr : Frame) :
  exec (reallyAppendP log trackSize) fr = reallyAppend log trackSize fr.
Proof. apply exec_reallyAppendP_with. exact exec_rotateP. Qed.

(** A move of a client, and a move of the writer outside [reallyAppend],
    reports nothing, changes no file and writes nothing. *)
Lemma client_move_quiet (t : nat) (s s' : Sys) :
  client_move t s = Some s' ->
  sink (os_world s') = sink (os_world s)
  /\ inodes (os_world s') = inodes (os_world s)
  /\ dir (os_world s') = dir (os_world s)
  /\ env (os_world s') = env (os_world s)
  /\ exists calls, trace (os_world s') = trace (os_world s) ++ calls
       /\ List.filter is_write calls = [].
Proof.
  assert (Hmove : forall c log a, append_move t c log a s = Some s' ->
            sink (os_world s') = sink (os_world s)
            /\ inodes (os_world s') = inodes (os_world s)
            /\ dir (os_world s') = dir (os_world s)
            /\ env (os_world s') = env (os_world s)
            /\ exists calls, trace (os_world s') = trace (os_world s) ++ calls
                 /\ List.filter is_write calls = []).
  { intros c log a H. unfold append_move in H.
    destruct (Append_step _ _ _ _) as [[[a' q'] w']|] eqn:E; [|discriminate].
    apply Append_step_world in E as (E1 & E2 & _ & E4 & E5 & E6).
    injection H as <-. cbn. repeat (split; [assumption|]).
    exists []. rewrite app_nil_r. split; [exact E5|reflexivity]. }
  unfold client_move. destruct (clients s !! t) as [c|]; [|discriminate]. cbn.
  destruct (pc c); try discriminate; try apply Hmove.
  - destruct (todo c) as [|[log|] ?]; [discriminate|apply Hmove|].
    intros [= <-]. cbn. repeat (split; [reflexivity|]).
    exists []. rewrite app_nil_r. split; reflexivity.
  - unfold_m. cbn. destruct (file (appender s)) as [h'|]; cbn.
    2: { intros [= <-]. cbn. repeat (split; [reflexivity|]).
         exists []. rewrite app_nil_r. split; reflexivity. }
    destruct (os_Close h' (os_world s)) as [r w'] eqn:E. intros [= <-].
    pose proof (os_Close_files _ _ _ _ E) as [F1 F2].
    apply os_Close_effect in E as [T1 T2 _ T4 _]. cbn.
    repeat (split; [assumption|]).
    eexists. split; [exact T1|reflexivity].
Qed.

Lemma step_quiet (l : Label) (s s' : Sys) :
  l <> Recv -> step l s = Some s' ->
  sink (os_world s') = sink (os_world s)
  /\ inodes (os_world s') = inodes (os_world s)
  /\ dir (os_world s') = dir (os_world s)
  /\ env (os_world s') = env (os_world s)
  /\ exists calls, trace (os_world s') = trace (os_world s) ++ calls
       /\ List.filter is_write calls = [].
Proof.
  intros Hl.
  assert (Hsame : os_world s' = os_world s ->
            sink (os_world s') = sink (os_world s)
            /\ inodes (os_world s') = inodes (os_world s)
            /\ dir (os_world s') = dir (os_world s)
            /\ env (os_world s') = env (os_world s)
            /\ exists calls, trace (os_world s') = trace (os_world s) ++ calls
                 /\ List.filter is_write calls = []).
  { intros ->. repeat (split; [reflexivity|]).
    exists []. rewrite app_nil_r. split; reflexivity. }
  destruct l as [t| | |t| |]; unfold step.
  - apply client_move_quiet.
  - contradiction.
  - destruct (listener_pc s) as [[|]| |]; try discriminate.
    destruct (appendCh s); [|discriminate].
    intros [= <-]. clear Hsame. unfold listener_runs. unfold_m. cbn.
    destruct (file (listener s)) as [h|]; cbn.
    2: { repeat (split; [reflexivity|]).
         exists []. rewrite app_nil_r. split; reflexivity. }
    destruct (os_Sync h (os_world s)) as [r w'] eqn:E.
    pose proof (os_Sync_same _ _ _ _ E) as (F1 & F2 & _).
    apply os_Sync_effect in E as [T1 T2 _ T4 _]. cbn.
    repeat (split; [assumption|]).
    eexists. split; [exact T1|reflexivity].
  - destruct (listener_pc s) as [[|]| |]; try discriminate.
    destruct (clients s !! t) as [c|]; [|discriminate]. cbn.
    destruct (pc c); try discriminate. intros [= <-]. apply Hsame. reflexivity.
  - destruct (listener_pc s); try discriminate. intros [= <-]. apply Hsame. reflexivity.
  - destruct (listener_pc s) as [| |t b]; try discriminate.
    destruct (clients s !! t) as [c|]; [|discriminate]. cbn.
    destruct (pc c); try discriminate. intros [= <-]. apply Hsame. reflexivity.
Qed.

(** No operation of the writer opens a closed handle again, and none
    changes the environment. *)
Lemma run_op_keeps_closed {X : Type} (o : Op X) (fr : Frame) :
  keeps_closed (world fr) (world (run_op o fr).2)
  /\ env (world (run_op o fr).2) = env (world fr).
Proof.
  destruct o; cbn; unfold_m; cbn;
    try (split; [apply keeps_closed_refl|reflexivity]);
    try (split; [apply keeps_closed_fds|]; reflexivity).
  - destruct (os_WriteString h msg (world fr)) as [r w] eqn:E.
    apply os_WriteString_effect in E as [_ _ _ E1 E2]. split; assumption.
  - destruct f as [h|]; cbn; [|split; [apply keeps_closed_refl|reflexivity]].
    destruct (os_Close h (world fr)) as [r w] eqn:E.
    apply os_Close_effect in E as [_ _ _ E1 E2]. split; assumption.
  - destruct (os_Rename oldpath newpath (world fr)) as [r w] eqn:E.
    apply os_Rename_effect in E as [_ _ _ E1 E2]. split; assumption.
  - destruct (os_OpenFile path fl (world fr)) as [r w] eqn:E.
    apply os_OpenFile_effect in E as [_ _ _ E1 E2]. split; assumption.
Qed.

Lemma fstep_dead (l : FLabel) (s s' : FSys) (h : nat) (d : FileDesc) :
  dead (coarse s) h d -> fstep l s = Some s' ->
  dead (coarse s') h d
  /\ env (os_world (coarse s')) = env (os_world (coarse s)).
Proof.
  intros Hdead. pose proof Hdead as (Hf & Hd & Hc). unfold fstep.
  destruct l as [l|].
  - assert (Hstep : forall s1, l <> Recv -> step l (coarse s) = Some s1 ->
              dead s1 h d /\ env (os_world s1) = env (os_world (coarse s))).
    { intros s1 Hl H. split; [exact (proj1 (step_dead _ _ _ _ _ Hdead H))|].
      apply (step_quiet _ _ _ Hl H). }
    destruct l as [t| | |t| |].
    + destruct (client_move t (coarse s)) as [s1|] eqn:E; [|discriminate].
      cbn. intros [= <-]. cbn. apply (Hstep s1); [discriminate|first [exact E|reflexivity]].
    + destruct (busy s); [discriminate|].
      destruct (listener_pc (coarse s)); try discriminate.
      destruct (appendCh (coarse s)) as [|log q]; [discriminate|].
      intros [= <-]. cbn. split; [exact Hdead|reflexivity].
    + destruct (busy s); [discriminate|].
      destruct (step Default (coarse s)) as [s1|] eqn:E; [|discriminate].
      cbn. intros [= <-]. cbn. apply (Hstep s1); [discriminate|first [exact E|reflexivity]].
    + destruct (busy s); [discriminate|].
      destruct (step (Sync t) (coarse s)) as [s1|] eqn:E; [|discriminate].
      cbn. intros [= <-]. cbn. apply (Hstep s1); [discriminate|first [exact E|reflexivity]].
    + destruct (busy s); [discriminate|].
      destruct (step EvalLen (coarse s)) as [s1|] eqn:E; [|discriminate].
      cbn. intros [= <-]. cbn. apply (Hstep s1); [discriminate|first [exact E|reflexivity]].
    + destruct (busy s); [discriminate|].
      destruct (step Reply (coarse s)) as [s1|] eqn:E; [|discriminate].
      cbn. intros [= <-]. cbn. apply (Hstep s1); [discriminate|first [exact E|reflexivity]].
  - destruct (busy s) as [[[u|X o k] a]|]; [| |discriminate].
    + intros [= <-]. cbn. split; [exact Hdead|reflexivity].
    + pose proof (run_op_keeps_closed o {| self := a; world := os_world (coarse s) |})
        as [K1 K2].
      destruct (run_op o _) as [x fr]. intros [= <-]. cbn in *.
      split; [|exact K2]. repeat split; [exact Hf| |exact Hc].
      apply K1; assumption.
Qed.

Lemma frun_dead (ls : list FLabel) (h : nat) (d : FileDesc) :
  forall s s' : FSys,
    dead (coarse s) h d -> frun ls s = Some s' ->
    dead (coarse s') h d
    /\ env (os_world (coarse s')) = env (os_world (coarse s)).
Proof.
  induction ls as [|l ls IH]; intros s s' Hd; cbn.
  - intros [= <-]. split; [exact Hd|reflexivity].
  - destruct (fstep l s) as [s1|] eqn:E; [|discriminate]. cbn. intros H.
    destruct (fstep_dead _ _ _ _ _ Hd E) as [H1 H2].
    destruct (IH _ _ H1 H) as [H3 H4]. split; [exact H3|congruence].
Qed.

(** A record on a closed handle: one refused write, one report. *)
Lemma refusal_reallyAppend (h : nat) (e : Env) (a : RollingFileAppender) (log : Log) :
  file a = Some h ->
  refusal h e a (reallyAppendP log true)
  = Some ([(SysWrite h (FormatLog e log), Some ErrClosed)],
          [WriteError (absPath a) ErrClosed]).
Proof. intros H. cbn. rewrite H. cbn. rewrite Nat.eqb_refl. reflexivity. Qed.

Lemma filter_is_write_app (a b : list (Syscall * option Cause)) :
  List.filter is_write b = [] ->
  List.filter is_write (a ++ b) = List.filter is_write a.
Proof. intros H. rewrite List.filter_app, H. apply app_nil_r. Qed.

Lemma fstep_refusing (l : FLabel) (s s' : FSys) (h : nat) (d : FileDesc)
    (w0 : World) (ws : list (Syscall * option Cause)) (es : list Error) :
  dead (coarse s) h d -> env (os_world (coarse s)) = env w0 ->
  refusing h w0 ws es s ->
  l <> Coarse Recv -> fstep l s = Some s' ->
  refusing h w0 ws es s'.
Proof.
  intros Hdead He (Hi & Hdir & calls & ws2 & es1 & es2 & Ht & Hws & Hs & Hes & Hb) Hl.
  pose proof Hdead as (Hf & Hd & Hc). unfold fstep.
  destruct l as [l|].
  - assert (Hstep : forall s1 b', l <> Recv -> step l (coarse s) = Some s1 ->
              b' = busy s -> refusing h w0 ws es {| coarse := s1; busy := b' |}).
    { intros s1 b' Hl' H ->.
      destruct (step_quiet _ _ _ Hl' H) as (Q1 & Q2 & Q3 & _ & new & Q5 & Q6).
      unfold refusing. cbn. rewrite Q2, Q3. split; [exact Hi|]. split; [exact Hdir|].
      exists (calls ++ new), ws2, es1, es2.
      rewrite Q5, Ht, app_assoc, Q1, (filter_is_write_app _ _ Q6).
      repeat (split; [reflexivity || assumption|]). exact Hb. }
    destruct l as [t| | |t| |].
    + destruct (client_move t (coarse s)) as [s1|] eqn:E; [|discriminate].
      cbn. intros [= <-]. apply Hstep; [discriminate|exact E|reflexivity].
    + contradiction.
    + destruct (busy s) eqn:B; [discriminate|].
      destruct (step Default (coarse s)) as [s1|] eqn:E; [|discriminate].
      cbn. intros [= <-]. apply Hstep; [discriminate|first [exact E|reflexivity]|reflexivity].
    + destruct (busy s) eqn:B; [discriminate|].
      destruct (step (Sync t) (coarse s)) as [s1|] eqn:E; [|discriminate].
      cbn. intros [= <-]. apply Hstep; [discriminate|first [exact E|reflexivity]|reflexivity].
    + destruct (busy s) eqn:B; [discriminate|].
      destruct (step EvalLen (coarse s)) as [s1|] eqn:E; [|discriminate].
      cbn. intros [= <-]. apply Hstep; [discriminate|first [exact E|reflexivity]|reflexivity].
    + destruct (busy s) eqn:B; [discriminate|].
      destruct (step Reply (coarse s)) as [s1|] eqn:E; [|discriminate].
      cbn. intros [= <-]. apply Hstep; [discriminate|first [exact E|reflexivity]|reflexivity].
  - destruct (busy s) as [[[u|X o k] a]|]; [| |discriminate].
    + intros [= <-]. cbn in Hb. injection Hb as <- <-.
      unfold refusing. cbn. split; [exact Hi|]. split; [exact Hdir|].
      exists calls, [], es1, []. repeat (split; [assumption|]). split; reflexivity.
    + destruct o; cbn in Hb; try discriminate Hb; cbn; unfold_m; cbn.
      * intros [= <-]. unfold refusing. cbn. split; [exact Hi|]. split; [exact Hdir|].
        exists calls, ws2, es1, es2. repeat (split; [assumption|]). exact Hb.
      * intros [= <-].
        destruct (refusal h (env w0) a (k tt)) as [[ws' es']|] eqn:R; [|discriminate].
        injection Hb as <- <-.
        unfold refusing. cbn. split; [exact Hi|]. split; [exact Hdir|].
        exists calls, ws', (es1 ++ [e]), es'. rewrite Hs, <- !app_assoc.
        repeat (split; [reflexivity || assumption|]). exact R.
      * intros [= <-]. unfold refusing. cbn. split; [exact Hi|]. split; [exact Hdir|].
        exists calls, ws2, es1, es2. repeat (split; [assumption|]).
        rewrite He. exact Hb.
      * destruct (Nat.eqb_spec h0 h) as [->|]; [|discriminate].
        destruct (refusal h (env w0) a (k (inr ErrClosed))) as [[ws' es']|] eqn:R;
          [|discriminate].
        injection Hb as <- <-.
        unfold os_WriteString. rewrite (open_fd_closed _ _ _ Hd Hc).
        intros [= <-]. unfold refusing. cbn. split; [exact Hi|]. split; [exact Hdir|].
        exists (calls ++ [(SysWrite h msg, Some ErrClosed)]), ws', es1, es'.
        rewrite Ht, <- !app_assoc, List.filter_app. cbn. rewrite <- app_assoc.
        repeat (split; [reflexivity || assumption|]). exact R.
Qed.

Lemma frun_refusing (ls : list FLabel) (h : nat) (d : FileDesc)
    (w0 : World) (ws : list (Syscall * option Cause)) (es : list Error) :
  forall s s' : FSys,
    dead (coarse s) h d -> env (os_world (coarse s)) = env w0 ->
    refusing h w0 ws es s ->
    Coarse Recv ∉ ls -> frun ls s = Some s' ->
    refusing h w0 ws es s'.
Proof.
  induction ls as [|l ls IH]; intros s s' Hd He Hr Hn; cbn.
  - intros [= <-]. exact Hr.
  - destruct (fstep l s) as [s1|] eqn:E; [|discriminate]. cbn. intros H.
    apply not_elem_of_cons in Hn as [Hl Hn].
    destruct (fstep_dead _ _ _ _ _ Hd E) as [D1 D2].
    apply (IH s1 s'); try assumption; [congruence|].
    apply (fstep_refusing l s s1 h d); try assumption. congruence.
Qed.

(** Left alone, the writer comes back from [reallyAppend], with what the
    method body does in one go. *)
Lemma ticks_return (p : Prog unit) :
  forall (a : RollingFileAppender) (s : Sys),
  exists n,
    frun (replicate n Tick) {| coarse := s; busy := Some (p, a) |}
    = Some (idle (with_listener_pc (Loop true)
                    (with_os_world
                       (world (exec p {| self := a; world := os_world s |}).2) s))).
Proof.
  induction p as [u|X o k IH]; intros a s.
  - exists 1%nat. destruct s. reflexivity.
  - destruct (run_op o {| self := a; world := os_world s |}) as [x fr] eqn:E.
    destruct (IH x (self fr) (with_os_world (world fr) s)) as [n Hn].
    exists (S n). cbn [replicate frun fstep busy coarse]. rewrite E. cbn [mbind option_bind].
    rewrite Hn. cbn [exec]. rewrite E. cbn. destruct fr. reflexivity.
Qed.

Lemma frun_app (ls1 ls2 : list FLabel) (s : FSys) :
  frun (ls1 ++ ls2) s = (s' ← frun ls1 s; frun ls2 s').
Proof.
  revert s. induction ls1 as [|l ls1 IH]; intros s; cbn; [reflexivity|].
  destruct (fstep l s) as [s1|]; cbn; [apply IH|reflexivity].
Qed.

(** Every move of [step] is a run of [fstep]: the writer handles the
    record without a client moving in between. *)
Lemma step_fstep (l : Label) (s s' : Sys) :
  step l s = Some s' -> exists ls, frun ls (idle s) = Some (idle s').
Proof.
  intros H. destruct (decide (l = Recv)) as [->|Hl].
  - revert H. unfold step.
    destruct (listener_pc s) as [b| |] eqn:Hpc; try discriminate.
    destruct (appendCh s) as [|log q] eqn:Hq; [discriminate|]. intros [= <-].
    destruct (ticks_return (reallyAppendP log true) (listener s) (with_appendCh q s))
      as [n Hn].
    exists (Coarse Recv :: replicate n Tick).
    cbn [frun fstep idle busy coarse]. rewrite Hpc, Hq. cbn [mbind option_bind].
    rewrite Hn, exec_reallyAppend. unfold listener_runs, call. cbn.
    destruct (reallyAppend log true _) as [u fr]. reflexivity.
  - exists [Coarse l]. cbn [frun fstep idle busy coarse].
    destruct l; try contradiction; try (rewrite H; reflexivity).
    change (client_move t s) with (step (Move t) s). rewrite H. reflexivity.
Qed.

Lemma run_frun (ls : list Label) :
  forall s s' : Sys,
    run ls s = Some s' -> exists fls, frun fls (idle s) = Some (idle s').
Proof.
  induction ls as [|l ls IH]; intros s s'; cbn.
  - intros [= <-]. exists []. reflexivity.
  - destruct (step l s) as [s1|] eqn:E; [|discriminate]. cbn. intros H.
    destruct (step_fstep _ _ _ E) as [ls1 H1]. destruct (IH _ _ H) as [ls2 H2].
    exists (ls1 ++ ls2). rewrite frun_app, H1. exact H2.
Qed.

Lemma fstep_structs (l : FLabel) (s s' : FSys) :
  fstep l s = Some s' -> listener (coarse s') = listener (coarse s).
Proof.
  unfold fstep. destruct l as [l|].
  - assert (Hstep : forall s1, step l (coarse s) = Some s1 ->
              listener s1 = listener (coarse s)).
    { intros s1 H. exact (proj1 (step_structs _ _ _ H)). }
    destruct l as [t| | |t| |].
    + destruct (client_move t (coarse s)) as [s1|] eqn:E; [|discriminate].
      cbn. intros [= <-]. apply Hstep. exact E.
    + destruct (busy s); [discriminate|].
      destruct (listener_pc (coarse s)); try discriminate.
      destruct (appendCh (coarse s)); [discriminate|]. intros [= <-]. reflexivity.
    + destruct (busy s); [discriminate|].
      destruct (step Default (coarse s)) as [s1|] eqn:E; [|discriminate].
      cbn. intros [= <-]. apply Hstep. first [exact E|reflexivity].
    + destruct (busy s); [discriminate|].
      destruct (step (Sync t) (coarse s)) as [s1|] eqn:E; [|discriminate].
      cbn. intros [= <-]. apply Hstep. first [exact E|reflexivity].
    + destruct (busy s); [discriminate|].
      destruct (step EvalLen (coarse s)) as [s1|] eqn:E; [|discriminate].
      cbn. intros [= <-]. apply Hstep. first [exact E|reflexivity].
    + destruct (busy s); [discriminate|].
      destruct (step Reply (coarse s)) as [s1|] eqn:E; [|discriminate].
      cbn. intros [= <-]. apply Hstep. first [exact E|reflexivity].
  - destruct (busy s) as [[[u|X o k] a]|]; [| |discriminate].
    + intros [= <-]. reflexivity.
    + destruct (run_op o _) as [x fr]. intros [= <-]. reflexivity.
Qed.

Lemma frun_structs (ls : list FLabel) :
  forall s s' : FSys, frun ls s = Some s' -> listener (coarse s') = listener (coarse s).
Proof.
  induction ls as [|l ls IH]; intros s s'; cbn.
  - intros [= <-]. reflexivity.
  - destruct (fstep l s) as [s1|] eqn:E; [|discriminate]. cbn. intros H.
    rewrite (IH _ _ H). exact (fstep_structs _ _ _ E).
Qed.

(** C7, as the code has it.  When [Close] returns, the handle the writer
    loop holds is closed, not nil, and it stays so whatever the clients and
    the writer do.  Every record the writer takes from the queue from then
    on can be handled to the end, and however the clients move while it is
    handled, it is written to the closed handle: that write is the only one
    made, it fails, a [WriteError] with the path and the cause is reported
    and nothing else is, and no file changes.  Nothing is said of a record
    the writer was handling already when [Close] closed the file. *)
Theorem C7_writes_after_close_fail (t : nat) (s s1 : FSys) (c : Client) (h : nat) :
  clients (coarse s) !! t = Some c -> pc c = FileClose ->
  file (appender (coarse s)) = Some h -> file (listener (coarse s)) = Some h ->
  is_Some (fds (os_world (coarse s)) !! h) ->
  fstep (Coarse (Move t)) s = Some s1 ->
  (exists r, clients (coarse s1) !! t = Some (ret_to r c))
  /\ forall (ls : list FLabel) (s2 : FSys),
       frun ls s1 = Some s2 ->
       (file (listener (coarse s2)) = Some h
        /\ exists d, fds (os_world (coarse s2)) !! h = Some d /\ fd_open d = false)
       /\ forall (log : Log) (q : list Log) (b : bool),
            busy s2 = None -> appendCh (coarse s2) = log :: q ->
            listener_pc (coarse s2) = Loop b ->
            exists s3,
              fstep (Coarse Recv) s2 = Some s3
              /\ appendCh (coarse s3) = q
              /\ (exists n s4, frun (replicate n Tick) s3 = Some s4 /\ busy s4 = None)
              /\ forall (ls' : list FLabel) (s4 : FSys),
                   frun ls' s3 = Some s4 -> Coarse Recv ∉ ls' -> busy s4 = None ->
                   sink (os_world (coarse s4))
                   = sink (os_world (coarse s2))
                       ++ [WriteError (absPath (listener (coarse s))) ErrClosed]
                   /\ List.filter is_write
                        (new_calls (os_world (coarse s2)) (os_world (coarse s4)))
                      = [(SysWrite h (FormatLog (env (os_world (coarse s2))) log),
                          Some ErrClosed)]
                   /\ inodes (os_world (coarse s4)) = inodes (os_world (coarse s2))
                   /\ dir (os_world (coarse s4)) = dir (os_world (coarse s2)).
Proof.
  intros Hc Hpc Hfa Hfl Hh Hstep.
  assert (Hdead1 : (exists r, clients (coarse s1) !! t = Some (ret_to r c))
                   /\ listener (coarse s1) = listener (coarse s)
                   /\ exists d, dead (coarse s1) h d).
  { unfold fstep, client_move in Hstep. rewrite Hc in Hstep. cbn in Hstep.
    rewrite Hpc in Hstep. unfold_m. cbn in Hstep. rewrite Hfa in Hstep. cbn in Hstep.
    destruct (os_Close h (os_world (coarse s))) as [e w'] eqn:E.
    injection Hstep as <-.
    destruct (os_Close_closes _ _ _ _ Hh E) as (d & Hd & Ho). cbn.
    split; [|split; [reflexivity|]].
    - exists e. apply list_lookup_insert_eq. apply (lookup_lt_Some _ _ _ Hc).
    - exists d. repeat split; assumption. }
  destruct Hdead1 as (Hret & Hl1 & d & Hdead1). split; [exact Hret|].
  intros ls s2 Hrun.
  destruct (frun_dead _ _ _ _ _ Hdead1 Hrun) as [Hdead2 _].
  pose proof (frun_structs _ _ _ Hrun) as Hl2. rewrite Hl1 in Hl2.
  split; [destruct Hdead2 as (D1 & D2 & D3); eauto|].
  intros log q b Hb Hq Hl.
  eexists. split; [unfold fstep; rewrite Hb, Hl, Hq; reflexivity|].
  split; [reflexivity|]. split.
  - destruct (ticks_return (reallyAppendP log true) (listener (coarse s2))
                (with_appendCh q (coarse s2))) as [n Hn].
    exists n. eexists. split; [exact Hn|reflexivity].
  - intros ls' s4 Hrun' Hn Hb4.
    match type of Hrun' with
    | frun _ ?s3 = _ =>
        assert (Hr : refusing h (os_world (coarse s2))
                       [(SysWrite h (FormatLog (env (os_world (coarse s2))) log),
                         Some ErrClosed)]
                       [WriteError (absPath (listener (coarse s))) ErrClosed] s3)
    end.
    { unfold refusing. cbn. split; [reflexivity|]. split; [reflexivity|].
      exists [], [(SysWrite h (FormatLog (env (os_world (coarse s2))) log),
                   Some ErrClosed)],
        [], [WriteError (absPath (listener (coarse s))) ErrClosed].
      rewrite !app_nil_r. repeat (split; [reflexivity|]).
      rewrite <- Hl2. apply refusal_reallyAppend. apply Hdead2. }
    apply (frun_refusing ls' h d _ _ _ _ s4) in Hr;
      [|exact Hdead2|reflexivity|exact Hn|exact Hrun'].
    destruct Hr as (Hi & Hdir & calls & ws2 & es1 & es2 & Ht & Hws & Hs & Hes & Hbusy).
    rewrite Hb4 in Hbusy. destruct Hbusy as [-> ->]. rewrite app_nil_r in Hws, Hes.
    rewrite (new_calls_app _ _ _ Ht), <- Hws, Hs, <- Hes.
    repeat split; assumption || reflexivity.
Qed.

Lemma frun_fafter (ls : list FLabel) (s : FSys) :
  runs ls s = true -> frun ls s = Some (fafter ls s).
Proof. unfold runs, fafter. destruct (frun ls s); [reflexivity|discriminate]. Qed.

Lemma C7_writes_after_close_fail_witness :
  exists s3 n s4,
    fstep (Coarse Recv)
      (fafter (replicate 25 Tick ++ [Coarse (Move 1)]%nat)
         (fafter [Coarse (Move 0)]%nat (fafter until_Close close_overtakes)))
    = Some s3
    /\ frun (replicate n Tick) s3 = Some s4
    /\ busy s4 = None
    /\ sink (os_world (coarse s4))
       = [CloseError "/log" ErrClosed; WriteError "/log" ErrClosed]
    /\ file_at (os_world (coarse s4)) "/log" = Some "HEADER;".
Proof.
  pose proof (C7_writes_after_close_fail 0
                (fafter until_Close close_overtakes)
                (fafter [Coarse (Move 0)]%nat (fafter until_Close close_overtakes))
                {| pc := FileClose; todo := []; returned := [] |}
                0%nat) as H.
  assert (H1 : clients (coarse (fafter until_Close close_overtakes)) !! 0%nat
               = Some {| pc := FileClose; todo := []; returned := [] |})
    by (vm_compute; reflexivity).
  assert (H2 : file (appender (coarse (fafter until_Close close_overtakes)))
               = Some 0%nat)
    by (vm_compute; reflexivity).
  assert (H3 : file (listener (coarse (fafter until_Close close_overtakes)))
               = Some 0%nat)
    by (vm_compute; reflexivity).
  assert (H4 : is_Some (fds (os_world (coarse (fafter until_Close close_overtakes)))
                          !! 0%nat))
    by (vm_compute; eexists; reflexivity).
  assert (H5 : fstep (Coarse (Move 0)) (fafter until_Close close_overtakes)
               = Some (fafter [Coarse (Move 0)]%nat
                         (fafter until_Close close_overtakes))).
  { assert (R : runs [Coarse (Move 0)]%nat (fafter until_Close close_overtakes) = true)
      by (vm_compute; reflexivity).
    apply frun_fafter in R. revert R. cbn [frun].
    destruct (fstep _ _) as [s1|]; [|discriminate]. cbn. intros ->. reflexivity. }
  specialize (H H1 eq_refl H2 H3 H4 H5). destruct H as [_ H].
  assert (H6 : runs (replicate 25 Tick ++ [Coarse (Move 1)]%nat)
                 (fafter [Coarse (Move 0)]%nat (fafter until_Close close_overtakes))
               = true)
    by (vm_compute; reflexivity).
  apply frun_fafter in H6. specialize (H _ _ H6). destruct H as [_ H].
  assert (H7 : busy (fafter (replicate 25 Tick ++ [Coarse (Move 1)]%nat)
                       (fafter [Coarse (Move 0)]%nat
                          (fafter until_Close close_overtakes))) = None)
    by (vm_compute; reflexivity).
  assert (H8 : appendCh (coarse (fafter (replicate 25 Tick ++ [Coarse (Move 1)]%nat)
                                   (fafter [Coarse (Move 0)]%nat
                                      (fafter until_Close close_overtakes))))
               = [record "late;"])
    by (vm_compute; reflexivity).
  assert (H9 : listener_pc (coarse (fafter (replicate 25 Tick ++ [Coarse (Move 1)]%nat)
                                      (fafter [Coarse (Move 0)]%nat
                                         (fafter until_Close close_overtakes))))
               = Loop true)
    by (vm_compute; reflexivity).
  specialize (H (record "late;") [] true H7 H8 H9).
  destruct H as (s3 & H10 & _ & (n & s4 & H11 & H12) & H).
  assert (H13 : Coarse Recv ∉ replicate n Tick).
  { intros Hin. apply elem_of_replicate in Hin as [Hin _]. discriminate Hin. }
  specialize (H _ _ H11 H13 H12). destruct H as (H14 & _ & H15 & H16).
  exists s3, n, s4. split; [exact H10|]. split; [exact H11|]. split; [exact H12|].
  split.
  - rewrite H14. vm_compute. reflexivity.
  - unfold file_at. rewrite H15, H16. vm_compute. reflexivity.
Defined.

(** A record the writer is handling when [Close] closes the file is not
    refused.  Client 0 has left [waitUntilEmpty] on an empty queue; client 1
    appends, and the writer writes the record to the open file; client 0
    closes the file, and [Close] returns nil; the writer finds the size
    above the maximum and rotates: closing the file again fails and is
    reported, the file is renamed, a new one is created and the header is
    written to it. *)
Example Close_overtakes_the_writer :
  let s := fafter close_overtakes_schedule close_overtakes in
  new_calls (os_world (coarse close_overtakes)) (os_world (coarse s))
  = [(SysWrite 0 "first;", None); (SysClose 0, None); (SysClose 0, Some ErrClosed);
     (SysRename "/log" "/log.2013-04-05T06-07-08", None);
     (SysOpen "/log" flags_create, None); (SysWrite 1 "HEADER;", None)]
  /\ sink (os_world (coarse s)) = [CloseError "/log" ErrClosed]
  /\ (returned <$> clients (coarse s)) = [[None]; [None]]
  /\ file_at (os_world (coarse s)) "/log" = Some "HEADER;"
  /\ file_at (os_world (coarse s)) "/log.2013-04-05T06-07-08" = Some "HEADER;first;"
  /\ busy s = None.
Proof. vm_compute. repeat split; reflexivity. Qed.
